(** * Polyhedral dice components (D4, D6, D8, D10, D12, D20)

    A shallow embedding of the six React/three.js dice components and the
    statements their specification makes about them.

    Numbers.  JavaScript numbers are idealised as real numbers: every
    arithmetic operation of the source is the exact operation on [R],
    [Math.sqrt], [Math.cos] and [Math.sin] are [sqrt], [cos] and [sin],
    and [Math.floor] is [Zfloor].  A value returned by [Math.random()] is
    an explicit argument [u], taken in [0 <= u < 1] where a statement
    needs the range.

    The library.  three.js is imported by the six files and is not part
    of the repository.  Its vector and quaternion algebra, its polyhedron
    builder and its vertex and index tables are written out below as the
    library defines them; the few entry points whose code differs between
    releases form the interface [Three].

    React.  The [useState] cells of a component are one record, the refs
    and the pose of its mesh another.  An event handler runs to its end,
    its state updates are committed together and the effects they trigger
    run in the same step.  [setTimeout] is a list of pending timers, fired
    when the clock reaches their due time; [useFrame] is a function of
    the frame delta.  The mesh is taken as mounted ([meshRef.current] is
    set).  Textures, lights, the camera and the copy of the mesh pose
    onto the number labels of D10 and D12 are rendering only and are left
    out; of a material only the number on its texture is kept.

    Part I holds the definitions, Part II the lemmas and theorems about
    the statements of the specification, Part III further properties of
    the six files. *)

From Stdlib Require Import Reals Lra Lia ZArith List Bool Psatz RNsatz.
Import ListNotations.
Open Scope R_scope.

(* ================================================================== *)
(** * Part I. Definitions *)
(* ================================================================== *)

(** ** THREE.Vector3 *)

Record Vector3 := vec3 { vx : R; vy : R; vz : R }.

Definition origin : Vector3 := vec3 0 0 0.

Definition add (a b : Vector3) : Vector3 :=
  vec3 (vx a + vx b) (vy a + vy b) (vz a + vz b).

Definition subVectors (a b : Vector3) : Vector3 :=
  vec3 (vx a - vx b) (vy a - vy b) (vz a - vz b).

Definition multiplyScalar (v : Vector3) (s : R) : Vector3 :=
  vec3 (vx v * s) (vy v * s) (vz v * s).

(** [divideScalar(s)] is [multiplyScalar(1 / s)]. *)
Definition divideScalar (v : Vector3) (s : R) : Vector3 :=
  multiplyScalar v (1 / s).

Definition addScaledVector (a v : Vector3) (s : R) : Vector3 :=
  vec3 (vx a + vx v * s) (vy a + vy v * s) (vz a + vz v * s).

Definition dot (a b : Vector3) : R :=
  vx a * vx b + vy a * vy b + vz a * vz b.

Definition crossVectors (a b : Vector3) : Vector3 :=
  vec3 (vy a * vz b - vz a * vy b)
       (vz a * vx b - vx a * vz b)
       (vx a * vy b - vy a * vx b).

Definition lengthSq (v : Vector3) : R := dot v v.

Definition length (v : Vector3) : R := sqrt (lengthSq v).

(** [normalize()] is [divideScalar(this.length() || 1)]: the zero vector
    is divided by 1 and stays zero. *)
Definition normalize (v : Vector3) : Vector3 :=
  divideScalar v (if Req_dec_T (length v) 0 then 1 else length v).

Definition distanceTo (a b : Vector3) : R := length (subVectors a b).

(** [lerp(v, alpha)]: [this.x += (v.x - this.x) * alpha]. *)
Definition lerp (a v : Vector3) (alpha : R) : Vector3 :=
  vec3 (vx a + (vx v - vx a) * alpha)
       (vy a + (vy v - vy a) * alpha)
       (vz a + (vz v - vz a) * alpha).

(** ** THREE.Quaternion and THREE.Euler *)

Record Quaternion := quat { qx : R; qy : R; qz : R; qw : R }.

Record Euler := euler { ex : R; ey : R; ez : R }.

(** [new THREE.Quaternion()] *)
Definition identityQuaternion : Quaternion := quat 0 0 0 1.

Definition qlength (q : Quaternion) : R :=
  sqrt (qx q * qx q + qy q * qy q + qz q * qz q + qw q * qw q).

(** [Quaternion.normalize()]: a zero quaternion becomes the identity. *)
Definition qnormalize (q : Quaternion) : Quaternion :=
  if Req_dec_T (qlength q) 0 then identityQuaternion
  else let l := 1 / qlength q in
       quat (qx q * l) (qy q * l) (qz q * l) (qw q * l).

(** [Quaternion.setFromEuler(e)] for the default order 'XYZ'. *)
Definition setFromEuler (e : Euler) : Quaternion :=
  let c1 := cos (ex e / 2) in
  let c2 := cos (ey e / 2) in
  let c3 := cos (ez e / 2) in
  let s1 := sin (ex e / 2) in
  let s2 := sin (ey e / 2) in
  let s3 := sin (ez e / 2) in
  quat (s1 * c2 * c3 + c1 * s2 * s3)
       (c1 * s2 * c3 - s1 * c2 * s3)
       (c1 * c2 * s3 + s1 * s2 * c3)
       (c1 * c2 * c3 - s1 * s2 * s3).

(** [Quaternion.setFromUnitVectors(vFrom, vTo)].  The threshold [eps]
    below which the two vectors count as opposite is a constant of the
    library ([Number.EPSILON] in most releases). *)
Definition setFromUnitVectors (eps : R) (vFrom vTo : Vector3) : Quaternion :=
  let r := dot vFrom vTo + 1 in
  if Rlt_dec r eps then
    if Rlt_dec (Rabs (vz vFrom)) (Rabs (vx vFrom))
    then qnormalize (quat (- vy vFrom) (vx vFrom) 0 0)
    else qnormalize (quat 0 (- vz vFrom) (vy vFrom) 0)
  else
    qnormalize (quat (vy vFrom * vz vTo - vz vFrom * vy vTo)
                     (vz vFrom * vx vTo - vx vFrom * vz vTo)
                     (vx vFrom * vy vTo - vy vFrom * vx vTo)
                     r).

(** [Vector3.applyQuaternion(q)]: [v + q.w * t + cross(q.xyz, t)] with
    [t = 2 * cross(q.xyz, v)]. *)
Definition applyQuaternion (v : Vector3) (q : Quaternion) : Vector3 :=
  let tx := 2 * (qy q * vz v - qz q * vy v) in
  let ty := 2 * (qz q * vx v - qx q * vz v) in
  let tz := 2 * (qx q * vy v - qy q * vx v) in
  vec3 (vx v + qw q * tx + qy q * tz - qz q * ty)
       (vy v + qw q * ty + qz q * tx - qx q * tz)
       (vz v + qw q * tz + qx q * ty - qy q * tx).

(** The camera-facing reference direction, [new THREE.Vector3(0, 0, 1)]. *)
Definition forward : Vector3 := vec3 0 0 1.

(** ** THREE.PolyhedronGeometry at detail 0

    The dice import these from the three.js library; the vertex and index
    tables and the construction below are the library's.  A geometry is
    its position attribute: one [Vector3] per buffer entry, three
    consecutive entries per triangle (the geometry is non-indexed, so
    [toNonIndexed()] returns it unchanged). *)

Definition getVertexByIndex (vertices : list R) (index : nat) : Vector3 :=
  vec3 (nth (index * 3) vertices 0)
       (nth (index * 3 + 1) vertices 0)
       (nth (index * 3 + 2) vertices 0).

(** [subdivide(0)]: for a face [(a, b, c)] of the index list,
    [subdivideFace] pushes the corners in the order [b], [c], [a]. *)
Fixpoint subdivide (vertices : list R) (indices : list nat) : list Vector3 :=
  match indices with
  | a :: b :: c :: rest =>
      getVertexByIndex vertices b :: getVertexByIndex vertices c
        :: getVertexByIndex vertices a :: subdivide vertices rest
  | _ => []
  end.

(** [applyRadius(radius)]: every vertex is projected onto the sphere. *)
Definition applyRadius (radius : R) (v : Vector3) : Vector3 :=
  multiplyScalar (normalize v) radius.

Definition PolyhedronGeometry (vertices : list R) (indices : list nat)
    (radius : R) : list Vector3 :=
  map (applyRadius radius) (subdivide vertices indices).

(** [computeVertexNormals()] on a non-indexed geometry: the three entries
    of a triangle get the normalized cross product [(pC - pB) x (pA - pB)]. *)
Fixpoint computeVertexNormals (position : list Vector3) : list Vector3 :=
  match position with
  | pA :: pB :: pC :: rest =>
      let cb := normalize (crossVectors (subVectors pC pB) (subVectors pA pB)) in
      cb :: cb :: cb :: computeVertexNormals rest
  | _ => []
  end.

(** [attribute.getX(i)], [getY(i)], [getZ(i)] and [fromBufferAttribute]. *)
Definition fromBufferAttribute (attribute : list Vector3) (i : nat) : Vector3 :=
  nth i attribute origin.

Definition TetrahedronGeometry (radius : R) : list Vector3 :=
  PolyhedronGeometry
    [1; 1; 1;  -1; -1; 1;  -1; 1; -1;  1; -1; -1]
    [2; 1; 0;  0; 3; 2;  1; 3; 0;  2; 3; 1]%nat
    radius.

Definition OctahedronGeometry (radius : R) : list Vector3 :=
  PolyhedronGeometry
    [1; 0; 0;  -1; 0; 0;  0; 1; 0;  0; -1; 0;  0; 0; 1;  0; 0; -1]
    [0; 2; 4;  0; 4; 3;  0; 3; 5;  0; 5; 2;
     1; 2; 5;  1; 5; 3;  1; 3; 4;  1; 4; 2]%nat
    radius.

(** The golden ratio [t = (1 + Math.sqrt(5)) / 2] of both tables below. *)
Definition phi : R := (1 + sqrt 5) / 2.

Definition IcosahedronGeometry (radius : R) : list Vector3 :=
  let t := phi in
  PolyhedronGeometry
    [-1; t; 0;  1; t; 0;  -1; -t; 0;  1; -t; 0;
     0; -1; t;  0; 1; t;  0; -1; -t;  0; 1; -t;
     t; 0; -1;  t; 0; 1;  -t; 0; -1;  -t; 0; 1]
    [0; 11; 5;  0; 5; 1;  0; 1; 7;  0; 7; 10;  0; 10; 11;
     1; 5; 9;  5; 11; 4;  11; 10; 2;  10; 7; 6;  7; 1; 8;
     3; 9; 4;  3; 4; 2;  3; 2; 6;  3; 6; 8;  3; 8; 9;
     4; 9; 5;  2; 4; 11;  6; 2; 10;  8; 6; 7;  9; 8; 1]%nat
    radius.

Definition DodecahedronGeometry (radius : R) : list Vector3 :=
  let t := phi in
  let r := 1 / t in
  PolyhedronGeometry
    [-1; -1; -1;  -1; -1; 1;  -1; 1; -1;  -1; 1; 1;
     1; -1; -1;  1; -1; 1;  1; 1; -1;  1; 1; 1;
     0; -r; -t;  0; -r; t;  0; r; -t;  0; r; t;
     -r; -t; 0;  -r; t; 0;  r; -t; 0;  r; t; 0;
     -t; 0; -r;  t; 0; -r;  -t; 0; r;  t; 0; r]
    [3; 11; 7;  3; 7; 15;  3; 15; 13;
     7; 19; 17;  7; 17; 6;  7; 6; 15;
     17; 4; 8;  17; 8; 10;  17; 10; 6;
     8; 0; 16;  8; 16; 2;  8; 2; 10;
     0; 12; 1;  0; 1; 18;  0; 18; 16;
     6; 10; 2;  6; 2; 13;  6; 13; 15;
     2; 16; 18;  2; 18; 3;  2; 3; 13;
     18; 1; 9;  18; 9; 11;  18; 11; 3;
     4; 14; 12;  4; 12; 0;  4; 0; 8;
     11; 9; 5;  11; 5; 19;  11; 19; 7;
     19; 5; 14;  19; 14; 4;  19; 4; 17;
     1; 12; 14;  1; 14; 5;  1; 5; 9]%nat
    radius.

(** [THREE.BoxGeometry]: material group [i] is the side with this outward
    normal (+x, -x, +y, -y, +z, -z). *)
Definition boxGroupNormal (materialIndex : nat) : Vector3 :=
  match materialIndex with
  | 0%nat => vec3 1 0 0
  | 1%nat => vec3 (-1) 0 0
  | 2%nat => vec3 0 1 0
  | 3%nat => vec3 0 (-1) 0
  | 4%nat => vec3 0 0 1
  | _ => vec3 0 0 (-1)
  end.

(** ** Parts of three.js that differ between releases

    [EPSILON] is the threshold of [setFromUnitVectors]; [slerp] is
    [Quaternion.slerp(qb, t)] and [setFromQuaternion] is
    [Euler.setFromQuaternion(q)], through which [mesh.rotation] follows
    every write to [mesh.quaternion].  The dice are modelled against any
    implementation of this interface. *)

Record Three := {
  EPSILON : R;
  EPSILON_pos : 0 < EPSILON;
  EPSILON_small : EPSILON <= 0.000001;
  slerp : Quaternion -> Quaternion -> R -> Quaternion;
  setFromQuaternion : Quaternion -> Euler
}.

(** The computation every triangle-faced die repeats inline: the mean of
    the three vertex normals of triangle [faceIndex], normalized. *)
Definition faceNormal (normals : list Vector3) (faceIndex : nat) : Vector3 :=
  let i0 := (faceIndex * 3)%nat in
  let n0 := fromBufferAttribute normals i0 in
  let n1 := fromBufferAttribute normals (i0 + 1) in
  let n2 := fromBufferAttribute normals (i0 + 2) in
  normalize (divideScalar (add (add (add origin n0) n1) n2) 3).

(** ** D4.js *)
Module D4_js.

Definition ROLL_DURATION_MS : R := 1800.
Definition GRAVITY : R := -9.8.
Definition BOUNCE_DAMPING : R := 0.5.

(** The mesh geometry; material group [i] (the texture of number
    [i + 1]) is triangle [i]. *)
Definition geometry : list Vector3 := TetrahedronGeometry 1.

(** The effect that makes face 4 (index 3) face the camera. *)
Definition initialQuat (T : Three) : Quaternion :=
  let geo := TetrahedronGeometry 1 in
  let normals := computeVertexNormals geo in
  let faceIndex := 3%nat in
  setFromUnitVectors (EPSILON T) (faceNormal normals faceIndex) forward.

(** The target computed in [rollDice] for the rolled face. *)
Definition targetQuaternion (T : Three) (faceIndex : nat) : Quaternion :=
  let tempGeo := TetrahedronGeometry 1 in
  let normals := computeVertexNormals tempGeo in
  let up := vec3 0 0 1 in
  setFromUnitVectors (EPSILON T) (faceNormal normals faceIndex) up.

End D4_js.

(** ** D6.js *)
Module D6_js.

Definition ROLL_DURATION_MS : R := 1000.
Definition GRAVITY : R := -9.8.
Definition BOUNCE_DAMPING : R := 0.05.

(** [materials] is [[1, 2, 3, 4, 5, 6].map(...)]: group [i] of the box
    carries number [i + 1]. *)
Definition orientations (faceNumber : Z) : option Euler :=
  match faceNumber with
  | 1%Z => Some (euler 0 (- PI / 2) 0)
  | 2%Z => Some (euler 0 (PI / 2) 0)
  | 3%Z => Some (euler (PI / 2) 0 0)
  | 4%Z => Some (euler (- PI / 2) 0 0)
  | 5%Z => Some (euler 0 0 0)
  | 6%Z => Some (euler PI 0 0)
  | _ => None
  end.

Definition getFaceQuaternion (faceNumber : Z) : Quaternion :=
  let e := match orientations faceNumber with
           | Some e => e
           | None => euler 0 (- PI / 2) 0
           end in
  setFromEuler e.

Definition initialQuat : Quaternion := getFaceQuaternion 6.

End D6_js.

(** ** D8.js *)
Module D8_js.

Definition ROLL_DURATION_MS : R := 1800.
Definition GRAVITY : R := -9.8.
Definition BOUNCE_DAMPING : R := 0.5.

Definition geometry : list Vector3 := OctahedronGeometry 1.

Definition initialQuat (T : Three) : Quaternion :=
  let geo := OctahedronGeometry 1 in
  let normals := computeVertexNormals geo in
  let faceIndex := 7%nat in
  setFromUnitVectors (EPSILON T) (faceNormal normals faceIndex) forward.

Definition targetQuaternion (T : Three) (faceIndex : nat) : Quaternion :=
  let tempGeo := OctahedronGeometry 1 in
  let normals := computeVertexNormals tempGeo in
  let up := vec3 0 0 1 in
  setFromUnitVectors (EPSILON T) (faceNormal normals faceIndex) up.

End D8_js.

(** ** D20 (src/unnamed/part_000) *)
Module D20_js.

Definition ROLL_DURATION_MS : R := 1800.
Definition GRAVITY : R := -9.8.
Definition BOUNCE_DAMPING : R := 0.5.

Definition geometry : list Vector3 := IcosahedronGeometry 1.

Definition initialQuat (T : Three) : Quaternion :=
  let geo := IcosahedronGeometry 1 in
  let normals := computeVertexNormals geo in
  let faceIndex := 19%nat in
  setFromUnitVectors (EPSILON T) (faceNormal normals faceIndex) forward.

Definition targetQuaternion (T : Three) (faceIndex : nat) : Quaternion :=
  let tempGeo := IcosahedronGeometry 1 in
  let normals := computeVertexNormals tempGeo in
  let up := vec3 0 0 1 in
  setFromUnitVectors (EPSILON T) (faceNormal normals faceIndex) up.

End D20_js.

(** ** D10.js *)
Module D10_js.

Definition ROLL_DURATION_MS : R := 1800.
Definition GRAVITY : R := -9.8.
Definition BOUNCE_DAMPING : R := 0.5.

Definition sides : nat := 10.

(** [verts]: the two apexes, then the loop pushing ten equatorial
    vertices; [i % 2 ? 1 : -1] is [1] for odd [i]. *)
Definition verts : list R :=
  [0; 0; 1; 0; 0; -1] ++
  flat_map (fun i : nat =>
              let a := INR i * PI * 2 / INR sides in
              [- cos a; - sin a; 0.105 * (if Nat.odd i then 1 else -1)])
           (seq 0 sides).

Definition faces : list nat :=
  [0; 2; 3;   0; 3; 4;   0; 4; 5;   0; 5; 6;   0; 6; 7;
   0; 7; 8;   0; 8; 9;   0; 9; 10;  0; 10; 11; 0; 11; 2;
   1; 3; 2;   1; 4; 3;   1; 5; 4;   1; 6; 5;   1; 7; 6;
   1; 8; 7;   1; 9; 8;   1; 10; 9;  1; 11; 10; 1; 2; 11]%nat.

Definition radius : R := 1.

Definition createD10Geometry : list Vector3 :=
  PolyhedronGeometry verts faces radius.

(** What [makeFaceLabel] builds: the basis handed to [makeBasis] (the
    label quaternion is the rotation with these axes) and the final
    positions of the anchor plane and of the number plane. *)
Record Label := {
  xAxis : Vector3;
  yAxis : Vector3;
  zAxis : Vector3;
  planePosition : Vector3;
  numPlanePosition : Vector3;
  number : Z
}.

Definition makeFaceLabel (center normal : Vector3) (number : Z)
    (apexDir : Vector3) : Label :=
  let faceUp := normalize apexDir in
  let faceNormal := normalize normal in
  let zAxis := faceNormal in
  let xAxis := normalize (crossVectors faceUp zAxis) in
  let yAxis := normalize (crossVectors zAxis xAxis) in
  let leftShift := multiplyScalar xAxis (-0.2) in
  {| xAxis := xAxis;
     yAxis := yAxis;
     zAxis := zAxis;
     planePosition :=
       add (add center (multiplyScalar faceNormal 0.02)) leftShift;
     numPlanePosition :=
       add (add center (multiplyScalar faceNormal 0.025)) leftShift;
     number := number |}.

Record Face := { center : Vector3; normal : Vector3; topDir : Vector3 }.

Definition topApex : Vector3 := vec3 0 0 1.
Definition bottomApex : Vector3 := vec3 0 0 (-1).

(** The loop over [candidates]: [best] starts at [candidates[0]] and is
    replaced only by a strictly nearer candidate. *)
Definition nearestStep (apexTarget : Vector3) (acc : Vector3 * R)
    (c : Vector3) : Vector3 * R :=
  let d := distanceTo apexTarget c in
  if Rlt_dec d (snd acc) then (c, d) else acc.

Definition nearest (apexTarget : Vector3) (candidates : list Vector3) : Vector3 :=
  let best := hd origin candidates in
  let bestDist := distanceTo apexTarget best in
  fst (fold_left (nearestStep apexTarget) candidates (best, bestDist)).

(** The body of the loop of [faceData] for one [face]. *)
Definition faceOf (pos : list Vector3) (face : nat) : Face :=
  let tri := (face * 2)%nat in
  let i0 := (tri * 3)%nat in
  let v0 := fromBufferAttribute pos i0 in
  let v1 := fromBufferAttribute pos (i0 + 1) in
  let v2 := fromBufferAttribute pos (i0 + 2) in
  let center := divideScalar (add (add (add origin v0) v1) v2) 3 in
  let normal :=
    normalize (crossVectors (subVectors v1 v0) (subVectors v2 v0)) in
  let apexTarget := if Rge_dec (vz center) 0 then topApex else bottomApex in
  let candidates := [v0; v1; v2] in
  let best := nearest apexTarget candidates in
  let topDir := subVectors best center in
  {| center := center; normal := normal; topDir := topDir |}.

Definition faceData (pos : list Vector3) : list Face :=
  map (faceOf pos) (seq 0 10).

Definition numberMeshes (pos : list Vector3) : list Label :=
  map (fun '(i, f) => makeFaceLabel (center f) (normal f)
                        (Z.of_nat i + 1) (topDir f))
      (combine (seq 0 10) (faceData pos)).

Definition defaultFace : Face := Build_Face origin origin origin.

Definition initialQuat (T : Three) : Quaternion :=
  let f := nth 9 (faceData createD10Geometry) defaultFace in
  setFromUnitVectors (EPSILON T) (normal f) forward.

Definition targetQuaternion (T : Three) (faceIndex : nat) : Quaternion :=
  let f := nth faceIndex (faceData createD10Geometry) defaultFace in
  setFromUnitVectors (EPSILON T) (normal f) forward.

End D10_js.

(** ** D12.js *)
Module D12_js.

Definition ROLL_DURATION_MS : R := 1800.
Definition GRAVITY : R := -9.8.
Definition BOUNCE_DAMPING : R := 0.5.

Definition createD12Geometry : list Vector3 := DodecahedronGeometry 1.

Record Face := { center : Vector3; normal : Vector3 }.

(** The body of the loop of [faceData] for one face [f]. *)
Definition faceOf (pos : list Vector3) (f : nat) : Face :=
  let tri0 := (f * 3 * 3)%nat in
  let v0 := fromBufferAttribute pos tri0 in
  let v1 := fromBufferAttribute pos (tri0 + 1) in
  let v2 := fromBufferAttribute pos (tri0 + 2) in
  let center := divideScalar (add (add (add origin v0) v1) v2) 3 in
  let normal :=
    normalize (crossVectors (subVectors v1 v0) (subVectors v2 v0)) in
  {| center := center; normal := normal |}.

Definition faceData (pos : list Vector3) : list Face :=
  map (faceOf pos) (seq 0 12).

Definition defaultFace : Face := Build_Face origin origin.

(** [initialQuaternion]: face 12 (index 11) of the face table. *)
Definition initialQuaternion (T : Three) : Quaternion :=
  let faceIndex := 11%nat in
  setFromUnitVectors (EPSILON T)
    (normal (nth faceIndex (faceData createD12Geometry) defaultFace)) forward.

(** The target computed in [rollDice]: the normals are read from an
    [IcosahedronGeometry], as the source does. *)
Definition targetQuaternion (T : Three) (faceIndex : nat) : Quaternion :=
  let tempGeo := IcosahedronGeometry 1 in
  let normals := computeVertexNormals tempGeo in
  let up := vec3 0 0 1 in
  setFromUnitVectors (EPSILON T) (faceNormal normals faceIndex) up.

End D12_js.

(** ** The component the six files share

    [D4], [D6], [D8], [D10], [D12] and [D20] are the same component up to
    the constants and the few lines tabulated below, so the model is one
    family indexed by the die. *)

Inductive Die := D4 | D6 | D8 | D10 | D12 | D20.

(** The [N] of [Math.floor(Math.random() * N)]. *)
Definition faceCount (d : Die) : Z :=
  match d with
  | D4 => 4 | D6 => 6 | D8 => 8 | D10 => 10 | D12 => 12 | D20 => 20
  end%Z.

Definition ROLL_DURATION_MS (d : Die) : R :=
  match d with
  | D4 => D4_js.ROLL_DURATION_MS
  | D6 => D6_js.ROLL_DURATION_MS
  | D8 => D8_js.ROLL_DURATION_MS
  | D10 => D10_js.ROLL_DURATION_MS
  | D12 => D12_js.ROLL_DURATION_MS
  | D20 => D20_js.ROLL_DURATION_MS
  end.

Definition GRAVITY (d : Die) : R :=
  match d with
  | D4 => D4_js.GRAVITY
  | D6 => D6_js.GRAVITY
  | D8 => D8_js.GRAVITY
  | D10 => D10_js.GRAVITY
  | D12 => D12_js.GRAVITY
  | D20 => D20_js.GRAVITY
  end.

Definition BOUNCE_DAMPING (d : Die) : R :=
  match d with
  | D4 => D4_js.BOUNCE_DAMPING
  | D6 => D6_js.BOUNCE_DAMPING
  | D8 => D8_js.BOUNCE_DAMPING
  | D10 => D10_js.BOUNCE_DAMPING
  | D12 => D12_js.BOUNCE_DAMPING
  | D20 => D20_js.BOUNCE_DAMPING
  end.

(** The constants of the three spin lines, [delta * (base + random * range)]. *)
Definition spinX (d : Die) : R * R :=
  match d with D10 | D12 => (7, 3) | _ => (8, 3) end.
Definition spinY (d : Die) : R * R :=
  match d with D10 => (8, 3) | D12 => (9, 3) | _ => (10, 3) end.
Definition spinZ (d : Die) : R * R :=
  match d with D10 | D12 => (6, 2) | _ => (7, 2) end.

(** The second argument of [mesh.quaternion.slerp]: [Math.min(1, delta * 6)]
    everywhere but in D12.js, which passes [delta * 6]. *)
Definition slerpT (d : Die) (delta : R) : R :=
  match d with
  | D12 => delta * 6
  | _ => Rmin 1 (delta * 6)
  end.

(** Whether the [setTimeout] callback of [rollDice] contains the lines
    [if (onRollComplete) { onRollComplete(faceNumber); }].  D10.js only
    hands the prop to [D10Mesh], which never calls it. *)
Definition timeoutNotifies (d : Die) : bool :=
  match d with D10 => false | _ => true end.

(** The initial value of [result]. *)
Definition initialResult (d : Die) : Z := faceCount d.

Definition initialQuat (T : Three) (d : Die) : Quaternion :=
  match d with
  | D4 => D4_js.initialQuat T
  | D6 => D6_js.initialQuat
  | D8 => D8_js.initialQuat T
  | D10 => D10_js.initialQuat T
  | D12 => D12_js.initialQuaternion T
  | D20 => D20_js.initialQuat T
  end.

(** The target quaternion [rollDice] computes for [faceIndex]
    ([faceNumber = faceIndex + 1] in D6.js). *)
Definition targetQuaternion (T : Three) (d : Die) (faceIndex : Z) : Quaternion :=
  match d with
  | D4 => D4_js.targetQuaternion T (Z.to_nat faceIndex)
  | D6 => D6_js.getFaceQuaternion (faceIndex + 1)
  | D8 => D8_js.targetQuaternion T (Z.to_nat faceIndex)
  | D10 => D10_js.targetQuaternion T (Z.to_nat faceIndex)
  | D12 => D12_js.targetQuaternion T (Z.to_nat faceIndex)
  | D20 => D20_js.targetQuaternion T (Z.to_nat faceIndex)
  end.

(** The die's own face table: the outward normal of the face that shows
    number [faceIndex + 1] on the rendered mesh. *)
Definition faceTableNormal (d : Die) (faceIndex : nat) : Vector3 :=
  match d with
  | D4 => faceNormal (computeVertexNormals D4_js.geometry) faceIndex
  | D6 => boxGroupNormal faceIndex
  | D8 => faceNormal (computeVertexNormals D8_js.geometry) faceIndex
  | D10 => D10_js.normal
             (nth faceIndex (D10_js.faceData D10_js.createD10Geometry)
                  D10_js.defaultFace)
  | D12 => D12_js.normal
             (nth faceIndex (D12_js.faceData D12_js.createD12Geometry)
                  D12_js.defaultFace)
  | D20 => faceNormal (computeVertexNormals D20_js.geometry) faceIndex
  end.

(** The default resting face, as an index. *)
Definition referenceFace (d : Die) : nat :=
  match d with
  | D4 => 3 | D6 => 5 | D8 => 7 | D10 => 9 | D12 => 11 | D20 => 19
  end%nat.

(** *** State *)

(** The [useState] cells of the main component. *)
Record Component := {
  rolling : bool;
  result : Z;
  targetQuat : option Quaternion;
  rollDirection : Vector3;
  rollStartTime : R;
  resetSignal : nat;
  initialQuatState : Quaternion
}.

(** The refs of the mesh component and the pose of the mesh. *)
Record Mesh := {
  velocity : Vector3;
  pos : Vector3;
  hasBounced : bool;
  position : Vector3;
  rotation : Euler;
  quaternion : Quaternion
}.

(** A pending [setTimeout]: its due time and what its closure captured. *)
Record Timer := {
  due : R;
  timerFaceNumber : Z;
  timerTarget : Quaternion
}.

Record World := {
  now : R;                       (* performance.now(), in ms *)
  onRollComplete : bool;         (* whether the parent passed the prop *)
  state : Component;
  mesh : Mesh;
  timers : list Timer;
  reported : list (R * Z)        (* calls of onRollComplete: time, argument *)
}.

(** The values [Math.random()] returns to one [rollDice], in call order,
    and to one tumbling frame. *)
Record RollSamples := { uFace : R; uX : R; uY : R; uZ : R }.
Record SpinSamples := { uSpinX : R; uSpinY : R; uSpinZ : R }.

(** *** Operations *)

Definition Rltb (x y : R) : bool := if Rlt_dec x y then true else false.
Definition Rleb (x y : R) : bool := if Rle_dec x y then true else false.

(** The reset effect of the mesh component, run whenever [resetSignal],
    [rollDirection] or [initialQuaternion] change. *)
Definition resetEffect (T : Three) (s : Component) (m : Mesh) : Mesh :=
  {| velocity := vec3 (vx (rollDirection s) * 3)
                      (vy (rollDirection s) * 4)
                      (vz (rollDirection s) * 3);
     pos := vec3 0 0 0;
     hasBounced := false;
     position := vec3 0 0 0;
     rotation := setFromQuaternion T (initialQuatState s);
     quaternion := initialQuatState s |}.

(** The component once mounted and its mount effects have run: the state
    cells at their initial values, [initialQuat] computed, the mesh
    reset. *)
Definition mount (T : Three) (d : Die) (callback : bool) : World :=
  let s := {| rolling := false;
              result := initialResult d;
              targetQuat := None;
              rollDirection := vec3 0 0 0;
              rollStartTime := 0;
              resetSignal := 0;
              initialQuatState := initialQuat T d |} in
  {| now := 0;
     onRollComplete := callback;
     state := s;
     mesh := resetEffect T s
               {| velocity := origin; pos := origin; hasBounced := false;
                  position := origin;
                  rotation := setFromQuaternion T identityQuaternion;
                  quaternion := identityQuaternion |};
     timers := [];
     reported := [] |}.

(** [rollDice], with the re-render and the reset effect it triggers. *)
Definition rollDice (T : Three) (d : Die) (w : World) (u : RollSamples) : World :=
  if rolling (state w) then w
  else
    let faceIndex := Zfloor (uFace u * IZR (faceCount d)) in
    let faceNumber := (faceIndex + 1)%Z in
    let dir := normalize (vec3 ((uX u - 0.5) * 2)
                               (uY u * 1.5 + 1.2)
                               ((uZ u - 0.5) * 2)) in
    let target := targetQuaternion T d faceIndex in
    let s := state w in
    let s' := {| rolling := true;
                 result := faceNumber;
                 targetQuat := targetQuat s;
                 rollDirection := dir;
                 rollStartTime := match d with
                                  | D10 => rollStartTime s
                                  | _ => now w / 1000
                                  end;
                 resetSignal := S (resetSignal s);
                 initialQuatState := initialQuatState s |} in
    {| now := now w;
       onRollComplete := onRollComplete w;
       state := s';
       mesh := resetEffect T s' (mesh w);
       timers := timers w ++ [ {| due := now w + ROLL_DURATION_MS d;
                                  timerFaceNumber := faceNumber;
                                  timerTarget := target |} ];
       reported := reported w |}.

(** The callback handed to [setTimeout]. *)
Definition timeoutCallback (d : Die) (w : World) (t : Timer) : World :=
  let s := state w in
  {| now := now w;
     onRollComplete := onRollComplete w;
     state := {| rolling := false;
                 result := result s;
                 targetQuat := Some (timerTarget t);
                 rollDirection := rollDirection s;
                 rollStartTime := rollStartTime s;
                 resetSignal := resetSignal s;
                 initialQuatState := initialQuatState s |};
     mesh := mesh w;
     timers := timers w;
     reported := if timeoutNotifies d && onRollComplete w
                 then reported w ++ [(now w, timerFaceNumber t)]
                 else reported w |}.

(** [dt] milliseconds pass; the timers that are due fire, oldest first. *)
Definition elapse (d : Die) (w : World) (dt : R) : World :=
  let now' := now w + dt in
  let isDue := fun t : Timer => Rleb (due t) now' in
  fold_left (timeoutCallback d)
    (filter isDue (timers w))
    {| now := now';
       onRollComplete := onRollComplete w;
       state := state w;
       mesh := mesh w;
       timers := filter (fun t => negb (isDue t)) (timers w);
       reported := reported w |}.

(** The tumbling branch of the [useFrame] callback. *)
Definition tumble (d : Die) (m : Mesh) (delta : R) (u : SpinSamples) : Mesh :=
  let v1 := vec3 (vx (velocity m))
                 (vy (velocity m) + GRAVITY d * delta * 0.6)
                 (vz (velocity m)) in
  let p1 := addScaledVector (pos m) v1 delta in
  let bounce := Rltb (vy p1) (-1.4) && negb (hasBounced m) in
  let rot := euler (ex (rotation m) + delta * (fst (spinX d) + uSpinX u * snd (spinX d)))
                   (ey (rotation m) + delta * (fst (spinY d) + uSpinY u * snd (spinY d)))
                   (ez (rotation m) + delta * (fst (spinZ d) + uSpinZ u * snd (spinZ d))) in
  {| velocity := if bounce
                 then vec3 (vx v1) (vy v1 * - BOUNCE_DAMPING d) (vz v1)
                 else v1;
     pos := if bounce then vec3 (vx p1) (-1.4) (vz p1) else p1;
     hasBounced := if bounce then true else hasBounced m;
     position := p1;
     rotation := rot;
     quaternion := setFromEuler rot |}.

(** The settling branch of the [useFrame] callback. *)
Definition settle (T : Three) (d : Die) (m : Mesh) (target : Quaternion)
    (delta : R) : Mesh :=
  let q := slerp T (quaternion m) target (slerpT d delta) in
  {| velocity := velocity m;
     pos := pos m;
     hasBounced := hasBounced m;
     position := lerp (position m) (vec3 0 0 0) (delta * 3);
     rotation := setFromQuaternion T q;
     quaternion := q |}.

Definition useFrame (T : Three) (d : Die) (w : World) (delta : R)
    (u : SpinSamples) : World :=
  let m' := if rolling (state w) then tumble d (mesh w) delta u
            else match targetQuat (state w) with
                 | Some target => settle T d (mesh w) target delta
                 | None => mesh w
                 end in
  {| now := now w;
     onRollComplete := onRollComplete w;
     state := state w;
     mesh := m';
     timers := timers w;
     reported := reported w |}.

(** What can happen to a mounted die: a click (a call of [roll()]), a
    rendered frame, the passing of time. *)
Inductive Event :=
| Click (u : RollSamples)
| Frame (delta : R) (u : SpinSamples)
| Elapse (dt : R).

Definition step (T : Three) (d : Die) (w : World) (e : Event) : World :=
  match e with
  | Click u => rollDice T d w u
  | Frame delta u => useFrame T d w delta u
  | Elapse dt => elapse d w dt
  end.

Definition run (T : Three) (d : Die) (w : World) (es : list Event) : World :=
  fold_left (step T d) es w.

Definition isClick (e : Event) : bool :=
  match e with Click _ => true | _ => false end.

(** Total time passed by a list of events, in ms. *)
Fixpoint elapsed (es : list Event) : R :=
  match es with
  | [] => 0
  | Elapse dt :: es' => dt + elapsed es'
  | _ :: es' => elapsed es'
  end.

(** Every [Elapse] moves the clock forward. *)
Fixpoint forwardInTime (es : list Event) : Prop :=
  match es with
  | [] => True
  | Elapse dt :: es' => 0 <= dt /\ forwardInTime es'
  | _ :: es' => forwardInTime es'
  end.

(** The floor-contact event of one tumbling frame: the frame in which the
    clamp and the reversal are executed. *)
Definition floorContact (d : Die) (m : Mesh) (delta : R) : bool :=
  let vy1 := vy (velocity m) + GRAVITY d * delta * 0.6 in
  Rltb (vy (pos m) + vy1 * delta) (-1.4) && negb (hasBounced m).

(** Number of floor-contact events along a sequence of tumbling frames. *)
Fixpoint floorContacts (d : Die) (m : Mesh) (frames : list (R * SpinSamples)) : nat :=
  match frames with
  | [] => 0
  | (delta, u) :: rest =>
      ((if floorContact d m delta then 1 else 0)
       + floorContacts d (tumble d m delta u) rest)%nat
  end.

(** *** One implementation of the interface

    [Quaternion.slerp] and [Euler.setFromQuaternion] (order 'XYZ') as in
    the releases of three.js that compare with [Number.EPSILON]. *)

(** [Math.atan2(y, x)], signed zeros aside. *)
Definition atan2 (y x : R) : R :=
  if Rlt_dec 0 x then atan (y / x)
  else if Rlt_dec x 0
       then (if Rle_dec 0 y then atan (y / x) + PI else atan (y / x) - PI)
       else if Rlt_dec 0 y then PI / 2
            else if Rlt_dec y 0 then - PI / 2 else 0.

Definition clamp (value lo hi : R) : R := Rmax lo (Rmin hi value).

Definition Number_EPSILON : R := / 4503599627370496.

Definition slerp_classic (qa qb : Quaternion) (t : R) : Quaternion :=
  if Req_dec_T t 0 then qa
  else if Req_dec_T t 1 then qb
  else
    let x := qx qa in
    let y := qy qa in
    let z := qz qa in
    let w := qw qa in
    let c := w * qw qb + x * qx qb + y * qy qb + z * qz qb in
    let b := if Rlt_dec c 0
             then quat (- qx qb) (- qy qb) (- qz qb) (- qw qb)
             else qb in
    let cosHalfTheta := if Rlt_dec c 0 then - c else c in
    if Rle_dec 1 cosHalfTheta then qa
    else
      let sqrSinHalfTheta := 1 - cosHalfTheta * cosHalfTheta in
      if Rle_dec sqrSinHalfTheta Number_EPSILON then
        let s := 1 - t in
        qnormalize (quat (s * x + t * qx b) (s * y + t * qy b)
                         (s * z + t * qz b) (s * w + t * qw b))
      else
        let sinHalfTheta := sqrt sqrSinHalfTheta in
        let halfTheta := atan2 sinHalfTheta cosHalfTheta in
        let ratioA := sin ((1 - t) * halfTheta) / sinHalfTheta in
        let ratioB := sin (t * halfTheta) / sinHalfTheta in
        quat (x * ratioA + qx b * ratioB) (y * ratioA + qy b * ratioB)
             (z * ratioA + qz b * ratioB) (w * ratioA + qw b * ratioB).

Definition setFromQuaternion_classic (q : Quaternion) : Euler :=
  let x := qx q in
  let y := qy q in
  let z := qz q in
  let w := qw q in
  let x2 := x + x in
  let y2 := y + y in
  let z2 := z + z in
  let xx := x * x2 in
  let xy := x * y2 in
  let xz := x * z2 in
  let yy := y * y2 in
  let yz := y * z2 in
  let zz := z * z2 in
  let wx := w * x2 in
  let wy := w * y2 in
  let wz := w * z2 in
  let m11 := 1 - (yy + zz) in
  let m12 := xy - wz in
  let m13 := xz + wy in
  let m22 := 1 - (xx + zz) in
  let m23 := yz - wx in
  let m32 := yz + wx in
  let m33 := 1 - (xx + yy) in
  let e_y := asin (clamp m13 (-1) 1) in
  if Rlt_dec (Rabs m13) 0.9999999
  then euler (atan2 (- m23) m33) e_y (atan2 (- m12) m11)
  else euler (atan2 m32 m22) e_y 0.

Definition three_classic : Three :=
  {| EPSILON := Number_EPSILON;
     EPSILON_pos := ltac:(unfold Number_EPSILON; lra);
     EPSILON_small := ltac:(unfold Number_EPSILON; lra);
     slerp := slerp_classic;
     setFromQuaternion := setFromQuaternion_classic |}.

(** ** Vocabulary of the statements *)

(** The face number [rollDice] derives from the sample [u]. *)
Definition faceNumberOf (d : Die) (u : R) : Z :=
  (Zfloor (u * IZR (faceCount d)) + 1)%Z.

(** No roll in flight: the flag is down and no timer is pending. *)
Definition idle (w : World) : Prop :=
  rolling (state w) = false /\ timers w = [].

(** A roll in flight: the flag is up and its timer [t] is the only one. *)
Definition inFlight (w : World) (t : Timer) : Prop :=
  rolling (state w) = true /\ timers w = [t].

(** A list of events without a call of [roll()]. *)
Definition noClick (es : list Event) : Prop := existsb isClick es = false.

(** The calls of [onRollComplete] a completed roll adds to the log. *)
Definition reportOf (d : Die) (w : World) (tau : R) (n : Z) : list (R * Z) :=
  if timeoutNotifies d && onRollComplete w then [(tau, n)] else [].

(** Sample inputs for closed instances of the statements. *)
Definition sampleRoll : RollSamples :=
  {| uFace := 0.5; uX := 0.5; uY := 0.5; uZ := 0.5 |}.

Definition sampleRoll' : RollSamples :=
  {| uFace := 0.5; uX := 0.25; uY := 0.75; uZ := 0 |}.

Definition sampleSpin : SpinSamples :=
  {| uSpinX := 0.5; uSpinY := 0.5; uSpinZ := 0.5 |}.

(** A settled world: the D6 after one roll and its 1000 ms. *)
Definition settledD6 : World :=
  elapse D6 (rollDice three_classic D6 (mount three_classic D6 true) sampleRoll)
    1000.

(** Triangle [k] of an index list: its three vertex indices. *)
Definition triangle (indices : list nat) (k : nat) : list nat :=
  firstn 3 (skipn (3 * k) indices).

(** In [D10_js.verts] the indices 0 and 1 are the apexes, 2..11 the
    equatorial vertices. *)
Definition isEquatorial (v : nat) : bool := (2 <=? v)%nat.

Definition sharedVertices (t1 t2 : list nat) : list nat :=
  filter (fun v => existsb (Nat.eqb v) t2) t1.

(** Two triangles share an equatorial edge when they have two equatorial
    vertices in common. *)
Definition shareEquatorialEdge (t1 t2 : list nat) : bool :=
  (2 <=? List.length (filter isEquatorial (sharedVertices t1 t2)))%nat.

(** The apex a D10 face index belongs to in [D10_js.faces]. *)
Definition apexOf (f : nat) : nat := if (f <? 5)%nat then 0%nat else 1%nat.

(** The mean of a list of points. *)
Definition meanOf (vs : list Vector3) : Vector3 :=
  divideScalar (fold_left add vs origin) (INR (List.length vs)).

(** The buffer entries of physical face [f] when every face takes
    [perFace] consecutive triangles. *)
Definition faceVertices (pos : list Vector3) (perFace f : nat) : list Vector3 :=
  firstn (3 * perFace) (skipn (3 * perFace * f) pos).

(** The corners of a face, each once. *)
Definition D12_face0_corners : list Vector3 :=
  map (fun i => nth i D12_js.createD12Geometry origin) [0; 1; 2; 4; 7]%nat.

(** The common length of the raw icosahedron vertices. *)
Definition icoL : R := sqrt (1 + phi * phi).

(** The D10 geometry in closed form: the angle of equatorial vertex [i],
    the common length of the raw equatorial vertices, and the equatorial
    vertex once [applyRadius] has projected it onto the unit sphere. *)
Definition equatorAngle (i : nat) : R := INR i * PI * 2 / 10.
Definition D10_s : R := sqrt (1 + 0.105 * 0.105).
Definition equatorVertex (i : nat) : Vector3 :=
  vec3 (- cos (equatorAngle i) / D10_s) (- sin (equatorAngle i) / D10_s)
       (0.105 * (if Nat.odd i then 1 else -1) / D10_s).

(** The equatorial vertices of the triangle [D10_js.faceOf] reads for
    face [f], in buffer order, and the z of its apex. *)
Definition firstEquator (f : nat) : nat :=
  if (f <? 5)%nat then (2 * f)%nat else (2 * (f - 5) + 1)%nat.
Definition secondEquator (f : nat) : nat :=
  if (f <? 5)%nat then (2 * f + 1)%nat else (2 * (f - 5))%nat.
Definition apexSign (f : nat) : R := if (f <? 5)%nat then 1 else -1.

(** The nearest candidate as the specification words it: minimum
    Euclidean distance, ties broken by the first-encountered vertex. *)
Fixpoint firstNearest (target : Vector3) (candidates : list Vector3) : Vector3 :=
  match candidates with
  | [] => origin
  | c :: rest =>
      match rest with
      | [] => c
      | _ :: _ =>
          if Rle_dec (distanceTo target c)
                     (distanceTo target (firstNearest target rest))
          then c else firstNearest target rest
      end
  end.

(** The component of [v] in the plane orthogonal to [planeNormal]. *)
Definition projectOnPlane (v planeNormal : Vector3) : Vector3 :=
  subVectors v (multiplyScalar planeNormal (dot v planeNormal)).

(** The three buffer entries of the first triangle of face [f]. *)
Definition firstTriangle (pos : list Vector3) (perFace f : nat) : list Vector3 :=
  [nth (3 * perFace * f) pos origin;
   nth (3 * perFace * f + 1) pos origin;
   nth (3 * perFace * f + 2) pos origin].

(** A roll of the D12 whose face sample selects index 9 (number 10). *)
Definition sampleRollD12 : RollSamples :=
  {| uFace := 0.8; uX := 0.5; uY := 0.5; uZ := 0.5 |}.

(** ** The rest of the six files *)

(** *** D12.js: [makeFaceLabel] and [numberMeshes]

    The group [makeFaceLabel] returns holds one plane; the model keeps
    the basis handed to [makeBasis], the position of the plane, and the
    number and side length of its texture. *)
Module D12_labels.

Record Label := {
  right : Vector3;
  up : Vector3;
  n : Vector3;
  position : Vector3;
  number : Z;
  scale : R
}.

Definition makeFaceLabel (center normal : Vector3) (number : Z)
    (offsetX offsetY scale : R) : Label :=
  let n := normalize normal in
  let worldUp := vec3 0 1 0 in
  let right := crossVectors worldUp n in
  let right := if Rlt_dec (lengthSq right) 0.0001
               then crossVectors (vec3 0 0 1) n
               else right in
  let right := normalize right in
  let up := normalize (crossVectors n right) in
  let base := add center (multiplyScalar n 0.001) in
  let offset := add (multiplyScalar right offsetX) (multiplyScalar up offsetY) in
  {| right := right; up := up; n := n;
     position := add base offset;
     number := number; scale := scale |}.

(** The default values of [offsetX], [offsetY] and [scale]. *)
Definition defaultOffsetX : R := 0.175.
Definition defaultOffsetY : R := 0.2.
Definition defaultScale : R := 0.55.

Definition numberMeshes (pos : list Vector3) : list Label :=
  map (fun '(i, f) => makeFaceLabel (D12_js.center f) (D12_js.normal f)
                        (Z.of_nat i + 1) defaultOffsetX defaultOffsetY
                        defaultScale)
      (combine (seq 0 12) (D12_js.faceData pos)).

End D12_labels.

(** *** D4.js, D8.js, D20: the geometry of the mesh and its materials

    The [useMemo] that builds the geometry pushes one uv triple per
    triangle and replaces the groups by one group per triangle;
    [materials] is one material per face number. *)

Record Group := { start : nat; count : nat; materialIndex : nat }.

(** [posAttr.count / 3] *)
Definition triCount (position : list Vector3) : nat :=
  (List.length position / 3)%nat.

(** The loop pushing (0.5, 1), (0, 0), (1, 0) for every triangle. *)
Definition uvs (triCount : nat) : list R :=
  flat_map (fun _ : nat => [0.5; 1.0; 0.0; 0.0; 1.0; 0.0]) (seq 0 triCount).

(** [clearGroups()] and the loop of [addGroup(i * 3, 3, i)]. *)
Definition groups (triCount : nat) : list Group :=
  map (fun i : nat => {| start := i * 3; count := 3; materialIndex := i |})
      (seq 0 triCount).

(** [[1, ..., N].map(n => material with the texture of n)]: the number of
    every material, in array order. *)
Definition materials (d : Die) : list Z :=
  map (fun i : nat => (Z.of_nat i + 1)%Z) (seq 0 (Z.to_nat (faceCount d))).

(** The renderer draws buffer entry [k] with the material of the group
    that contains it. *)
Definition groupOf (gs : list Group) (k : nat) : option Group :=
  find (fun g => (start g <=? k)%nat && (k <? start g + count g)%nat) gs.

Definition numberDrawnAt (d : Die) (gs : list Group) (k : nat) : option Z :=
  match groupOf gs k with
  | Some g => nth_error (materials d) (materialIndex g)
  | None => None
  end.

(** *** Sequences of frames *)

(** The tumbling frames of one roll, in order. *)
Definition tumbleFrames (d : Die) (m : Mesh) (frames : list (R * SpinSamples)) : Mesh :=
  fold_left (fun m f => tumble d m (fst f) (snd f)) frames m.

(** [n] settling frames of the same [delta]. *)
Fixpoint settleFrames (T : Three) (d : Die) (m : Mesh) (target : Quaternion)
    (delta : R) (n : nat) : Mesh :=
  match n with
  | O => m
  | S n' => settleFrames T d (settle T d m target delta) target delta n'
  end.

(** The time a list of frames covers. *)
Definition totalDelta (frames : list (R * SpinSamples)) : R :=
  fold_right (fun f acc => fst f + acc) 0 frames.

(** The squared norm of a quaternion. *)
Definition qlengthSq (q : Quaternion) : R :=
  qx q * qx q + qy q * qy q + qz q * qz q + qw q * qw q.

(** Every [Math.random()] a click consumes lies in [0, 1). *)
Definition inUnit (u : R) : Prop := 0 <= u < 1.

Definition rollSamplesOk (u : RollSamples) : Prop :=
  inUnit (uFace u) /\ inUnit (uX u) /\ inUnit (uY u) /\ inUnit (uZ u).

Fixpoint samplesOk (es : list Event) : Prop :=
  match es with
  | [] => True
  | Click u :: es' => rollSamplesOk u /\ samplesOk es'
  | _ :: es' => samplesOk es'
  end.

(** A face number of the die. *)
Definition isFace (d : Die) (k : Z) : Prop := (1 <= k <= faceCount d)%Z.

(** *** Vocabulary of Part III *)

(** What holds of the controller in every state a mounted die can reach:
    the shown result is a face number; the stored initial quaternion is
    the one computed at mount; either no roll is in flight and the settle
    target, if any, is the one computed for the shown result, or exactly
    one timer is pending, carrying the shown result and its target; every
    number handed to [onRollComplete] is a face number. *)
Definition consistent (T : Three) (d : Die) (w : World) : Prop :=
  isFace d (result (state w))
  /\ initialQuatState (state w) = initialQuat T d
  /\ ((idle w
       /\ (targetQuat (state w) = None
           \/ targetQuat (state w)
              = Some (targetQuaternion T d (result (state w) - 1))))
      \/ exists t, inFlight w t
           /\ timerFaceNumber t = result (state w)
           /\ timerTarget t = targetQuaternion T d (result (state w) - 1))
  /\ Forall (fun r => isFace d (snd r)) (reported w).

(** A point of face [faceIndex] of the rendered mesh: the first buffer
    entry of the triangle(s) of the face; for the unit box of D6.js, the
    center of the side. *)
Definition faceCorner (d : Die) (faceIndex : nat) : Vector3 :=
  match d with
  | D4 => nth (faceIndex * 3) D4_js.geometry origin
  | D6 => multiplyScalar (boxGroupNormal faceIndex) 0.5
  | D8 => nth (faceIndex * 3) D8_js.geometry origin
  | D10 => nth (faceIndex * 2 * 3) D10_js.createD10Geometry origin
  | D12 => nth (faceIndex * 3 * 3) D12_js.createD12Geometry origin
  | D20 => nth (faceIndex * 3) D20_js.geometry origin
  end.

(** The last call of [onRollComplete] so far reported [n]. *)
Definition lastReported (w : World) (n : Z) : Prop :=
  exists tau rest, reported w = rest ++ [(tau, n)].


(* ================================================================== *)
(** * Part II. Lemmas and theorems *)
(* ================================================================== *)

Lemma lengthSq_nonneg (v : Vector3) : 0 <= lengthSq v.
Proof. unfold lengthSq, dot. nra. Qed.

Lemma length_sq (v : Vector3) : length v * length v = lengthSq v.
Proof. apply sqrt_sqrt, lengthSq_nonneg. Qed.

(** For a unit vector [n] that is not (nearly) opposite to [forward], the
    rotation built by [setFromUnitVectors] sends [n] exactly to
    [forward]. *)
Lemma setFromUnitVectors_forward (eps : R) (n : Vector3) :
  lengthSq n = 1 -> eps <= vz n + 1 -> 0 < eps ->
  applyQuaternion n (setFromUnitVectors eps n forward) = forward.
Proof.
  intros Hn Hr Heps.
  unfold setFromUnitVectors.
  assert (Hd : dot n forward + 1 = vz n + 1) by (unfold dot, forward; simpl; ring).
  rewrite Hd.
  destruct (Rlt_dec (vz n + 1) eps) as [Hlt | _]; [lra |].
  unfold forward; simpl.
  set (r := vz n + 1) in *.
  assert (Hr0 : 0 < r) by lra.
  unfold lengthSq, dot in Hn.
  assert (Hsq : (vy n * 1 - vz n * 0) * (vy n * 1 - vz n * 0)
              + (vz n * 0 - vx n * 1) * (vz n * 0 - vx n * 1)
              + (vx n * 0 - vy n * 0) * (vx n * 0 - vy n * 0) + r * r = 2 * r).
  { unfold r. nra. }
  unfold qnormalize, qlength. simpl.
  rewrite Hsq.
  assert (Hs : 0 < sqrt (2 * r)) by (apply sqrt_lt_R0; lra).
  assert (Hss : sqrt (2 * r) * sqrt (2 * r) = 2 * r) by (apply sqrt_sqrt; lra).
  destruct (Req_dec_T (sqrt (2 * r)) 0) as [E | _]; [lra |].
  unfold applyQuaternion; simpl.
  set (s := sqrt (2 * r)) in *.
  assert (Hi : / s * / s = / (2 * r)).
  { rewrite <- Rinv_mult. rewrite Hss. reflexivity. }
  set (l := 1 / s).
  assert (Hl : l * l * (2 * r) = 1).
  { unfold l. field_simplify; [| lra]. rewrite <- Hss. field. lra. }
  assert (Hrz : vz n = r - 1) by (unfold r; ring).
  clearbody l r. clear Hsq Hi Hss Hs s Hd.
  f_equal; nsatz.
Qed.

(** ** Comparisons *)

Lemma Rltb_true (x y : R) : Rltb x y = true <-> x < y.
Proof. unfold Rltb. destruct (Rlt_dec x y); split; intros; try easy. Qed.

Lemma Rltb_false (x y : R) : Rltb x y = false <-> y <= x.
Proof.
  unfold Rltb. destruct (Rlt_dec x y); split; intros; try easy; lra.
Qed.

Lemma Rleb_true (x y : R) : Rleb x y = true <-> x <= y.
Proof. unfold Rleb. destruct (Rle_dec x y); split; intros; try easy. Qed.

Lemma Rleb_false (x y : R) : Rleb x y = false <-> y < x.
Proof.
  unfold Rleb. destruct (Rle_dec x y); split; intros; try easy; lra.
Qed.

(** ** The controller: rolls, timers and reports *)

Lemma faceCount_pos (d : Die) : (0 < faceCount d)%Z.
Proof. destruct d; simpl; lia. Qed.

Lemma faceNumberOf_range (d : Die) (u : R) :
  0 <= u < 1 -> (1 <= faceNumberOf d u <= faceCount d)%Z.
Proof.
  intros [H0 H1]. unfold faceNumberOf.
  pose proof (faceCount_pos d) as HN.
  assert (HNr : 0 < IZR (faceCount d)) by (apply IZR_lt; exact HN).
  assert (Hlo : (0 <= Zfloor (u * IZR (faceCount d)))%Z).
  { apply Zfloor_lub. simpl. nra. }
  assert (Hhi : (Zfloor (u * IZR (faceCount d)) < faceCount d)%Z).
  { apply lt_IZR. pose proof (Zfloor_bound (u * IZR (faceCount d))) as [Hb _].
    nra. }
  lia.
Qed.

(** What a roll that starts does to the controller. *)
Lemma rollDice_starts (T : Three) (d : Die) (w : World) (u : RollSamples) :
  idle w ->
  let w1 := rollDice T d w u in
  inFlight w1 {| due := now w + ROLL_DURATION_MS d;
                 timerFaceNumber := faceNumberOf d (uFace u);
                 timerTarget := targetQuaternion T d (Zfloor (uFace u * IZR (faceCount d))) |}
  /\ result (state w1) = faceNumberOf d (uFace u)
  /\ reported w1 = reported w
  /\ now w1 = now w
  /\ onRollComplete w1 = onRollComplete w.
Proof.
  intros [Hr Ht]. unfold rollDice. rewrite Hr. cbn.
  unfold inFlight. cbn. rewrite Ht. repeat split; reflexivity.
Qed.

Lemma useFrame_controller (T : Three) (d : Die) (w : World) (delta : R)
    (u : SpinSamples) :
  let w' := useFrame T d w delta u in
  state w' = state w /\ timers w' = timers w /\ reported w' = reported w
  /\ now w' = now w /\ onRollComplete w' = onRollComplete w.
Proof. cbn. repeat split; reflexivity. Qed.

Lemma elapse_idle (d : Die) (w : World) (dt : R) :
  idle w ->
  let w' := elapse d w dt in
  idle w' /\ state w' = state w /\ reported w' = reported w
  /\ mesh w' = mesh w /\ onRollComplete w' = onRollComplete w.
Proof.
  intros [Hr Ht]. unfold elapse, idle. rewrite Ht. cbn.
  repeat split; try reflexivity. exact Hr.
Qed.

Lemma elapse_before_due (d : Die) (w : World) (t : Timer) (dt : R) :
  inFlight w t -> now w + dt < due t ->
  let w' := elapse d w dt in
  inFlight w' t /\ state w' = state w /\ reported w' = reported w
  /\ mesh w' = mesh w /\ now w' = now w + dt
  /\ onRollComplete w' = onRollComplete w.
Proof.
  intros [Hr Ht] Hlt. unfold elapse, inFlight. rewrite Ht. cbn.
  apply Rleb_false in Hlt. rewrite Hlt. cbn.
  repeat split; try reflexivity. exact Hr.
Qed.

Lemma elapse_due (d : Die) (w : World) (t : Timer) (dt : R) :
  inFlight w t -> due t <= now w + dt ->
  let w' := elapse d w dt in
  idle w'
  /\ targetQuat (state w') = Some (timerTarget t)
  /\ result (state w') = result (state w)
  /\ reported w' = reported w ++ reportOf d w (now w + dt) (timerFaceNumber t)
  /\ mesh w' = mesh w
  /\ onRollComplete w' = onRollComplete w.
Proof.
  intros [Hr Ht] Hle. unfold elapse, idle, reportOf. rewrite Ht. cbn.
  apply Rleb_true in Hle. rewrite Hle. cbn.
  repeat split; try reflexivity.
  destruct (timeoutNotifies d && onRollComplete w); [reflexivity |].
  now rewrite app_nil_r.
Qed.

Lemma noClick_cons (e : Event) (es : list Event) :
  noClick (e :: es) -> isClick e = false /\ noClick es.
Proof.
  unfold noClick. cbn. intro H. apply orb_false_iff in H. exact H.
Qed.

(** Without a call of [roll()] an idle die stays idle and reports nothing. *)
Lemma run_idle (T : Three) (d : Die) (es : list Event) :
  forall w, idle w -> noClick es ->
  let w' := run T d w es in
  idle w' /\ reported w' = reported w
  /\ result (state w') = result (state w)
  /\ targetQuat (state w') = targetQuat (state w).
Proof.
  induction es as [| e es IH]; intros w Hi Hn.
  - cbn. repeat split; try reflexivity; apply Hi.
  - apply noClick_cons in Hn as [He Hn].
    destruct e as [u | delta u | dt]; [discriminate | |]; cbn.
    + destruct (useFrame_controller T d w delta u) as (Es & Et & Er & _).
      assert (Hi' : idle (useFrame T d w delta u)).
      { destruct Hi as [Hr Ht]. split; [rewrite Es | rewrite Et]; assumption. }
      destruct (IH _ Hi' Hn) as (A & B & C & D).
      unfold run in *. cbn in *.
      repeat split; try apply A; congruence.
    + destruct (elapse_idle d w dt Hi) as (Hi' & Es & Er & _).
      destruct (IH _ Hi' Hn) as (A & B & C & D).
      unfold run in *. rewrite Es in *.
      repeat split; try apply A; congruence.
Qed.

(** A roll in flight, watched over any frames and any passing of time:
    until the due time nothing is reported; once it has passed, the timer
    has fired exactly once. *)
Lemma run_inFlight (T : Three) (d : Die) (es : list Event) :
  forall w t, inFlight w t -> now w < due t -> noClick es -> forwardInTime es ->
  let w' := run T d w es in
  (now w + elapsed es < due t ->
     inFlight w' t /\ reported w' = reported w
     /\ result (state w') = result (state w))
  /\ (due t <= now w + elapsed es ->
     idle w' /\ targetQuat (state w') = Some (timerTarget t)
     /\ result (state w') = result (state w)
     /\ exists tau, due t <= tau
          /\ reported w' = reported w ++ reportOf d w tau (timerFaceNumber t)).
Proof.
  induction es as [| e es IH]; intros w t Hf Hnow Hn Hfw.
  - cbn. split; intro H; [| lra]. repeat split; try reflexivity; apply Hf.
  - apply noClick_cons in Hn as [He Hn].
    destruct e as [u | delta u | dt]; [discriminate | |].
    + destruct (useFrame_controller T d w delta u) as (Es & Et & Er & En & Ec).
      assert (Hf' : inFlight (useFrame T d w delta u) t).
      { destruct Hf as [Hr Ht]. split; [rewrite Es | rewrite Et]; assumption. }
      specialize (IH (useFrame T d w delta u) t Hf').
      rewrite En in IH. specialize (IH Hnow Hn Hfw).
      change (run T d w (Frame delta u :: es))
        with (run T d (useFrame T d w delta u) es).
      change (elapsed (Frame delta u :: es)) with (elapsed es).
      cbv zeta in IH. rewrite Es, Er in IH.
      unfold reportOf in *. rewrite Ec in IH. exact IH.
    + destruct Hfw as [Hdt Hfw].
      change (run T d w (Elapse dt :: es)) with (run T d (elapse d w dt) es).
      change (elapsed (Elapse dt :: es)) with (dt + elapsed es).
      destruct (Rlt_dec (now w + dt) (due t)) as [Hlt | Hge].
      * destruct (elapse_before_due d w t dt Hf Hlt)
          as (Hf' & Es & Er & _ & En & Ec).
        specialize (IH (elapse d w dt) t Hf').
        rewrite En in IH. specialize (IH Hlt Hn Hfw).
        cbv zeta in IH. rewrite Es, Er in IH.
        unfold reportOf in *. rewrite Ec in IH.
        replace (now w + (dt + elapsed es)) with (now w + dt + elapsed es) by ring.
        exact IH.
      * assert (Hle : due t <= now w + dt) by lra.
        destruct (elapse_due d w t dt Hf Hle) as (Hi & Etq & Eres & Erep & _ & Ec).
        destruct (run_idle T d es _ Hi Hn) as (A & B & C & D).
        assert (Hel : 0 <= elapsed es).
        { clear - Hfw. induction es as [| [u | dl u | x] es IHes]; cbn in *;
            try lra; try (apply IHes; exact Hfw).
          destruct Hfw as [Hx Hfw]. specialize (IHes Hfw). lra. }
        split; intro H; [lra |].
        cbv zeta. repeat split; try apply A; try congruence.
        exists (now w + dt). split; [exact Hle |]. congruence.
Qed.

Lemma timeoutCallback_silent (d : Die) (ts : list Timer) :
  timeoutNotifies d = false ->
  forall w, reported (fold_left (timeoutCallback d) ts w) = reported w.
Proof.
  intro Hd. induction ts as [| t ts IH]; intro w; cbn; [reflexivity |].
  rewrite IH. cbn. rewrite Hd. reflexivity.
Qed.

Lemma step_silent (T : Three) (d : Die) (w : World) (e : Event) :
  timeoutNotifies d = false -> reported (step T d w e) = reported w.
Proof.
  intro Hd. destruct e as [u | delta u | dt]; cbn.
  - unfold rollDice. destruct (rolling (state w)); reflexivity.
  - reflexivity.
  - unfold elapse. rewrite timeoutCallback_silent by exact Hd. reflexivity.
Qed.

(** For the five dice whose timeout callback notifies: a roll that starts
    reports exactly once, not before the tumble duration has elapsed, a
    face number between 1 and N. *)
Lemma roll_reports_once (T : Three) (d : Die) (w : World) (u : RollSamples)
    (es : list Event) :
  timeoutNotifies d = true -> onRollComplete w = true ->
  idle w -> 0 <= uFace u < 1 -> noClick es -> forwardInTime es ->
  let w' := run T d (rollDice T d w u) es in
  (elapsed es < ROLL_DURATION_MS d -> reported w' = reported w)
  /\ (ROLL_DURATION_MS d <= elapsed es ->
      exists tau n, now w + ROLL_DURATION_MS d <= tau
        /\ (1 <= n <= faceCount d)%Z
        /\ reported w' = reported w ++ [(tau, n)]).
Proof.
  intros Hd Hcb Hi Hu Hn Hfw.
  destruct (rollDice_starts T d w u Hi) as (Hf & Hres & Hrep & Hnow & Hc).
  set (t := {| due := now w + ROLL_DURATION_MS d;
               timerFaceNumber := faceNumberOf d (uFace u);
               timerTarget := targetQuaternion T d
                                (Zfloor (uFace u * IZR (faceCount d))) |}) in *.
  assert (HD : 0 < ROLL_DURATION_MS d).
  { destruct d; cbn; unfold D4_js.ROLL_DURATION_MS, D6_js.ROLL_DURATION_MS,
      D8_js.ROLL_DURATION_MS, D10_js.ROLL_DURATION_MS, D12_js.ROLL_DURATION_MS,
      D20_js.ROLL_DURATION_MS; lra. }
  assert (Hlt : now (rollDice T d w u) < due t) by (rewrite Hnow; cbn; lra).
  destruct (run_inFlight T d es _ t Hf Hlt Hn Hfw) as [Hbefore Hafter].
  cbv zeta. rewrite Hnow in Hbefore, Hafter. cbn [due t] in Hbefore, Hafter.
  split; intro H.
  - destruct Hbefore as (_ & Hr & _); [lra |]. congruence.
  - destruct Hafter as (_ & _ & _ & tau & Htau & Hr); [lra |].
    exists tau, (faceNumberOf d (uFace u)).
    split; [exact Htau |]. split; [apply faceNumberOf_range; exact Hu |].
    rewrite Hr, Hrep. unfold reportOf. rewrite Hc, Hd, Hcb. reflexivity.
Qed.

Lemma mount_idle (T : Three) (d : Die) (callback : bool) :
  idle (mount T d callback).
Proof. split; reflexivity. Qed.

(** C1: every started roll should invoke [onRollComplete] exactly once.
    D10.js never does: whatever happens to a mounted D10 (clicks, frames,
    time), with the callback supplied or not, the log of calls stays
    empty.  In particular the roll that draws the face sample 0.5
    completes after its 1800 ms -- the flag is down, the result is 6, the
    target is set -- and nothing has been reported.  [roll_reports_once]
    is the behaviour of the other five dice. *)
Theorem D10_never_calls_onRollComplete (T : Three) (callback : bool)
    (es : list Event) :
  reported (run T D10 (mount T D10 callback) es) = []
  /\ let w := run T D10 (mount T D10 true) [Click sampleRoll; Elapse 1800] in
     rolling (state w) = false
     /\ result (state w) = 6%Z
     /\ targetQuat (state w) = Some (targetQuaternion T D10 5)
     /\ reported w = [].
Proof.
  assert (H : forall es' w, reported w = [] -> reported (run T D10 w es') = []).
  { induction es' as [| e es' IH]; intros w Hw; [exact Hw |].
    change (run T D10 w (e :: es')) with (run T D10 (step T D10 w e) es').
    apply IH. rewrite step_silent by reflexivity. exact Hw. }
  split; [apply H; reflexivity |].
  cbv zeta. split; [| split; [| split]]; [| | | apply H; reflexivity].
  all: change (run T D10 (mount T D10 true) [Click sampleRoll; Elapse 1800])
         with (elapse D10 (rollDice T D10 (mount T D10 true) sampleRoll) 1800).
  all: assert (E5 : Zfloor (uFace sampleRoll * IZR (faceCount D10)) = 5%Z)
         by (apply Zfloor_eq; cbn; lra).
  all: destruct (rollDice_starts T D10 _ sampleRoll (mount_idle T D10 true))
         as (Hf & Hres & _ & Hnow & _).
  all: unfold faceNumberOf in Hf, Hres; rewrite E5 in Hf, Hres.
  all: match type of Hf with inFlight _ ?t =>
         destruct (elapse_due D10 _ t 1800 Hf) as (Hi & Ht & Hr & _)
       end; [rewrite Hnow; cbn; unfold D10_js.ROLL_DURATION_MS; lra |].
  - apply Hi.
  - rewrite Hr. exact Hres.
  - exact Ht.
Qed.

(** C3: [roll()] while a roll is in progress changes nothing: the state
    cells (result, target, direction), the mesh, the pending timer and the
    log are those of before. *)
Theorem rollDice_while_rolling (T : Three) (d : Die) (w : World)
    (u : RollSamples) :
  rolling (state w) = true -> rollDice T d w u = w.
Proof. intro H. unfold rollDice. rewrite H. reflexivity. Qed.

(** C9: in the settling branch the blend factor handed to [slerp] is
    [Math.min(1, delta * 6)], at most 1, for every die but D12; D12 hands
    over [delta * 6], which exceeds 1 as soon as [delta] exceeds 1/6. *)
Theorem settle_blend_factor (T : Three) (d : Die) (w : World)
    (target : Quaternion) (delta : R) (u : SpinSamples) :
  rolling (state w) = false -> targetQuat (state w) = Some target ->
  quaternion (mesh (useFrame T d w delta u))
    = slerp T (quaternion (mesh w)) target (slerpT d delta)
  /\ (d <> D12 ->
        slerpT d delta = Rmin 1 (delta * 6) /\ slerpT d delta <= 1
        /\ (0 <= delta -> 0 <= slerpT d delta))
  /\ (d = D12 ->
        slerpT d delta = delta * 6 /\ (/ 6 < delta -> 1 < slerpT d delta)).
Proof.
  intros Hr Ht. split; [| split].
  - unfold useFrame. rewrite Hr, Ht. reflexivity.
  - intro Hd.
    assert (E : slerpT d delta = Rmin 1 (delta * 6))
      by (destruct d; try reflexivity; contradiction).
    rewrite E. split; [reflexivity |]. split; [apply Rmin_l |].
    intro H0. apply Rmin_glb; lra.
  - intros ->. cbn. split; [reflexivity | intro H; lra].
Qed.

Lemma rollDice_while_rolling_witness :
  rolling (state (rollDice three_classic D6 (mount three_classic D6 true)
                    sampleRoll)) = true
  /\ rollDice three_classic D6
       (rollDice three_classic D6 (mount three_classic D6 true) sampleRoll)
       sampleRoll'
     = rollDice three_classic D6 (mount three_classic D6 true) sampleRoll.
Proof.
  split; [reflexivity |].
  apply (rollDice_while_rolling three_classic D6
           (rollDice three_classic D6 (mount three_classic D6 true) sampleRoll)
           sampleRoll').
  reflexivity.
Defined.

Lemma settledD6_state :
  rolling (state settledD6) = false
  /\ targetQuat (state settledD6) = Some (D6_js.getFaceQuaternion 4).
Proof.
  unfold settledD6.
  destruct (rollDice_starts three_classic D6 _ sampleRoll
              (mount_idle three_classic D6 true)) as (Hf & _).
  match type of Hf with inFlight _ ?t =>
    destruct (elapse_due D6 _ t 1000 Hf) as (Hi & Ht & _)
  end.
  { cbn. unfold D6_js.ROLL_DURATION_MS. lra. }
  split; [apply Hi |]. rewrite Ht. cbn.
  replace (Zfloor (0.5 * 6)) with 3%Z; [reflexivity |].
  symmetry. apply Zfloor_eq. lra.
Qed.

Lemma settle_blend_factor_witness :
  rolling (state settledD6) = false
  /\ targetQuat (state settledD6) = Some (D6_js.getFaceQuaternion 4)
  /\ quaternion (mesh (useFrame three_classic D6 settledD6 0.016 sampleSpin))
     = slerp three_classic (quaternion (mesh settledD6))
         (D6_js.getFaceQuaternion 4) (slerpT D6 0.016).
Proof.
  destruct settledD6_state as [Hr Ht].
  split; [exact Hr |]. split; [exact Ht |].
  apply (settle_blend_factor three_classic D6 settledD6
           (D6_js.getFaceQuaternion 4) 0.016 sampleSpin Hr Ht).
Defined.

(** C10: the reported face number is a function of the face sample of
    [rollDice] alone.  Two rolls of the same die that draw the same face
    sample -- from any two idle states, with any direction samples, any
    frames, spins and frame deltas, and any passing of time that covers
    the tumble duration -- hold the same [result] from the moment of the
    call, when nothing has been reported yet, and report (where the die
    reports at all) that same number, no earlier than one tumble duration
    after the call. *)
Theorem result_determined_by_face_sample (T : Three) (d : Die)
    (w1 w2 : World) (u1 u2 : RollSamples) (es1 es2 : list Event) :
  idle w1 -> idle w2 -> uFace u1 = uFace u2 ->
  noClick es1 -> noClick es2 -> forwardInTime es1 -> forwardInTime es2 ->
  ROLL_DURATION_MS d <= elapsed es1 -> ROLL_DURATION_MS d <= elapsed es2 ->
  let n := faceNumberOf d (uFace u1) in
  let r1 := rollDice T d w1 u1 in
  let r2 := rollDice T d w2 u2 in
  (result (state r1) = n /\ result (state r2) = n
   /\ reported r1 = reported w1 /\ reported r2 = reported w2)
  /\ result (state (run T d r1 es1)) = n
  /\ result (state (run T d r2 es2)) = n
  /\ exists tau1 tau2,
       now w1 + ROLL_DURATION_MS d <= tau1
       /\ now w2 + ROLL_DURATION_MS d <= tau2
       /\ reported (run T d r1 es1) = reported w1 ++ reportOf d w1 tau1 n
       /\ reported (run T d r2 es2) = reported w2 ++ reportOf d w2 tau2 n.
Proof.
  intros Hi1 Hi2 Hu Hn1 Hn2 Hf1 Hf2 He1 He2. cbv zeta.
  assert (HD : 0 < ROLL_DURATION_MS d).
  { destruct d; cbn; unfold D4_js.ROLL_DURATION_MS, D6_js.ROLL_DURATION_MS,
      D8_js.ROLL_DURATION_MS, D10_js.ROLL_DURATION_MS, D12_js.ROLL_DURATION_MS,
      D20_js.ROLL_DURATION_MS; lra. }
  destruct (rollDice_starts T d w1 u1 Hi1) as (F1 & R1 & P1 & N1 & C1).
  destruct (rollDice_starts T d w2 u2 Hi2) as (F2 & R2 & P2 & N2 & C2).
  rewrite <- Hu in F2, R2.
  match type of F1 with inFlight _ ?t =>
    destruct (run_inFlight T d es1 _ t F1) as [_ A1];
      [rewrite N1; cbn; lra | exact Hn1 | exact Hf1 |];
    destruct A1 as (_ & _ & Q1 & tau1 & Ht1 & S1);
      [rewrite N1; cbn; lra |]
  end.
  match type of F2 with inFlight _ ?t =>
    destruct (run_inFlight T d es2 _ t F2) as [_ A2];
      [rewrite N2; cbn; lra | exact Hn2 | exact Hf2 |];
    destruct A2 as (_ & _ & Q2 & tau2 & Ht2 & S2);
      [rewrite N2; cbn; lra |]
  end.
  cbn [due timerFaceNumber] in *.
  split; [repeat split; assumption |].
  split; [congruence |]. split; [congruence |].
  exists tau1, tau2. repeat split; try assumption.
  - rewrite S1, P1. unfold reportOf. rewrite C1. reflexivity.
  - rewrite S2, P2. unfold reportOf. rewrite C2. reflexivity.
Qed.

Lemma result_determined_by_face_sample_witness :
  let w := mount three_classic D20 true in
  let es1 := [Frame 0.016 sampleSpin; Elapse 1800] in
  let es2 := [Elapse 900; Frame 0.033 sampleSpin; Elapse 900] in
  result (state (run three_classic D20
                   (rollDice three_classic D20 w sampleRoll) es1)) = 11%Z
  /\ result (state (run three_classic D20
                      (rollDice three_classic D20 w sampleRoll') es2)) = 11%Z.
Proof.
  cbv zeta.
  assert (E : faceNumberOf D20 (uFace sampleRoll) = 11%Z).
  { unfold faceNumberOf. cbn.
    replace (Zfloor (0.5 * 20)) with 10%Z; [reflexivity |].
    symmetry. apply Zfloor_eq. lra. }
  assert (Hd : ROLL_DURATION_MS D20 = 1800) by reflexivity.
  destruct (result_determined_by_face_sample three_classic D20
              (mount three_classic D20 true) (mount three_classic D20 true)
              sampleRoll sampleRoll'
              [Frame 0.016 sampleSpin; Elapse 1800]
              [Elapse 900; Frame 0.033 sampleSpin; Elapse 900])
    as (_ & A & B & _).
  - apply mount_idle.
  - apply mount_idle.
  - reflexivity.
  - reflexivity.
  - reflexivity.
  - cbn. lra.
  - cbn. lra.
  - rewrite Hd. cbn. lra.
  - rewrite Hd. cbn. lra.
  - rewrite E in A, B. split; assumption.
Defined.

(** ** The tumbling frame and the floor *)

Lemma floorContact_iff (d : Die) (m : Mesh) (delta : R) :
  floorContact d m delta = true
  <-> vy (pos m) + (vy (velocity m) + GRAVITY d * delta * 0.6) * delta < -1.4
      /\ hasBounced m = false.
Proof.
  unfold floorContact. rewrite andb_true_iff, Rltb_true, negb_true_iff.
  reflexivity.
Qed.

Lemma tumble_contact (d : Die) (m : Mesh) (delta : R) (u : SpinSamples) :
  floorContact d m delta = true ->
  vy (pos (tumble d m delta u)) = -1.4
  /\ vy (velocity (tumble d m delta u))
     = (vy (velocity m) + GRAVITY d * delta * 0.6) * - BOUNCE_DAMPING d
  /\ hasBounced (tumble d m delta u) = true.
Proof.
  intro H. unfold floorContact in H. unfold tumble. cbn.
  rewrite H. cbn. repeat split; reflexivity.
Qed.

Lemma tumble_no_contact (d : Die) (m : Mesh) (delta : R) (u : SpinSamples) :
  floorContact d m delta = false ->
  vy (pos (tumble d m delta u))
    = vy (pos m) + (vy (velocity m) + GRAVITY d * delta * 0.6) * delta
  /\ vy (velocity (tumble d m delta u))
     = vy (velocity m) + GRAVITY d * delta * 0.6
  /\ hasBounced (tumble d m delta u) = hasBounced m.
Proof.
  intro H. unfold floorContact in H. unfold tumble. cbn.
  rewrite H. cbn. repeat split; reflexivity.
Qed.

Lemma floorContacts_after_bounce (d : Die) (frames : list (R * SpinSamples)) :
  forall m, hasBounced m = true -> floorContacts d m frames = 0%nat.
Proof.
  induction frames as [| [delta u] frames IH]; intros m Hb; [reflexivity |].
  cbn [floorContacts].
  assert (Hc : floorContact d m delta = false).
  { unfold floorContact. rewrite Hb. apply andb_false_r. }
  rewrite Hc. cbn. apply IH.
  destruct (tumble_no_contact d m delta u Hc) as (_ & _ & E). congruence.
Qed.

Lemma floorContacts_le_1 (d : Die) (frames : list (R * SpinSamples)) :
  forall m, (floorContacts d m frames <= 1)%nat.
Proof.
  induction frames as [| [delta u] frames IH]; intro m; cbn [floorContacts];
    [lia |].
  destruct (floorContact d m delta) eqn:Hc.
  - destruct (tumble_contact d m delta u Hc) as (_ & _ & Hb).
    rewrite (floorContacts_after_bounce d frames _ Hb). lia.
  - specialize (IH (tumble d m delta u)). lia.
Qed.

Lemma useFrame_rolling (T : Three) (d : Die) (w : World) (delta : R)
    (u : SpinSamples) :
  rolling (state w) = true ->
  mesh (useFrame T d w delta u) = tumble d (mesh w) delta u.
Proof. intro H. unfold useFrame. rewrite H. reflexivity. Qed.

Lemma rollDice_resets_bounce (T : Three) (d : Die) (w : World)
    (u : RollSamples) :
  rolling (state w) = false ->
  hasBounced (mesh (rollDice T d w u)) = false
  /\ pos (mesh (rollDice T d w u)) = vec3 0 0 0.
Proof. intro H. unfold rollDice. rewrite H. split; reflexivity. Qed.

(** C4, as the code has it: along the tumbling frames of a roll the
    floor-contact event -- position clamped to -1.4, vertical velocity
    multiplied by [- BOUNCE_DAMPING] -- happens at most once.  It happens
    in the first frame that takes the position below the threshold while
    the flag is down, and on the way down it turns a negative vertical
    velocity into a positive one; once the flag is up a frame neither
    clamps nor reverses, wherever the position goes; a tumble in which no
    frame crosses the threshold has no contact at all. *)
Theorem floor_contact_at_most_once (d : Die) (m : Mesh)
    (frames : list (R * SpinSamples)) :
  (floorContacts d m frames <= 1)%nat
  /\ (hasBounced m = true -> floorContacts d m frames = 0%nat)
  /\ (forall T w u, rolling (state w) = false ->
        hasBounced (mesh (rollDice T d w u)) = false)
  /\ (forall T w delta u, rolling (state w) = true ->
        mesh (useFrame T d w delta u) = tumble d (mesh w) delta u)
  /\ forall delta u,
       let vy1 := vy (velocity m) + GRAVITY d * delta * 0.6 in
       let y1 := vy (pos m) + vy1 * delta in
       (floorContact d m delta = true
          <-> y1 < -1.4 /\ hasBounced m = false)
       /\ (floorContact d m delta = true ->
             vy (pos (tumble d m delta u)) = -1.4
             /\ vy (velocity (tumble d m delta u)) = vy1 * - BOUNCE_DAMPING d
             /\ hasBounced (tumble d m delta u) = true)
       /\ (floorContact d m delta = true ->
             0 <= delta -> -1.4 <= vy (pos m) ->
             vy1 < 0 /\ 0 < vy (velocity (tumble d m delta u)))
       /\ (floorContact d m delta = false ->
             vy (pos (tumble d m delta u)) = y1
             /\ vy (velocity (tumble d m delta u)) = vy1
             /\ hasBounced (tumble d m delta u) = hasBounced m).
Proof.
  split; [apply floorContacts_le_1 |].
  split; [apply floorContacts_after_bounce |].
  split; [intros T w u H; apply rollDice_resets_bounce; exact H |].
  split; [intros T w delta u H; apply useFrame_rolling; exact H |].
  intros delta u. cbv zeta.
  split; [apply floorContact_iff |].
  split; [apply tumble_contact |].
  split; [| apply tumble_no_contact].
  intros Hc Hd Hy.
  destruct (tumble_contact d m delta u Hc) as (_ & Ev & _).
  apply floorContact_iff in Hc as [Hlt _].
  assert (Hv : vy (velocity m) + GRAVITY d * delta * 0.6 < 0) by nra.
  split; [exact Hv |]. rewrite Ev.
  assert (HB : 0 < BOUNCE_DAMPING d).
  { destruct d; cbn; unfold D4_js.BOUNCE_DAMPING, D6_js.BOUNCE_DAMPING,
      D8_js.BOUNCE_DAMPING, D10_js.BOUNCE_DAMPING, D12_js.BOUNCE_DAMPING,
      D20_js.BOUNCE_DAMPING; lra. }
  nra.
Qed.

(** The direction [sampleRoll] samples is straight up. *)
Lemma sampleRoll_direction :
  normalize (vec3 ((uX sampleRoll - 0.5) * 2) (uY sampleRoll * 1.5 + 1.2)
                  ((uZ sampleRoll - 0.5) * 2)) = vec3 0 1 0.
Proof.
  cbn [sampleRoll uX uY uZ].
  assert (L : length (vec3 ((0.5 - 0.5) * 2) (0.5 * 1.5 + 1.2) ((0.5 - 0.5) * 2))
              = 1.95).
  { unfold length, lengthSq, dot. cbn.
    replace ((0.5 - 0.5) * 2 * ((0.5 - 0.5) * 2)
             + (0.5 * 1.5 + 1.2) * (0.5 * 1.5 + 1.2)
             + (0.5 - 0.5) * 2 * ((0.5 - 0.5) * 2)) with (1.95 * 1.95) by lra.
    apply sqrt_square. lra. }
  unfold normalize. rewrite L.
  destruct (Req_dec_T 1.95 0) as [E | _]; [lra |].
  unfold divideScalar, multiplyScalar. cbn. f_equal; lra.
Qed.

(** At 60 frames per second a D6 thrown straight up stays above the floor
    for its first 60 frames: after [k] frames the vertical velocity is at
    least [4 - 0.098 k] and the height at least the sum of these. *)
Lemma D6_60fps_no_contact (n : nat) :
  forall (k : nat) (m : Mesh),
    (k + n <= 60)%nat -> hasBounced m = false ->
    4 - 0.098 * INR k <= vy (velocity m) ->
    (4 * INR k - 0.049 * INR k * (INR k + 1)) / 60 <= vy (pos m) ->
    floorContacts D6 m (repeat (/ 60, sampleSpin) n) = 0%nat.
Proof.
  induction n as [| n IH]; intros k m Hk Hb Hv Hy; [reflexivity |].
  cbn [repeat floorContacts].
  assert (Hk1 : INR k + 1 <= 60).
  { rewrite <- S_INR. replace 60 with (INR 60) by (cbn; lra).
    apply le_INR. lia. }
  assert (Hk0 : 0 <= INR k) by apply pos_INR.
  assert (Hc : floorContact D6 m (/ 60) = false).
  { unfold floorContact. rewrite Hb, andb_true_r. apply Rltb_false.
    cbn [GRAVITY]. unfold D6_js.GRAVITY. nra. }
  rewrite Hc. cbn [Nat.add].
  destruct (tumble_no_contact D6 m (/ 60) sampleSpin Hc) as (Ey & Ev & Eb).
  apply (IH (S k)).
  - lia.
  - congruence.
  - rewrite Ev, S_INR. cbn [GRAVITY]. unfold D6_js.GRAVITY. lra.
  - rewrite Ey, S_INR. cbn [GRAVITY]. unfold D6_js.GRAVITY. nra.
Qed.

Lemma D6_full_tumble_contacts :
  floorContacts D6
    (mesh (rollDice three_classic D6 (mount three_classic D6 true) sampleRoll))
    (repeat (/ 60, sampleSpin) 60) = 0%nat.
Proof.
  apply (D6_60fps_no_contact 60 0).
  - lia.
  - reflexivity.
  - cbn [rollDice mount state rolling mesh resetEffect velocity vy
         rollDirection].
    rewrite sampleRoll_direction. cbn. lra.
  - cbn. lra.
Qed.

(** C4 as stated (exactly one bounce in every roll) fails on D6.js: its
    tumble lasts 1000 ms, and a die thrown straight up with the initial
    vertical speed 4 has not come down to -1.4 by then.  Over the 60
    frames of 1/60 s that make up the whole tumble there is no floor
    contact. *)
Lemma D6_roll_has_no_bounce :
  floorContacts D6
    (mesh (rollDice three_classic D6 (mount three_classic D6 true) sampleRoll))
    (repeat (/ 60, sampleSpin) 60) <> 1%nat.
Proof. rewrite D6_full_tumble_contacts. discriminate. Qed.

Lemma floor_contact_at_most_once_witness :
  let m := mesh (rollDice three_classic D4 (mount three_classic D4 true)
                   sampleRoll) in
  let frames := [(1.5, sampleSpin); (1, sampleSpin)] in
  floorContact D4 m 1.5 = true
  /\ vy (pos (tumble D4 m 1.5 sampleSpin)) = -1.4
  /\ 0 < vy (velocity (tumble D4 m 1.5 sampleSpin))
  /\ (floorContacts D4 m frames <= 1)%nat.
Proof.
  cbv zeta.
  set (m := mesh (rollDice three_classic D4 (mount three_classic D4 true)
                    sampleRoll)).
  assert (Hv : vy (velocity m) = 4).
  { unfold m.
    cbn [rollDice mount state rolling mesh resetEffect velocity vy
         rollDirection].
    rewrite sampleRoll_direction. cbn. lra. }
  assert (Hp : vy (pos m) = 0) by reflexivity.
  assert (Hb : hasBounced m = false) by reflexivity.
  destruct (floor_contact_at_most_once D4 m
              [(1.5, sampleSpin); (1, sampleSpin)])
    as (Hle & _ & _ & _ & Hframe).
  destruct (Hframe 1.5 sampleSpin) as (Hiff & Hclamp & Hflip & _).
  assert (Hc : floorContact D4 m 1.5 = true).
  { apply Hiff. split; [| exact Hb]. rewrite Hv, Hp. cbn [GRAVITY].
    unfold D4_js.GRAVITY. lra. }
  split; [exact Hc |].
  split; [apply Hclamp; exact Hc |].
  split; [apply Hflip; [exact Hc | lra | rewrite Hp; lra] | exact Hle].
Defined.

(** ** The D10 index table *)

(** C6 as stated fails: triangles 0 and 1, the pair of face 0, have the
    apex (index 0) and the equatorial vertex 3 in common, so the edge
    they share runs from the apex to the equator; they have no equatorial
    edge in common. *)
Lemma D10_pair_shares_no_equatorial_edge :
  sharedVertices (triangle D10_js.faces 0) (triangle D10_js.faces 1) = [0; 3]%nat
  /\ shareEquatorialEdge (triangle D10_js.faces 0) (triangle D10_js.faces 1)
     = false.
Proof. split; reflexivity. Qed.

Lemma D10_verts_equator (i : nat) :
  (i < 10)%nat ->
  getVertexByIndex D10_js.verts (2 + i)
  = vec3 (- cos (INR i * PI * 2 / 10)) (- sin (INR i * PI * 2 / 10))
         (0.105 * (if Nat.odd i then 1 else -1)).
Proof.
  intro Hi.
  assert (E10 : INR D10_js.sides = 10) by (cbn; lra).
  do 10 (destruct i as [| i]; [
    unfold getVertexByIndex, D10_js.verts;
    cbn [nth app flat_map seq D10_js.sides Nat.mul Nat.add Nat.odd Nat.even negb];
    fold D10_js.sides; rewrite E10; reflexivity |]).
  lia.
Qed.

(** ** Vectors: lengths and normalization *)

Lemma length_pos (v : Vector3) : lengthSq v <> 0 -> 0 < length v.
Proof.
  intro H. unfold length. apply sqrt_lt_R0.
  pose proof (lengthSq_nonneg v). lra.
Qed.

Lemma normalize_nonzero (v : Vector3) :
  lengthSq v <> 0 ->
  normalize v = vec3 (vx v / length v) (vy v / length v) (vz v / length v).
Proof.
  intro H. pose proof (length_pos v H) as Hl. unfold normalize.
  destruct (Req_dec_T (length v) 0) as [E | _]; [lra |].
  unfold divideScalar, multiplyScalar. f_equal; field; lra.
Qed.

Lemma normalize_unit (v : Vector3) :
  lengthSq v <> 0 -> lengthSq (normalize v) = 1.
Proof.
  intro H. rewrite (normalize_nonzero v H).
  pose proof (length_pos v H) as Hl. pose proof (length_sq v) as Hs.
  unfold lengthSq, dot in *. cbn.
  field_simplify_eq; [| lra]. nra.
Qed.

Lemma length_of_unit (v : Vector3) : lengthSq v = 1 -> length v = 1.
Proof. intro H. unfold length. rewrite H. apply sqrt_1. Qed.

Lemma normalize_of_unit (v : Vector3) : lengthSq v = 1 -> normalize v = v.
Proof.
  intro H. unfold normalize. rewrite (length_of_unit v H).
  destruct (Req_dec_T 1 0) as [E | _]; [lra |].
  unfold divideScalar, multiplyScalar. destruct v as [x y z]. cbn.
  f_equal; field.
Qed.

(** The vertical component of a normalized vector, bounded away from -1
    when the vector is not close to pointing straight down. *)
Lemma normalize_z_bound (c : Vector3) :
  lengthSq c <> 0 ->
  0 <= vz c \/ vz c * vz c <= 0.99 * lengthSq c ->
  0.000001 <= vz (normalize c) + 1.
Proof.
  intros H Hz. rewrite (normalize_nonzero c H). cbn.
  pose proof (length_pos c H) as Hl. pose proof (length_sq c) as Hs.
  assert (Hdiv : vz c / length c * length c = vz c) by (field; lra).
  set (q := vz c / length c) in *.
  destruct Hz as [Hz | Hz].
  - assert (0 <= q); [| lra].
    unfold q. apply Rmult_le_pos; [exact Hz |].
    apply Rlt_le, Rinv_0_lt_compat, Hl.
  - assert (Hq : q * q <= 0.99).
    { assert (E : q * q * (length c * length c) = vz c * vz c) by nra.
      rewrite Hs in E. pose proof (lengthSq_nonneg c). nra. }
    nra.
Qed.

Lemma applyRadius_1 (v : Vector3) (L : R) :
  0 < L -> lengthSq v = L * L ->
  applyRadius 1 v = vec3 (vx v / L) (vy v / L) (vz v / L).
Proof.
  intros HL H. unfold applyRadius, normalize, length. rewrite H.
  rewrite sqrt_square by lra.
  destruct (Req_dec_T L 0) as [E | _]; [lra |].
  unfold divideScalar, multiplyScalar. cbn. f_equal; field; lra.
Qed.

(** ** Flat vertex normals *)

Lemma computeVertexNormals_nth (k : nat) :
  forall (position : list Vector3) (j : nat),
  (j < 3)%nat -> (3 * k + 2 < List.length position)%nat ->
  nth (3 * k + j) (computeVertexNormals position) origin
  = normalize (crossVectors
                 (subVectors (nth (3 * k + 2) position origin)
                             (nth (3 * k + 1) position origin))
                 (subVectors (nth (3 * k) position origin)
                             (nth (3 * k + 1) position origin))).
Proof.
  induction k as [| k IH]; intros position j Hj Hlen.
  - destruct position as [| pA [| pB [| pC rest]]]; cbn in Hlen; try lia.
    destruct j as [| [| [| j]]]; try lia; reflexivity.
  - destruct position as [| pA [| pB [| pC rest]]]; cbn in Hlen; try lia.
    replace (3 * S k + j)%nat with (S (S (S (3 * k + j)))) by lia.
    replace (3 * S k + 2)%nat with (S (S (S (3 * k + 2)))) by lia.
    replace (3 * S k + 1)%nat with (S (S (S (3 * k + 1)))) by lia.
    replace (3 * S k)%nat with (S (S (S (3 * k)))) by lia.
    cbn [computeVertexNormals nth]. apply IH; [exact Hj | lia].
Qed.

(** The inline face-normal computation returns the flat normal of the
    triangle. *)
Lemma faceNormal_flat (position : list Vector3) (k : nat) :
  (3 * k + 2 < List.length position)%nat ->
  let c := crossVectors
             (subVectors (nth (3 * k + 2) position origin)
                         (nth (3 * k + 1) position origin))
             (subVectors (nth (3 * k) position origin)
                         (nth (3 * k + 1) position origin)) in
  lengthSq c <> 0 ->
  faceNormal (computeVertexNormals position) k = normalize c.
Proof.
  intros Hlen c Hc. unfold faceNormal, fromBufferAttribute.
  replace (k * 3)%nat with (3 * k + 0)%nat by lia.
  replace (3 * k + 0 + 1)%nat with (3 * k + 1)%nat by lia.
  replace (3 * k + 0 + 2)%nat with (3 * k + 2)%nat by lia.
  rewrite !computeVertexNormals_nth by (try lia; exact Hlen).
  replace (3 * k + 0)%nat with (3 * k)%nat by lia.
  fold c.
  pose proof (normalize_unit c Hc) as Hu.
  set (n := normalize c) in *.
  assert (E : divideScalar (add (add (add origin n) n) n) 3 = n).
  { destruct n as [x y z]. unfold divideScalar, multiplyScalar, add, origin.
    cbn. f_equal; field. }
  rewrite E. apply normalize_of_unit. exact Hu.
Qed.

(** ** Alignment with the camera direction *)

(** Rotating any vector [v] by the quaternion that aligns the unit vector
    [a] with [forward] leaves [dot a v] as its component along
    [forward]. *)
Lemma aligned_z (eps : R) (a v : Vector3) :
  lengthSq a = 1 -> eps <= vz a + 1 -> 0 < eps ->
  vz (applyQuaternion v (setFromUnitVectors eps a forward)) = dot a v.
Proof.
  intros Hn Hr Heps.
  unfold setFromUnitVectors.
  assert (Hd : dot a forward + 1 = vz a + 1) by (unfold dot, forward; simpl; ring).
  rewrite Hd.
  destruct (Rlt_dec (vz a + 1) eps) as [Hlt | _]; [lra |].
  unfold forward; simpl.
  set (r := vz a + 1) in *.
  assert (Hr0 : 0 < r) by lra.
  unfold lengthSq, dot in Hn.
  assert (Hsq : (vy a * 1 - vz a * 0) * (vy a * 1 - vz a * 0)
              + (vz a * 0 - vx a * 1) * (vz a * 0 - vx a * 1)
              + (vx a * 0 - vy a * 0) * (vx a * 0 - vy a * 0) + r * r = 2 * r).
  { unfold r. nra. }
  unfold qnormalize, qlength. simpl.
  rewrite Hsq.
  assert (Hs : 0 < sqrt (2 * r)) by (apply sqrt_lt_R0; lra).
  assert (Hss : sqrt (2 * r) * sqrt (2 * r) = 2 * r) by (apply sqrt_sqrt; lra).
  destruct (Req_dec_T (sqrt (2 * r)) 0) as [E | _]; [lra |].
  unfold applyQuaternion, dot; simpl.
  set (s := sqrt (2 * r)) in *.
  set (l := 1 / s).
  assert (Hl : l * l * (2 * r) = 1).
  { unfold l. field_simplify; [| lra]. rewrite <- Hss. field. lra. }
  assert (Hrz : vz a = r - 1) by (unfold r; ring).
  clearbody l r. clear Hsq Hss Hs s Hd.
  nsatz.
Qed.

(** ** The geometries in closed form *)

Lemma sqrt3_sq : sqrt 3 * sqrt 3 = 3.
Proof. apply sqrt_sqrt. lra. Qed.
Lemma sqrt3_pos : 0 < sqrt 3.
Proof. apply sqrt_lt_R0. lra. Qed.
Lemma sqrt5_sq : sqrt 5 * sqrt 5 = 5.
Proof. apply sqrt_sqrt. lra. Qed.

Lemma sqrt5_bounds : 2.2 < sqrt 5 < 2.3.
Proof.
  pose proof sqrt5_sq as H. pose proof (sqrt_pos 5) as H0. split; nra.
Qed.

Lemma phi_bounds : 1.6 < phi < 1.65.
Proof. unfold phi. pose proof sqrt5_bounds. lra. Qed.

Lemma phi_sq : phi * phi = phi + 1.
Proof. unfold phi. pose proof sqrt5_sq. nra. Qed.

Lemma phi_inv : 1 / phi = phi - 1.
Proof.
  pose proof phi_sq. pose proof phi_bounds.
  field_simplify_eq; [nra | lra].
Qed.

Lemma icoL_pos : 0 < icoL.
Proof. apply sqrt_lt_R0. pose proof phi_bounds. nra. Qed.
Lemma icoL_sq : icoL * icoL = 1 + phi * phi.
Proof. apply sqrt_sqrt. pose proof phi_bounds. nra. Qed.

Ltac expose_entries :=
  unfold TetrahedronGeometry, OctahedronGeometry, IcosahedronGeometry,
    DodecahedronGeometry, PolyhedronGeometry;
  cbn [subdivide map nth Nat.mul Nat.add List.length];
  unfold getVertexByIndex; cbn [nth Nat.mul Nat.add].

Ltac on_sphere L Lpos tac :=
  repeat match goal with
  | |- context [applyRadius 1 ?v] =>
      rewrite (applyRadius_1 v L Lpos) by (unfold lengthSq, dot; cbn; tac)
  end.

Lemma normal_ok (c : Vector3) :
  lengthSq c <> 0 ->
  0 <= vz c \/ vz c * vz c <= 0.99 * lengthSq c ->
  lengthSq (normalize c) = 1 /\ 0.000001 <= vz (normalize c) + 1.
Proof.
  intros H Hz. split; [apply normalize_unit | apply normalize_z_bound];
    assumption.
Qed.

Lemma D8_reference_normal :
  lengthSq (faceTableNormal D8 7) = 1
  /\ 0.000001 <= vz (faceTableNormal D8 7) + 1.
Proof.
  unfold faceTableNormal, D8_js.geometry.
  assert (Hlen : (3 * 7 + 2 < List.length (OctahedronGeometry 1))%nat)
    by (cbn; lia).
  pose proof (faceNormal_flat (OctahedronGeometry 1) 7 Hlen) as HF.
  cbv zeta in HF.
  set (c := crossVectors _ _) in HF.
  assert (Ec : c = vec3 (- 1) 1 1).
  { subst c. cbn [Nat.mul Nat.add]. expose_entries.
    on_sphere 1 Rlt_0_1 lra.
    unfold crossVectors, subVectors. cbn [vx vy vz].
    f_equal; field. }
  assert (Hc : lengthSq c <> 0).
  { rewrite Ec. unfold lengthSq, dot. cbn. lra. }
  rewrite (HF Hc). apply normal_ok; [exact Hc |].
  left. rewrite Ec. cbn. lra.
Qed.

Lemma D20_reference_normal :
  lengthSq (faceTableNormal D20 19) = 1
  /\ 0.000001 <= vz (faceTableNormal D20 19) + 1.
Proof.
  unfold faceTableNormal, D20_js.geometry.
  assert (Hlen : (3 * 19 + 2 < List.length (IcosahedronGeometry 1))%nat)
    by (cbn; lia).
  pose proof (faceNormal_flat (IcosahedronGeometry 1) 19 Hlen) as HF.
  cbv zeta in HF.
  set (c := crossVectors _ _) in HF.
  assert (Ec : c = vec3 (2 * phi / (icoL * icoL)) (2 * (phi - 1) / (icoL * icoL)) 0).
  { subst c. cbn [Nat.mul Nat.add]. expose_entries.
    on_sphere icoL icoL_pos ltac:(rewrite icoL_sq; ring).
    unfold crossVectors, subVectors. cbn [vx vy vz].
    pose proof icoL_pos.
    f_equal; field; lra. }
  pose proof icoL_pos as HL. pose proof phi_bounds as Hphi.
  assert (Hx : 0 < 2 * phi / (icoL * icoL)).
  { apply Rdiv_lt_0_compat; nra. }
  assert (Hc : lengthSq c <> 0).
  { rewrite Ec. unfold lengthSq, dot. cbn [vx vy vz].
    set (x := 2 * phi / (icoL * icoL)) in *.
    set (y := 2 * (phi - 1) / (icoL * icoL)). nra. }
  rewrite (HF Hc). apply normal_ok; [exact Hc |].
  left. rewrite Ec. cbn. lra.
Qed.


Ltac dodeca_len := rewrite ?phi_inv, sqrt3_sq; pose proof phi_sq; nra.

Lemma dot_normalize_neg (a b : Vector3) :
  lengthSq a <> 0 -> lengthSq b <> 0 -> dot a b < 0 ->
  dot (normalize a) (normalize b) < 0.
Proof.
  intros Ha Hb Hd.
  rewrite (normalize_nonzero a Ha), (normalize_nonzero b Hb).
  pose proof (length_pos a Ha) as La. pose proof (length_pos b Hb) as Lb.
  unfold dot in *. cbn [vx vy vz].
  assert (E : vx a / length a * (vx b / length b)
              + vy a / length a * (vy b / length b)
              + vz a / length a * (vz b / length b)
              = (vx a * vx b + vy a * vy b + vz a * vz b)
                * / (length a * length b)) by (field; lra).
  rewrite E.
  assert (0 < / (length a * length b)).
  { apply Rinv_0_lt_compat. nra. }
  nra.
Qed.

Lemma D12_reference_normal :
  lengthSq (faceTableNormal D12 11) = 1
  /\ 0.000001 <= vz (faceTableNormal D12 11) + 1.
Proof.
  unfold faceTableNormal, D12_js.faceData.
  cbn [seq map nth]. unfold D12_js.faceOf, fromBufferAttribute.
  cbn [D12_js.normal Nat.mul Nat.add].
  set (c := crossVectors _ _).
  assert (Ec : c = vec3 0 (- 2 * (phi - 1) / 3) (2 * (phi - 1) * (phi - 1) / 3)).
  { subst c. unfold D12_js.createD12Geometry. expose_entries.
    on_sphere (sqrt 3) sqrt3_pos dodeca_len.
    unfold crossVectors, subVectors. cbn [vx vy vz].
    rewrite phi_inv.
    pose proof sqrt3_pos. pose proof sqrt3_sq. pose proof phi_sq.
    f_equal; field_simplify_eq; try lra; cbn [pow]; nsatz. }
  pose proof phi_bounds as Hphi.
  assert (Hc : lengthSq c <> 0).
  { rewrite Ec. unfold lengthSq, dot. cbn [vx vy vz]. nra. }
  apply normal_ok; [exact Hc |].
  left. rewrite Ec. cbn. nra.
Qed.

Ltac by_field_ideal := f_equal; field_simplify_eq; try lra; cbn [pow]; nsatz.

(** The normal of the icosahedron's triangle 9 *)
Lemma ico_triangle9 :
  exists c, faceNormal (computeVertexNormals (IcosahedronGeometry 1)) 9
            = normalize c
    /\ c = vec3 (2 / (icoL * icoL)) (2 / (icoL * icoL)) (- 2 / (icoL * icoL)).
Proof.
  assert (Hlen : (3 * 9 + 2 < List.length (IcosahedronGeometry 1))%nat)
    by (cbn; lia).
  pose proof (faceNormal_flat (IcosahedronGeometry 1) 9 Hlen) as HF.
  cbv zeta in HF.
  set (c := crossVectors _ _) in HF.
  assert (Ec : c = vec3 (2 / (icoL * icoL)) (2 / (icoL * icoL)) (- 2 / (icoL * icoL))).
  { subst c. cbn [Nat.mul Nat.add]. expose_entries.
    on_sphere icoL icoL_pos ltac:(rewrite icoL_sq; ring).
    unfold crossVectors, subVectors. cbn [vx vy vz].
    pose proof icoL_pos. pose proof phi_sq.
    by_field_ideal. }
  exists c. split; [| exact Ec].
  apply HF. rewrite Ec. unfold lengthSq, dot. cbn [vx vy vz].
  pose proof icoL_pos as HL.
  assert (0 < 2 / (icoL * icoL)) by (apply Rdiv_lt_0_compat; nra).
  set (x := 2 / (icoL * icoL)) in *.
  replace (-2 / (icoL * icoL)) with (- x) by (unfold x; field; lra).
  nra.
Qed.

Lemma D12_face9 :
  faceTableNormal D12 9
  = normalize (vec3 (2 * (phi - 1) * (phi - 1) / 3) 0 (2 * (phi - 1) / 3)).
Proof.
  unfold faceTableNormal, D12_js.faceData.
  cbn [seq map nth]. unfold D12_js.faceOf, fromBufferAttribute.
  cbn [D12_js.normal Nat.mul Nat.add].
  f_equal.
  unfold D12_js.createD12Geometry. expose_entries.
  on_sphere (sqrt 3) sqrt3_pos dodeca_len.
  unfold crossVectors, subVectors. cbn [vx vy vz].
  rewrite phi_inv.
  pose proof sqrt3_pos. pose proof sqrt3_sq. pose proof phi_sq.
  by_field_ideal.
Qed.

Lemma D12_target9_misaligned (T : Three) :
  vz (applyQuaternion (faceTableNormal D12 9) (targetQuaternion T D12 9)) < 0.
Proof.
  unfold targetQuaternion, D12_js.targetQuaternion.
  change (Z.to_nat 9) with 9%nat. cbv zeta.
  destruct ico_triangle9 as (c & En & Ec).
  rewrite En, D12_face9.
  pose proof icoL_pos as HL. pose proof phi_bounds as Hphi.
  assert (Hx : 0 < 2 / (icoL * icoL)) by (apply Rdiv_lt_0_compat; nra).
  assert (Hc : lengthSq c <> 0).
  { rewrite Ec. unfold lengthSq, dot. cbn [vx vy vz].
    set (x := 2 / (icoL * icoL)) in *.
    replace (-2 / (icoL * icoL)) with (- x) by (unfold x; field; lra). nra. }
  assert (Hz : vz c * vz c <= 0.99 * lengthSq c).
  { rewrite Ec. unfold lengthSq, dot. cbn [vx vy vz].
    set (x := 2 / (icoL * icoL)) in *.
    replace (-2 / (icoL * icoL)) with (- x) by (unfold x; field; lra). nra. }
  set (b := vec3 _ _ _).
  assert (Hb : lengthSq b <> 0).
  { unfold b, lengthSq, dot. cbn [vx vy vz]. nra. }
  rewrite aligned_z.
  - apply dot_normalize_neg; [exact Hc | exact Hb |].
    rewrite Ec. unfold b, dot. cbn [vx vy vz].
    set (x := 2 / (icoL * icoL)) in *.
    replace (-2 / (icoL * icoL)) with (- x) by (unfold x; field; lra).
    assert (Hk : (phi - 1) * (phi - 1) - (phi - 1) < 0) by nra.
    nra.
  - apply normalize_unit, Hc.
  - pose proof (normalize_z_bound c Hc (or_intror Hz)).
    pose proof (EPSILON_small T). lra.
  - apply EPSILON_pos.
Qed.



Lemma D10_s_pos : 0 < D10_s.
Proof. apply sqrt_lt_R0. lra. Qed.
Lemma D10_s_sq : D10_s * D10_s = 1 + 0.105 * 0.105.
Proof. apply sqrt_sqrt. lra. Qed.

Lemma equator_on_sphere (i : nat) :
  (i < 10)%nat ->
  applyRadius 1 (getVertexByIndex D10_js.verts (2 + i)) = equatorVertex i.
Proof.
  intro Hi. rewrite (D10_verts_equator i Hi).
  rewrite (applyRadius_1 _ D10_s D10_s_pos).
  - reflexivity.
  - unfold lengthSq, dot. cbn [vx vy vz]. rewrite D10_s_sq.
    pose proof (sin2_cos2 (INR i * PI * 2 / 10)) as H. unfold Rsqr in H.
    destruct (Nat.odd i); lra.
Qed.

Lemma apex_on_sphere (k : nat) :
  (k < 2)%nat ->
  applyRadius 1 (getVertexByIndex D10_js.verts k)
  = vec3 0 0 (if (k =? 0)%nat then 1 else -1).
Proof.
  intro Hk.
  destruct k as [| [| k]]; try lia.
  - change (getVertexByIndex D10_js.verts 0) with (vec3 0 0 1).
    rewrite (applyRadius_1 _ 1 Rlt_0_1) by (unfold lengthSq, dot; cbn; lra).
    cbn. f_equal; lra.
  - change (getVertexByIndex D10_js.verts 1) with (vec3 0 0 (-1)).
    rewrite (applyRadius_1 _ 1 Rlt_0_1) by (unfold lengthSq, dot; cbn; lra).
    cbn. f_equal; lra.
Qed.

(** C6, as the code has it.  [verts] holds the two apexes (0,0,1) and
    (0,0,-1) and ten equatorial vertices whose z alternates between
    -0.105 (even [i]) and +0.105 (odd [i]), which [PolyhedronGeometry]
    projects onto the unit sphere; [faces] holds exactly 20 triangles and
    the geometry 60 buffer entries.  The consecutive triangles [2f] and
    [2f+1] of face [f] have exactly two vertices in common, their apex
    and one equatorial vertex: the edge they share joins the apex to the
    equator.  Each triangle has one equatorial edge of its own, which it
    shares with the triangle of the other apex (triangles [i] and
    [10 + i]), not with its pair. *)
Theorem D10_geometry_pairs (f : nat) :
  (f < 10)%nat ->
  getVertexByIndex D10_js.verts 0 = vec3 0 0 1
  /\ getVertexByIndex D10_js.verts 1 = vec3 0 0 (-1)
  /\ vz (getVertexByIndex D10_js.verts (2 + f))
     = 0.105 * (if Nat.odd f then 1 else -1)
  /\ vz (applyRadius D10_js.radius (getVertexByIndex D10_js.verts (2 + f)))
     = 0.105 * (if Nat.odd f then 1 else -1) / sqrt (1 + 0.105 * 0.105)
  /\ List.length D10_js.faces = (3 * 20)%nat
  /\ List.length D10_js.createD10Geometry = (3 * 20)%nat
  /\ (exists e, isEquatorial e = true
        /\ sharedVertices (triangle D10_js.faces (2 * f))
                          (triangle D10_js.faces (2 * f + 1))
           = [apexOf f; e])
  /\ shareEquatorialEdge (triangle D10_js.faces (2 * f))
                         (triangle D10_js.faces (2 * f + 1)) = false
  /\ List.length (filter isEquatorial (triangle D10_js.faces (2 * f))) = 2%nat
  /\ List.length (filter isEquatorial (triangle D10_js.faces (2 * f + 1))) = 2%nat
  /\ shareEquatorialEdge (triangle D10_js.faces f)
                         (triangle D10_js.faces (10 + f)) = true.
Proof.
  intro Hf.
  split; [reflexivity |]. split; [reflexivity |].
  split; [rewrite (D10_verts_equator f Hf); reflexivity |].
  split; [unfold D10_js.radius; rewrite (equator_on_sphere f Hf); reflexivity |].
  split; [reflexivity |]. split; [reflexivity |].
  do 10 (destruct f as [| f]; [
    split; [eexists; split; [| reflexivity]; reflexivity |];
    repeat split; reflexivity |]).
  lia.
Qed.

Lemma D10_geometry_pairs_witness :
  (0 < 10)%nat
  /\ shareEquatorialEdge (triangle D10_js.faces (2 * 0))
                         (triangle D10_js.faces (2 * 0 + 1)) = false.
Proof.
  split; [lia |].
  apply (D10_geometry_pairs 0). lia.
Defined.

Lemma D10_entries (f : nat) :
  (f < 10)%nat ->
  nth (f * 2 * 3) D10_js.createD10Geometry origin = equatorVertex (firstEquator f)
  /\ nth (f * 2 * 3 + 1) D10_js.createD10Geometry origin
     = equatorVertex (secondEquator f)
  /\ nth (f * 2 * 3 + 2) D10_js.createD10Geometry origin = vec3 0 0 (apexSign f).
Proof.
  intro Hf.
  unfold D10_js.createD10Geometry, PolyhedronGeometry, D10_js.radius.
  do 10 (destruct f as [| f]; [
    cbn [D10_js.faces subdivide map nth Nat.mul Nat.add];
    repeat split;
    first [ apply (equator_on_sphere 0); lia
          | apply (equator_on_sphere 1); lia
          | apply (equator_on_sphere 2); lia
          | apply (equator_on_sphere 3); lia
          | apply (equator_on_sphere 4); lia
          | apply (equator_on_sphere 5); lia
          | apply (equator_on_sphere 6); lia
          | apply (equator_on_sphere 7); lia
          | apply (equator_on_sphere 8); lia
          | apply (equator_on_sphere 9); lia
          | apply (apex_on_sphere 0); lia
          | apply (apex_on_sphere 1); lia ] |]).
  lia.
Qed.


Lemma D10_faceData_nth (pos : list Vector3) (f : nat) :
  (f < 10)%nat ->
  nth f (D10_js.faceData pos) D10_js.defaultFace = D10_js.faceOf pos f.
Proof.
  intro Hf. unfold D10_js.faceData.
  rewrite (nth_indep _ D10_js.defaultFace (D10_js.faceOf pos 0))
    by (rewrite length_map, length_seq; exact Hf).
  rewrite (map_nth (D10_js.faceOf pos) (seq 0 10) 0%nat f).
  rewrite seq_nth by exact Hf. reflexivity.
Qed.

Lemma sin_PI5_pos : 0 < sin (PI / 5).
Proof. apply sin_gt_0; pose proof PI_RGT_0; lra. Qed.

(** The vertical component of the cross product [faceOf] normalizes. *)
Lemma wedge_cross_z (a0 a1 h0 h1 z s : R) :
  s <> 0 ->
  vz (crossVectors
        (subVectors (vec3 (- cos a1 / s) (- sin a1 / s) h1)
                    (vec3 (- cos a0 / s) (- sin a0 / s) h0))
        (subVectors (vec3 0 0 z) (vec3 (- cos a0 / s) (- sin a0 / s) h0)))
  = sin (a1 - a0) / (s * s).
Proof.
  intro Hs. rewrite sin_minus. unfold crossVectors, subVectors. cbn [vx vy vz].
  field. exact Hs.
Qed.

Lemma D10_angle_step (f : nat) :
  (f < 10)%nat ->
  equatorAngle (secondEquator f) - equatorAngle (firstEquator f)
  = apexSign f * (PI / 5).
Proof.
  intro Hf. unfold equatorAngle, secondEquator, firstEquator, apexSign.
  do 10 (destruct f as [| f]; [cbn; field |]). lia.
Qed.

Lemma D10_offsets_cancel (f : nat) :
  (f < 10)%nat ->
  vz (equatorVertex (firstEquator f)) + vz (equatorVertex (secondEquator f)) = 0.
Proof.
  intro Hf. unfold equatorVertex, secondEquator, firstEquator.
  pose proof D10_s_pos.
  do 10 (destruct f as [| f]; [cbn; field; lra |]). lia.
Qed.

Lemma D10_face_cross_z (f : nat) :
  (f < 10)%nat ->
  vz (crossVectors
        (subVectors (equatorVertex (secondEquator f))
                    (equatorVertex (firstEquator f)))
        (subVectors (vec3 0 0 (apexSign f)) (equatorVertex (firstEquator f))))
  = apexSign f * sin (PI / 5) / (D10_s * D10_s).
Proof.
  intro Hf. unfold equatorVertex at 1 2 3.
  pose proof D10_s_pos as Hs.
  rewrite wedge_cross_z by lra.
  rewrite (D10_angle_step f Hf). unfold apexSign.
  destruct (f <? 5)%nat.
  - rewrite Rmult_1_l. field. lra.
  - replace (-1 * (PI / 5)) with (- (PI / 5)) by ring.
    rewrite sin_neg. field. lra.
Qed.

Lemma apexSign_cases (f : nat) : apexSign f = 1 \/ apexSign f = -1.
Proof. unfold apexSign. destruct (f <? 5)%nat; [left | right]; reflexivity. Qed.

(** Every triangle [faceOf] reads from the D10 geometry is
    non-degenerate: the normal it stores has length 1. *)
Lemma D10_normal_unit (f : nat) :
  (f < 10)%nat ->
  lengthSq (D10_js.normal (D10_js.faceOf D10_js.createD10Geometry f)) = 1.
Proof.
  intro Hf. unfold D10_js.faceOf, fromBufferAttribute. cbn [D10_js.normal].
  destruct (D10_entries f Hf) as (E0 & E1 & E2). rewrite E0, E1, E2.
  apply normalize_unit.
  pose proof (D10_face_cross_z f Hf) as Hz.
  set (c := crossVectors _ _) in *.
  assert (Hnz : vz c <> 0).
  { rewrite Hz. pose proof sin_PI5_pos. pose proof D10_s_pos as Hs.
    assert (0 < sin (PI / 5) / (D10_s * D10_s))
      by (apply Rdiv_lt_0_compat; nra).
    destruct (apexSign_cases f) as [-> | ->].
    - replace (1 * sin (PI / 5) / (D10_s * D10_s))
        with (sin (PI / 5) / (D10_s * D10_s)) by (field; lra). lra.
    - replace (-1 * sin (PI / 5) / (D10_s * D10_s))
        with (- (sin (PI / 5) / (D10_s * D10_s))) by (field; lra). lra. }
  unfold lengthSq, dot. nra.
Qed.

Lemma D10_center_z (f : nat) :
  (f < 10)%nat ->
  vz (D10_js.center (D10_js.faceOf D10_js.createD10Geometry f)) = apexSign f / 3.
Proof.
  intro Hf. unfold D10_js.faceOf, fromBufferAttribute. cbn [D10_js.center].
  destruct (D10_entries f Hf) as (E0 & E1 & E2). rewrite E0, E1, E2.
  pose proof (D10_offsets_cancel f Hf) as Hc.
  unfold divideScalar, multiplyScalar, add, origin. cbn [vx vy vz] in *.
  lra.
Qed.

(** ** The nearest candidate *)

Lemma distanceTo_nonneg (a b : Vector3) : 0 <= distanceTo a b.
Proof. unfold distanceTo, length. apply sqrt_pos. Qed.

Lemma firstNearest_cons (t c : Vector3) (rest : list Vector3) :
  rest <> [] ->
  firstNearest t (c :: rest)
  = if Rle_dec (distanceTo t c) (distanceTo t (firstNearest t rest))
    then c else firstNearest t rest.
Proof. intro H. destruct rest as [| c' rest]; [contradiction | reflexivity]. Qed.

Lemma firstNearest_le_head (t c : Vector3) (rest : list Vector3) :
  distanceTo t (firstNearest t (c :: rest)) <= distanceTo t c.
Proof.
  destruct rest as [| c' rest]; [cbn; lra |].
  rewrite firstNearest_cons by discriminate.
  destruct (Rle_dec _ _); lra.
Qed.

(** The loop of the source computes the specification's nearest vertex. *)
Lemma fold_nearestStep (t : Vector3) (rest : list Vector3) :
  forall b,
    fold_left (D10_js.nearestStep t) rest (b, distanceTo t b)
    = (firstNearest t (b :: rest), distanceTo t (firstNearest t (b :: rest))).
Proof.
  induction rest as [| c rest IH]; intro b; [reflexivity |].
  cbn [fold_left]. unfold D10_js.nearestStep at 2. cbn [snd].
  destruct (Rlt_dec (distanceTo t c) (distanceTo t b)) as [Hlt | Hge].
  - rewrite IH.
    pose proof (firstNearest_le_head t c rest) as Hm.
    rewrite (firstNearest_cons t b (c :: rest)) by discriminate.
    destruct (Rle_dec _ _) as [Hle | _]; [lra | reflexivity].
  - rewrite IH.
    assert (E : firstNearest t (b :: c :: rest) = firstNearest t (b :: rest)).
    { rewrite (firstNearest_cons t b (c :: rest)) by discriminate.
      destruct rest as [| c' rest].
      - cbn. destruct (Rle_dec _ _); [reflexivity | lra].
      - rewrite (firstNearest_cons t c (c' :: rest)) by discriminate.
        rewrite (firstNearest_cons t b (c' :: rest)) by discriminate.
        set (m := firstNearest t (c' :: rest)).
        destruct (Rle_dec (distanceTo t c) (distanceTo t m)) as [Hcm | Hcm].
        + destruct (Rle_dec (distanceTo t b) (distanceTo t c)); [| lra].
          destruct (Rle_dec (distanceTo t b) (distanceTo t m)); [reflexivity | lra].
        + reflexivity. }
    rewrite E. reflexivity.
Qed.

Lemma nearest_firstNearest (t : Vector3) (candidates : list Vector3) :
  candidates <> [] ->
  D10_js.nearest t candidates = firstNearest t candidates.
Proof.
  intro H. destruct candidates as [| c rest]; [contradiction |].
  unfold D10_js.nearest. cbn [hd fold_left].
  unfold D10_js.nearestStep at 2. cbn [snd].
  destruct (Rlt_dec _ _) as [Hlt | _]; [lra |].
  rewrite fold_nearestStep. reflexivity.
Qed.

Lemma firstNearest_min (t : Vector3) (candidates : list Vector3) :
  forall c, In c candidates ->
    distanceTo t (firstNearest t candidates) <= distanceTo t c.
Proof.
  induction candidates as [| c0 rest IH]; intros c Hin; [contradiction |].
  destruct rest as [| c1 rest].
  - destruct Hin as [-> | []]. cbn. lra.
  - rewrite firstNearest_cons by discriminate.
    destruct Hin as [-> | Hin].
    + destruct (Rle_dec _ _); lra.
    + specialize (IH c Hin). destruct (Rle_dec _ _); lra.
Qed.

Lemma firstNearest_In (t : Vector3) (candidates : list Vector3) :
  candidates <> [] -> In (firstNearest t candidates) candidates.
Proof.
  induction candidates as [| c0 rest IH]; intro H; [contradiction |].
  destruct rest as [| c1 rest]; [left; reflexivity |].
  rewrite firstNearest_cons by discriminate.
  destruct (Rle_dec _ _); [left; reflexivity |].
  right. apply IH. discriminate.
Qed.

Lemma lengthSq_zero (v : Vector3) : lengthSq v = 0 -> v = vec3 0 0 0.
Proof.
  destruct v as [x y z]. unfold lengthSq, dot. cbn. intro H.
  assert (x = 0) by nra. assert (y = 0) by nra. assert (z = 0) by nra.
  subst. reflexivity.
Qed.

Lemma distanceTo_zero (a b : Vector3) : distanceTo a b = 0 -> b = a.
Proof.
  unfold distanceTo, length. intro H.
  apply sqrt_eq_0 in H; [| apply lengthSq_nonneg].
  apply lengthSq_zero in H. destruct a, b. unfold subVectors in H. cbn in H.
  injection H as Hx Hy Hz. f_equal; lra.
Qed.

Lemma distanceTo_self (a : Vector3) : distanceTo a a = 0.
Proof.
  unfold distanceTo, length, lengthSq, dot, subVectors. cbn.
  replace (_ + _ + _) with 0 by ring. apply sqrt_0.
Qed.

(** A candidate list that contains the target itself: the nearest
    candidate is the target. *)
Lemma firstNearest_target (t : Vector3) (candidates : list Vector3) :
  In t candidates -> firstNearest t candidates = t.
Proof.
  intro Hin.
  pose proof (firstNearest_min t candidates t Hin) as Hm.
  rewrite distanceTo_self in Hm.
  pose proof (distanceTo_nonneg t (firstNearest t candidates)).
  apply distanceTo_zero. lra.
Qed.

(** ** The label frame *)

Lemma normalize_zero : normalize (vec3 0 0 0) = vec3 0 0 0.
Proof.
  unfold normalize, divideScalar, multiplyScalar. cbn. f_equal; ring.
Qed.

Lemma length_scale (v : Vector3) (k : R) :
  0 < k -> length (multiplyScalar v k) = k * length v.
Proof.
  intro Hk. unfold length.
  replace (lengthSq (multiplyScalar v k)) with (k * k * lengthSq v)
    by (unfold lengthSq, dot, multiplyScalar; cbn; ring).
  rewrite sqrt_mult by (try apply lengthSq_nonneg; nra).
  rewrite sqrt_square by lra. reflexivity.
Qed.

Lemma normalize_scale (v : Vector3) (k : R) :
  0 < k -> normalize (multiplyScalar v k) = normalize v.
Proof.
  intro Hk. destruct (Req_dec_T (lengthSq v) 0) as [E | E].
  - apply lengthSq_zero in E. subst v.
    replace (multiplyScalar (vec3 0 0 0) k) with (vec3 0 0 0)
      by (unfold multiplyScalar; cbn; f_equal; ring).
    reflexivity.
  - pose proof (length_pos v E) as Hl.
    assert (E' : lengthSq (multiplyScalar v k) <> 0).
    { replace (lengthSq (multiplyScalar v k)) with (k * k * lengthSq v)
        by (unfold lengthSq, dot, multiplyScalar; cbn; ring).
      pose proof (lengthSq_nonneg v).
      assert (0 < k * k * lengthSq v) by (apply Rmult_lt_0_compat; nra).
      lra. }
    rewrite (normalize_nonzero _ E'), (normalize_nonzero _ E).
    rewrite length_scale by exact Hk.
    unfold multiplyScalar. cbn. f_equal; field; lra.
Qed.

Lemma normalize_as_scale (v : Vector3) :
  lengthSq v <> 0 ->
  normalize v = multiplyScalar v (/ length v) /\ 0 < / length v.
Proof.
  intro E. pose proof (length_pos v E) as Hl. split.
  - rewrite (normalize_nonzero v E). unfold multiplyScalar.
    f_equal; field; lra.
  - apply Rinv_0_lt_compat, Hl.
Qed.

Lemma cross_normalize_l (a b : Vector3) :
  normalize (crossVectors (normalize a) b) = normalize (crossVectors a b).
Proof.
  destruct (Req_dec_T (lengthSq a) 0) as [E | E].
  - apply lengthSq_zero in E. subst a. rewrite normalize_zero. reflexivity.
  - destruct (normalize_as_scale a E) as [-> Hk].
    replace (crossVectors (multiplyScalar a (/ length a)) b)
      with (multiplyScalar (crossVectors a b) (/ length a))
      by (unfold crossVectors, multiplyScalar; cbn; f_equal; ring).
    apply normalize_scale, Hk.
Qed.

Lemma cross_normalize_r (a b : Vector3) :
  normalize (crossVectors a (normalize b)) = normalize (crossVectors a b).
Proof.
  destruct (Req_dec_T (lengthSq b) 0) as [E | E].
  - apply lengthSq_zero in E. subst b. rewrite normalize_zero. reflexivity.
  - destruct (normalize_as_scale b E) as [-> Hk].
    replace (crossVectors a (multiplyScalar b (/ length b)))
      with (multiplyScalar (crossVectors a b) (/ length b))
      by (unfold crossVectors, multiplyScalar; cbn; f_equal; ring).
    apply normalize_scale, Hk.
Qed.

Lemma triple_cross (u n : Vector3) :
  lengthSq n = 1 ->
  crossVectors n (crossVectors u n) = projectOnPlane u n.
Proof.
  intro Hn. unfold lengthSq, dot in Hn.
  unfold crossVectors, projectOnPlane, subVectors, multiplyScalar, dot.
  cbn [vx vy vz]. f_equal; nsatz.
Qed.

(** The up-axis of a D10 label is the normalized projection of [apexDir]
    onto the plane of the face. *)
Lemma makeFaceLabel_yAxis (center normal : Vector3) (number : Z)
    (apexDir : Vector3) :
  lengthSq normal = 1 ->
  D10_js.yAxis (D10_js.makeFaceLabel center normal number apexDir)
  = normalize (projectOnPlane apexDir normal).
Proof.
  intro Hn. unfold D10_js.makeFaceLabel. cbn [D10_js.yAxis].
  rewrite (normalize_of_unit normal Hn).
  rewrite cross_normalize_l, cross_normalize_r.
  rewrite (triple_cross apexDir normal Hn). reflexivity.
Qed.

Lemma nearer_pole (c : Vector3) :
  let pole := if Rge_dec (vz c) 0 then D10_js.topApex else D10_js.bottomApex in
  let other := if Rge_dec (vz c) 0 then D10_js.bottomApex else D10_js.topApex in
  distanceTo pole c <= distanceTo other c.
Proof.
  cbv zeta. unfold distanceTo, length.
  destruct (Rge_dec (vz c) 0) as [H | H]; apply sqrt_le_1_alt;
    unfold lengthSq, dot, subVectors, D10_js.topApex, D10_js.bottomApex;
    cbn [vx vy vz]; nra.
Qed.

Lemma D10_numberMeshes_nth (pos : list Vector3) (f : nat) :
  (f < 10)%nat ->
  nth_error (D10_js.numberMeshes pos) f
  = Some (let F := nth f (D10_js.faceData pos) D10_js.defaultFace in
          D10_js.makeFaceLabel (D10_js.center F) (D10_js.normal F)
            (Z.of_nat f + 1) (D10_js.topDir F)).
Proof.
  intro Hf.
  do 10 (destruct f as [| f]; [reflexivity |]). lia.
Qed.

Lemma D10_pole (f : nat) :
  (f < 10)%nat ->
  (if Rge_dec (vz (D10_js.center (D10_js.faceOf D10_js.createD10Geometry f))) 0
   then D10_js.topApex else D10_js.bottomApex)
  = vec3 0 0 (apexSign f).
Proof.
  intro Hf. rewrite (D10_center_z f Hf). unfold apexSign.
  destruct (f <? 5)%nat; destruct (Rge_dec _ _) as [H | H];
    try reflexivity; lra.
Qed.

(** C7: for every face of the D10, [topDir] runs from the face center to
    the vertex of the face that is nearest -- minimum distance, first
    encountered on ties -- to the pole nearer the center, no vertex of
    either triangle of the face is nearer to that pole, and the up-axis
    of the label is the normalized projection of [topDir] onto the face
    plane. *)
Theorem D10_label_up_direction (f : nat) :
  (f < 10)%nat ->
  let pos := D10_js.createD10Geometry in
  let F := nth f (D10_js.faceData pos) D10_js.defaultFace in
  let candidates := [nth (f * 2 * 3) pos origin;
                     nth (f * 2 * 3 + 1) pos origin;
                     nth (f * 2 * 3 + 2) pos origin] in
  let pole := if Rge_dec (vz (D10_js.center F)) 0
              then D10_js.topApex else D10_js.bottomApex in
  let other := if Rge_dec (vz (D10_js.center F)) 0
               then D10_js.bottomApex else D10_js.topApex in
  let label := D10_js.makeFaceLabel (D10_js.center F) (D10_js.normal F)
                 (Z.of_nat f + 1) (D10_js.topDir F) in
  nth_error (D10_js.numberMeshes pos) f = Some label
  /\ distanceTo pole (D10_js.center F) <= distanceTo other (D10_js.center F)
  /\ D10_js.topDir F
     = subVectors (firstNearest pole candidates) (D10_js.center F)
  /\ In (firstNearest pole candidates) candidates
  /\ (forall k, (k < 6)%nat ->
        distanceTo pole (firstNearest pole candidates)
        <= distanceTo pole (nth (f * 2 * 3 + k) pos origin))
  /\ D10_js.yAxis label
     = normalize (projectOnPlane (D10_js.topDir F) (D10_js.normal F)).
Proof.
  intro Hf. cbv zeta.
  split; [apply (D10_numberMeshes_nth _ f Hf) |].
  rewrite (D10_faceData_nth _ f Hf).
  split; [apply nearer_pole |].
  split.
  { unfold D10_js.faceOf at 1. cbn [D10_js.topDir].
    rewrite nearest_firstNearest by discriminate. reflexivity. }
  split; [apply firstNearest_In; discriminate |].
  split.
  { intros k Hk. rewrite (D10_pole f Hf).
    destruct (D10_entries f Hf) as (_ & _ & E2). rewrite E2.
    rewrite firstNearest_target by (right; right; left; reflexivity).
    rewrite distanceTo_self. apply distanceTo_nonneg. }
  apply makeFaceLabel_yAxis. apply D10_normal_unit. exact Hf.
Qed.

Lemma D10_label_up_direction_witness :
  (0 < 10)%nat
  /\ D10_js.yAxis
       (D10_js.makeFaceLabel
          (D10_js.center (nth 0 (D10_js.faceData D10_js.createD10Geometry)
                              D10_js.defaultFace))
          (D10_js.normal (nth 0 (D10_js.faceData D10_js.createD10Geometry)
                              D10_js.defaultFace))
          (Z.of_nat 0 + 1)
          (D10_js.topDir (nth 0 (D10_js.faceData D10_js.createD10Geometry)
                              D10_js.defaultFace)))
     = normalize
         (projectOnPlane
            (D10_js.topDir (nth 0 (D10_js.faceData D10_js.createD10Geometry)
                                D10_js.defaultFace))
            (D10_js.normal (nth 0 (D10_js.faceData D10_js.createD10Geometry)
                                D10_js.defaultFace))).
Proof.
  split; [lia |].
  apply (D10_label_up_direction 0). lia.
Defined.

(** ** The initial orientation *)

Lemma D4_reference_normal :
  lengthSq (faceTableNormal D4 3) = 1
  /\ 0.000001 <= vz (faceTableNormal D4 3) + 1.
Proof.
  unfold faceTableNormal, D4_js.geometry.
  assert (Hlen : (3 * 3 + 2 < List.length (TetrahedronGeometry 1))%nat)
    by (cbn; lia).
  pose proof (faceNormal_flat (TetrahedronGeometry 1) 3 Hlen) as HF.
  cbv zeta in HF.
  set (c := crossVectors _ _) in HF.
  assert (Ec : c = vec3 (- 4 / 3) (- 4 / 3) (- 4 / 3)).
  { subst c. cbn [Nat.mul Nat.add]. expose_entries.
    on_sphere (sqrt 3) sqrt3_pos ltac:(rewrite sqrt3_sq; lra).
    unfold crossVectors, subVectors. cbn [vx vy vz].
    pose proof sqrt3_sq. pose proof sqrt3_pos. by_field_ideal. }
  assert (Hc : lengthSq c <> 0).
  { rewrite Ec. unfold lengthSq, dot. cbn. lra. }
  rewrite (HF Hc). apply normal_ok; [exact Hc |].
  right. rewrite Ec. unfold lengthSq, dot. cbn. lra.
Qed.

Lemma wedge_cross_x (a0 a1 h0 h1 z s : R) :
  s <> 0 ->
  vx (crossVectors
        (subVectors (vec3 (- cos a1 / s) (- sin a1 / s) h1)
                    (vec3 (- cos a0 / s) (- sin a0 / s) h0))
        (subVectors (vec3 0 0 z) (vec3 (- cos a0 / s) (- sin a0 / s) h0)))
  = ((sin a0 - sin a1) * (z - h0) - (h1 - h0) * sin a0) / s.
Proof.
  intro Hs. unfold crossVectors, subVectors. cbn [vx vy vz]. field. exact Hs.
Qed.

Lemma sin_equator_9 : sin (equatorAngle 9) = - sin (PI / 5).
Proof.
  unfold equatorAngle.
  replace (INR 9 * PI * 2 / 10) with (- (PI / 5) + 2 * INR 1 * PI)
    by (cbn; field).
  rewrite sin_period, sin_neg. reflexivity.
Qed.

Lemma sin_equator_8 : sin (equatorAngle 8) = - sin (2 * (PI / 5)).
Proof.
  unfold equatorAngle.
  replace (INR 8 * PI * 2 / 10) with (- (2 * (PI / 5)) + 2 * INR 1 * PI)
    by (cbn; field).
  rewrite sin_period, sin_neg. reflexivity.
Qed.

Lemma sin_PI5_le : sin (PI / 5) <= sin (2 * (PI / 5)).
Proof.
  pose proof PI_RGT_0. apply Rlt_le, sin_increasing_1; lra.
Qed.

Lemma D10_s_bounds : 1 < D10_s < 1.01.
Proof.
  pose proof D10_s_pos. pose proof D10_s_sq. split; nra.
Qed.

Lemma D10_reference_normal :
  lengthSq (faceTableNormal D10 9) = 1
  /\ 0.000001 <= vz (faceTableNormal D10 9) + 1.
Proof.
  unfold faceTableNormal.
  rewrite (D10_faceData_nth _ 9) by lia.
  split; [apply D10_normal_unit; lia |].
  unfold D10_js.faceOf, fromBufferAttribute. cbn [D10_js.normal].
  destruct (D10_entries 9) as (E0 & E1 & E2); [lia |]. rewrite E0, E1, E2.
  pose proof (D10_face_cross_z 9) as Hz. specialize (Hz ltac:(lia)).
  set (c := crossVectors _ _) in *.
  pose proof sin_PI5_pos as S1. pose proof sin_PI5_le as S12.
  pose proof D10_s_bounds as [Hs1 Hs2].
  assert (Hx : vx c = - ((sin (2 * (PI / 5)) - sin (PI / 5))
                          * (1 + 0.105 * / D10_s)
                          + 0.21 * / D10_s * sin (PI / 5)) * / D10_s).
  { subst c. change (firstEquator 9) with 9%nat.
    change (secondEquator 9) with 8%nat. change (apexSign 9) with (-1).
    unfold equatorVertex. cbn [Nat.odd Nat.even negb].
    rewrite wedge_cross_x by lra.
    rewrite sin_equator_9, sin_equator_8.
    replace 0.105 with (21 / 200) by lra. replace 0.21 with (21 / 100) by lra.
    field. lra. }
  change (apexSign 9) with (-1) in Hz.
  set (s1 := sin (PI / 5)) in *. set (s2 := sin (2 * (PI / 5))) in *.
  set (i := / D10_s) in *.
  assert (Hi : i * D10_s = 1) by (unfold i; field; lra).
  assert (Hi0 : 0.99 < i < 1) by (split; nra).
  assert (Hz' : vz c = - s1 * i * i) by (rewrite Hz; unfold i; field; lra).
  assert (Hx' : vx c = - ((s2 - s1) * (1 + 0.105 * i) + 0.21 * i * s1) * i)
    by exact Hx.
  assert (Hxz : 0.04 * (vz c * vz c) <= vx c * vx c).
  { rewrite Hz', Hx'.
    assert (Hk : 0.21 * i * s1 <= (s2 - s1) * (1 + 0.105 * i) + 0.21 * i * s1)
      by nra.
    assert (H0 : 0 <= 0.21 * i * s1) by nra.
    set (k := (s2 - s1) * (1 + 0.105 * i) + 0.21 * i * s1) in *.
    assert (Hkk : (0.21 * i * s1) * (0.21 * i * s1) <= k * k) by nra.
    assert (Hii : 0 < i * i) by nra.
    nra. }
  assert (Hc : lengthSq c <> 0).
  { assert (Hii : 0 < i * i) by nra.
    assert (Hsi : 0 < s1 * (i * i)) by (apply Rmult_lt_0_compat; lra).
    assert (vz c < 0) by (rewrite Hz'; lra).
    unfold lengthSq, dot. nra. }
  apply normalize_z_bound; [exact Hc |]. right.
  unfold lengthSq, dot. nra.
Qed.

Lemma half_zero : 0 / 2 = 0.
Proof. field. Qed.

Lemma sqrt2_inv_sq : 1 / sqrt 2 * (1 / sqrt 2) = 1 / 2.
Proof.
  assert (H : sqrt 2 * sqrt 2 = 2) by (apply sqrt_sqrt; lra).
  assert (H0 : 0 < sqrt 2) by (apply sqrt_lt_R0; lra).
  field_simplify_eq; [| lra]. cbn [pow]. nra.
Qed.

(** The Euler table of D6.js sends the normal of every side of the box
    to the camera direction. *)
Lemma D6_getFaceQuaternion_aligned (n : Z) :
  (1 <= n <= 6)%Z ->
  applyQuaternion (boxGroupNormal (Z.to_nat (n - 1))) (D6_js.getFaceQuaternion n)
  = forward.
Proof.
  intro Hn.
  assert (Hc : (n = 1 \/ n = 2 \/ n = 3 \/ n = 4 \/ n = 5 \/ n = 6)%Z) by lia.
  pose proof sqrt2_inv_sq as Hq.
  assert (E4 : PI / 2 / 2 = PI / 4) by field.
  assert (E4' : - PI / 2 / 2 = - (PI / 4)) by field.
  destruct Hc as [-> | [-> | [-> | [-> | [-> | ->]]]]];
    match goal with
    | |- context [Z.to_nat ?z] =>
        let v := eval vm_compute in (Z.to_nat z) in
        change (Z.to_nat z) with v
    end;
    unfold D6_js.getFaceQuaternion, D6_js.orientations, setFromEuler,
      applyQuaternion, forward;
    cbn [ex ey ez qx qy qz qw boxGroupNormal vx vy vz];
    rewrite ?half_zero, ?E4, ?E4', ?cos_neg, ?sin_neg, ?cos_0, ?sin_0,
      ?cos_PI2, ?sin_PI2, ?cos_PI4, ?sin_PI4;
    set (k := 1 / sqrt 2) in *; f_equal; nra.
Qed.

Lemma D6_reference_aligned :
  applyQuaternion (faceTableNormal D6 5) D6_js.initialQuat = forward.
Proof. apply (D6_getFaceQuaternion_aligned 6). lia. Qed.

Lemma aligned_reference (T : Three) (n : Vector3) :
  lengthSq n = 1 /\ 0.000001 <= vz n + 1 ->
  applyQuaternion n (setFromUnitVectors (EPSILON T) n forward) = forward.
Proof.
  intros [Hu Hz]. apply setFromUnitVectors_forward.
  - exact Hu.
  - pose proof (EPSILON_small T). lra.
  - apply EPSILON_pos.
Qed.

Lemma initialQuat_aligned (T : Three) (d : Die) :
  applyQuaternion (faceTableNormal d (referenceFace d)) (initialQuat T d)
  = forward.
Proof.
  destruct d; cbn [referenceFace initialQuat].
  - apply (aligned_reference T _ D4_reference_normal).
  - apply D6_reference_aligned.
  - apply (aligned_reference T _ D8_reference_normal).
  - apply (aligned_reference T _ D10_reference_normal).
  - apply (aligned_reference T _ D12_reference_normal).
  - apply (aligned_reference T _ D20_reference_normal).
Qed.

(** Apart from D6 (Euler table) and D12, [rollDice] builds its target from
    the normal the die's own face table holds for the rolled face. *)
Lemma target_reads_own_table (T : Three) (d : Die) (i : nat) :
  d <> D6 -> d <> D12 ->
  targetQuaternion T d (Z.of_nat i)
  = setFromUnitVectors (EPSILON T) (faceTableNormal d i) forward.
Proof.
  intros H6 H12.
  destruct d; try contradiction; cbn [targetQuaternion faceTableNormal];
    rewrite Nat2Z.id; reflexivity.
Qed.

(** D12.js builds it from the flat normals of an icosahedron instead. *)
Lemma D12_target_reads_icosahedron (T : Three) (i : nat) :
  targetQuaternion T D12 (Z.of_nat i)
  = setFromUnitVectors (EPSILON T)
      (faceNormal (computeVertexNormals (IcosahedronGeometry 1)) i) forward.
Proof. cbn [targetQuaternion]. rewrite Nat2Z.id. reflexivity. Qed.

(** Until the first call of [roll()] the frames and the passing of time
    leave the mesh as the mount effects left it. *)
Lemma run_before_first_roll (T : Three) (d : Die) (es : list Event) :
  forall w, idle w -> targetQuat (state w) = None -> noClick es ->
    mesh (run T d w es) = mesh w.
Proof.
  induction es as [| e es IH]; intros w Hi Ht Hn; [reflexivity |].
  apply noClick_cons in Hn as [He Hn].
  destruct e as [u | delta u | dt]; [discriminate | |].
  - change (run T d w (Frame delta u :: es))
      with (run T d (useFrame T d w delta u) es).
    rewrite IH.
    + unfold useFrame. destruct Hi as [Hr _]. rewrite Hr, Ht. reflexivity.
    + destruct Hi as [Hr Htm]. split; [exact Hr | exact Htm].
    + exact Ht.
    + exact Hn.
  - change (run T d w (Elapse dt :: es)) with (run T d (elapse d w dt) es).
    destruct (elapse_idle d w dt Hi) as (Hi' & Es & _ & Em & _).
    rewrite IH; [exact Em | exact Hi' | rewrite Es; exact Ht | exact Hn].
Qed.

(** C8: before any roll the orientation of the mesh maps the outward
    normal of the reference face (index 3 for D4, face 6 for D6, index 7
    for D8, 9 for D10, 11 for D12, 19 for D20) onto (0, 0, 1). *)
Theorem initial_orientation_faces_camera (T : Three) (d : Die)
    (callback : bool) (es : list Event) :
  noClick es ->
  D6_js.initialQuat = setFromEuler (euler PI 0 0)
  /\ applyQuaternion (faceTableNormal d (referenceFace d))
       (quaternion (mesh (run T d (mount T d callback) es)))
     = forward.
Proof.
  intro Hn. split; [reflexivity |].
  rewrite run_before_first_roll;
    [| apply mount_idle | reflexivity | exact Hn].
  apply initialQuat_aligned.
Qed.

Lemma initial_orientation_faces_camera_witness :
  noClick [Frame 0.016 sampleSpin; Elapse 500]
  /\ applyQuaternion (faceTableNormal D10 (referenceFace D10))
       (quaternion (mesh (run three_classic D10 (mount three_classic D10 true)
                            [Frame 0.016 sampleSpin; Elapse 500])))
     = forward.
Proof.
  split; [reflexivity |].
  apply (initial_orientation_faces_camera three_classic D10 true
           [Frame 0.016 sampleSpin; Elapse 500]).
  reflexivity.
Defined.

(** ** The target of a D12 roll *)

(** C2: the target of a roll should align the rolled face of the die with
    the camera.  D12.js reads the normal from an icosahedron: on the roll
    that selects face number 10 (index 9) the target it hands over at the
    timeout turns the normal of that face of the dodecahedron away from
    the camera (negative z), although the roll is reported as a 10. *)
Theorem D12_target_misses_rolled_face (T : Three) :
  let w := run T D12 (mount T D12 true) [Click sampleRollD12; Elapse 1800] in
  result (state w) = 10%Z
  /\ map snd (reported w) = [10%Z]
  /\ targetQuat (state w) = Some (targetQuaternion T D12 9)
  /\ vz (applyQuaternion (faceTableNormal D12 9) (targetQuaternion T D12 9)) < 0.
Proof.
  cbv zeta.
  change (run T D12 (mount T D12 true) [Click sampleRollD12; Elapse 1800])
    with (elapse D12 (rollDice T D12 (mount T D12 true) sampleRollD12) 1800).
  assert (E9 : Zfloor (uFace sampleRollD12 * IZR (faceCount D12)) = 9%Z).
  { apply Zfloor_eq. cbn. lra. }
  destruct (rollDice_starts T D12 _ sampleRollD12 (mount_idle T D12 true))
    as (Hf & Hres & Hrep & Hnow & Hcb).
  unfold faceNumberOf in Hf, Hres. rewrite E9 in Hf, Hres.
  match type of Hf with inFlight _ ?t =>
    destruct (elapse_due D12 _ t 1800 Hf) as (_ & Ht & Hr & Hp & _)
  end.
  { rewrite Hnow. cbn. unfold D12_js.ROLL_DURATION_MS. lra. }
  cbn [timerTarget timerFaceNumber] in Ht, Hp.
  split; [rewrite Hr; exact Hres |].
  split; [rewrite Hp, Hrep; unfold reportOf; rewrite Hcb; reflexivity |].
  split; [exact Ht |].
  apply D12_target9_misaligned.
Qed.

(** ** Face centers *)

Lemma INR_3 : INR 3 = 3.
Proof. cbn. lra. Qed.

(** C5, as the code has it: the face table of the D10 and of the D12
    stores, for every face, the mean of the three vertices of the first
    triangle of the face (triangle [2f] of the D10, [3f] of the D12), and
    the normalized cross product of the two edge vectors [v1 - v0] and
    [v2 - v0] of that triangle. *)
Theorem face_center_is_first_triangle_mean (pos10 pos12 : list Vector3)
    (f g : nat) :
  (f < 10)%nat -> (g < 12)%nat ->
  let F := nth f (D10_js.faceData pos10) D10_js.defaultFace in
  let G := nth g (D12_js.faceData pos12) D12_js.defaultFace in
  (D10_js.center F = meanOf (firstTriangle pos10 2 f)
   /\ D10_js.normal F
      = normalize (crossVectors
                     (subVectors (nth (3 * 2 * f + 1) pos10 origin)
                                 (nth (3 * 2 * f) pos10 origin))
                     (subVectors (nth (3 * 2 * f + 2) pos10 origin)
                                 (nth (3 * 2 * f) pos10 origin))))
  /\ (D12_js.center G = meanOf (firstTriangle pos12 3 g)
      /\ D12_js.normal G
         = normalize (crossVectors
                        (subVectors (nth (3 * 3 * g + 1) pos12 origin)
                                    (nth (3 * 3 * g) pos12 origin))
                        (subVectors (nth (3 * 3 * g + 2) pos12 origin)
                                    (nth (3 * 3 * g) pos12 origin)))).
Proof.
  intros Hf Hg. cbv zeta.
  rewrite (D10_faceData_nth pos10 f Hf).
  assert (EG : nth g (D12_js.faceData pos12) D12_js.defaultFace
               = D12_js.faceOf pos12 g).
  { unfold D12_js.faceData.
    rewrite (nth_indep _ D12_js.defaultFace (D12_js.faceOf pos12 0))
      by (rewrite length_map, length_seq; exact Hg).
    rewrite (map_nth (D12_js.faceOf pos12) (seq 0 12) 0%nat g).
    rewrite seq_nth by exact Hg. reflexivity. }
  rewrite EG.
  unfold D10_js.faceOf, D12_js.faceOf, fromBufferAttribute, meanOf,
    firstTriangle.
  cbn [D10_js.center D10_js.normal D12_js.center D12_js.normal fold_left
       List.length].
  rewrite INR_3.
  replace (f * 2 * 3)%nat with (3 * 2 * f)%nat by lia.
  replace (g * 3 * 3)%nat with (3 * 3 * g)%nat by lia.
  repeat split; reflexivity.
Qed.

Lemma face_center_is_first_triangle_mean_witness :
  (0 < 10)%nat /\ (0 < 12)%nat
  /\ D12_js.center (nth 0 (D12_js.faceData D12_js.createD12Geometry)
                        D12_js.defaultFace)
     = meanOf (firstTriangle D12_js.createD12Geometry 3 0).
Proof.
  split; [lia |]. split; [lia |].
  apply (face_center_is_first_triangle_mean D10_js.createD10Geometry
           D12_js.createD12Geometry 0 0); lia.
Defined.

Lemma INR_9 : INR 9 = 9.
Proof. cbn. lra. Qed.

Lemma INR_5 : INR 5 = 5.
Proof. cbn. lra. Qed.

(** The height (y) of the stored center of D12 face 0, of the mean of the
    nine buffer entries of its three triangles, and of the mean of its
    five corners. *)
Lemma D12_face0_heights :
  vy (D12_js.center (nth 0 (D12_js.faceData D12_js.createD12Geometry)
                         D12_js.defaultFace))
    = (phi + 1) / (3 * sqrt 3)
  /\ vy (meanOf (faceVertices D12_js.createD12Geometry 3 0))
     = (4 * phi + 4) / (9 * sqrt 3)
  /\ vy (meanOf D12_face0_corners) = (3 * phi + 1) / (5 * sqrt 3).
Proof.
  pose proof sqrt3_pos as H3.
  unfold D12_face0_corners, faceVertices, D12_js.faceData.
  cbn [seq map nth]. unfold D12_js.faceOf, fromBufferAttribute, meanOf.
  cbn [D12_js.center Nat.mul Nat.add].
  unfold D12_js.createD12Geometry. expose_entries.
  cbn [firstn skipn fold_left List.length map nth].
  rewrite INR_9, INR_5.
  on_sphere (sqrt 3) sqrt3_pos dodeca_len.
  unfold divideScalar, multiplyScalar, add, origin. cbn [vx vy vz].
  rewrite phi_inv.
  repeat split; field; lra.
Qed.

(** C5 as stated fails on D12 face 0: the stored center is the centroid
    of the first of the three triangles of the pentagon, which is neither
    the mean of all the vertices of its three triangles nor the mean of
    its five corners. *)
Lemma D12_center_is_not_face_mean :
  D12_js.center (nth 0 (D12_js.faceData D12_js.createD12Geometry)
                     D12_js.defaultFace)
    <> meanOf (faceVertices D12_js.createD12Geometry 3 0)
  /\ D12_js.center (nth 0 (D12_js.faceData D12_js.createD12Geometry)
                        D12_js.defaultFace)
     <> meanOf D12_face0_corners.
Proof.
  destruct D12_face0_heights as (Hc & Hm & Hk).
  pose proof sqrt3_pos as H3. pose proof phi_bounds as Hphi.
  assert (Hi : 0 < / sqrt 3) by (apply Rinv_0_lt_compat; exact H3).
  split; intro E; apply (f_equal vy) in E.
  - rewrite Hc, Hm in E.
    assert (E' : (phi + 1) / 3 * / sqrt 3 = (4 * phi + 4) / 9 * / sqrt 3).
    { transitivity ((phi + 1) / (3 * sqrt 3)); [field; lra |].
      rewrite E. field. lra. }
    nra.
  - rewrite Hc, Hk in E.
    assert (E' : (phi + 1) / 3 * / sqrt 3 = (3 * phi + 1) / 5 * / sqrt 3).
    { transitivity ((phi + 1) / (3 * sqrt 3)); [field; lra |].
      rewrite E. field. lra. }
    nra.
Qed.

(* ================================================================== *)
(** * Part III. Further properties of the six files *)
(* ================================================================== *)

(** ** The controller, from mount onward *)



(** What the timers that fire leave alone. *)
Lemma timeouts_keep (d : Die) (ts : list Timer) :
  forall w,
    let w' := fold_left (timeoutCallback d) ts w in
    result (state w') = result (state w)
    /\ initialQuatState (state w') = initialQuatState (state w)
    /\ resetSignal (state w') = resetSignal (state w)
    /\ rollDirection (state w') = rollDirection (state w)
    /\ mesh w' = mesh w /\ timers w' = timers w
    /\ onRollComplete w' = onRollComplete w /\ now w' = now w.
Proof.
  induction ts as [| t ts IH]; intro w; cbn [fold_left].
  - repeat split; reflexivity.
  - cbv zeta in IH |- *.
    destruct (IH (timeoutCallback d w t)) as (A & B & C & D & E & F & G & H).
    cbn in A, B, C, D, E, F, G, H. repeat split; assumption.
Qed.

Lemma timeouts_reported (d : Die) (ts : list Timer) :
  forall w, timeoutNotifies d = true -> onRollComplete w = true ->
    exists taus,
      List.length taus = List.length ts
      /\ reported (fold_left (timeoutCallback d) ts w)
         = reported w ++ combine taus (map timerFaceNumber ts).
Proof.
  induction ts as [| t ts IH]; intros w Hd Hc; cbn [fold_left].
  - exists []. split; [reflexivity |]. cbn. now rewrite app_nil_r.
  - destruct (IH (timeoutCallback d w t) Hd Hc) as (taus & Hl & Hr).
    exists (now w :: taus). split; [cbn; lia |].
    rewrite Hr. cbn [timeoutCallback reported]. rewrite Hd, Hc. cbn.
    rewrite <- app_assoc. reflexivity.
Qed.

Lemma filter_split_length {A : Type} (p : A -> bool) (l : list A) :
  (List.length (filter p l) + List.length (filter (fun x => negb (p x)) l)
   = List.length l)%nat.
Proof.
  induction l as [| a l IH]; cbn; [reflexivity |].
  destruct (p a); cbn; lia.
Qed.

Lemma run_accounted (T : Three) (d : Die) (es : list Event) :
  timeoutNotifies d = true ->
  forall w, onRollComplete w = true ->
    (List.length (reported w) + List.length (timers w))%nat
    = resetSignal (state w) ->
    onRollComplete (run T d w es) = true
    /\ (List.length (reported (run T d w es))
        + List.length (timers (run T d w es)))%nat
       = resetSignal (state (run T d w es)).
Proof.
  intro Hd. induction es as [| e es IH]; intros w Hc Hw; [now split |].
  change (run T d w (e :: es)) with (run T d (step T d w e) es).
  destruct e as [u | delta u | dt]; cbn [step].
  - apply IH.
    + unfold rollDice. destruct (rolling (state w)); exact Hc.
    + unfold rollDice. destruct (rolling (state w)); [exact Hw |].
      cbn [reported timers state resetSignal]. rewrite length_app. cbn. lia.
  - apply IH; [exact Hc | exact Hw].
  - apply IH.
    + unfold elapse.
      match goal with |- onRollComplete (fold_left _ ?ts ?w0) = _ =>
        destruct (timeouts_keep d ts w0) as (_ & _ & _ & _ & _ & _ & G & _)
      end. rewrite G. exact Hc.
    + unfold elapse.
      match goal with |- context [fold_left _ ?ts ?w0] =>
        destruct (timeouts_keep d ts w0) as (_ & _ & C & _ & _ & F & _ & _);
        destruct (timeouts_reported d ts w0 Hd Hc) as (taus & Hl & Hr)
      end.
      rewrite Hr, C, F. cbn [reported timers state].
      rewrite length_app, length_combine, length_map, Hl, Nat.min_id.
      pose proof (filter_split_length
                    (fun t : Timer => Rleb (due t) (now w + dt)) (timers w)).
      lia.
Qed.

(** X3: on the five dice whose timeout notifies, mounted with a callback,
    no started roll is lost and none is reported twice: whatever the
    clicks, the frames and the passing of time, the number of rolls
    started so far is the number of calls of [onRollComplete] plus the
    number of pending timers. *)
Theorem started_rolls_accounted (T : Three) (d : Die) (es : list Event) :
  timeoutNotifies d = true ->
  let w := run T d (mount T d true) es in
  (List.length (reported w) + List.length (timers w))%nat
  = resetSignal (state w).
Proof.
  intro Hd. cbv zeta.
  apply (run_accounted T d es Hd (mount T d true)); reflexivity.
Qed.

Lemma started_rolls_accounted_witness :
  timeoutNotifies D6 = true
  /\ (List.length (reported (run three_classic D6 (mount three_classic D6 true)
                               [Click sampleRoll; Elapse 1000; Click sampleRoll']))
      + List.length (timers (run three_classic D6 (mount three_classic D6 true)
                               [Click sampleRoll; Elapse 1000; Click sampleRoll'])))%nat
     = resetSignal (state (run three_classic D6 (mount three_classic D6 true)
                             [Click sampleRoll; Elapse 1000; Click sampleRoll'])).
Proof.
  split; [reflexivity |].
  apply (started_rolls_accounted three_classic D6
           [Click sampleRoll; Elapse 1000; Click sampleRoll']).
  reflexivity.
Defined.

Lemma elapse_cases (d : Die) (w : World) (t : Timer) (dt : R) :
  inFlight w t ->
  (inFlight (elapse d w dt) t /\ state (elapse d w dt) = state w
   /\ reported (elapse d w dt) = reported w)
  \/ (idle (elapse d w dt)
      /\ targetQuat (state (elapse d w dt)) = Some (timerTarget t)
      /\ result (state (elapse d w dt)) = result (state w)
      /\ initialQuatState (state (elapse d w dt)) = initialQuatState (state w)
      /\ reported (elapse d w dt)
         = reported w ++ reportOf d w (now w + dt) (timerFaceNumber t)).
Proof.
  intro Hf. destruct (Rle_dec (due t) (now w + dt)) as [Hle | Hgt].
  - right. destruct (elapse_due d w t dt Hf Hle) as (A & B & C & D & _).
    repeat split; try assumption; try apply A.
    destruct Hf as [_ Ht]. unfold elapse. rewrite Ht. cbn.
    apply Rleb_true in Hle. rewrite Hle. reflexivity.
  - left. assert (Hlt : now w + dt < due t) by lra.
    destruct (elapse_before_due d w t dt Hf Hlt) as (A & B & C & _).
    repeat split; try assumption; apply A.
Qed.

Lemma mount_consistent (T : Three) (d : Die) (callback : bool) :
  consistent T d (mount T d callback).
Proof.
  split; [| split; [| split]].
  - cbn. unfold isFace, initialResult. pose proof (faceCount_pos d). lia.
  - reflexivity.
  - left. split; [apply mount_idle | left; reflexivity].
  - constructor.
Qed.

Lemma run_consistent (T : Three) (d : Die) (es : list Event) :
  forall w, samplesOk es -> consistent T d w -> consistent T d (run T d w es).
Proof.
  induction es as [| e es IH]; intros w Hs Hw; [exact Hw |].
  change (run T d w (e :: es)) with (run T d (step T d w e) es).
  destruct Hw as (Hres & Hq & Hmode & Hrep).
  destruct e as [u | delta u | dt]; cbn [step samplesOk] in *.
  - destruct Hs as [Hu Hs]. apply IH; [exact Hs |]. unfold consistent.
    destruct Hmode as [[Hi Htq] | (t & Hf & Hn & Ht)].
    + destruct (rollDice_starts T d w u Hi) as (A & B & C & _).
      cbv zeta in A, B, C.
      assert (Hin : isFace d (faceNumberOf d (uFace u)))
        by (apply faceNumberOf_range, Hu).
      split; [rewrite B; exact Hin |].
      split; [unfold rollDice; rewrite (proj1 Hi); exact Hq |].
      split; [| rewrite C; exact Hrep].
      right. eexists. split; [exact A |]. cbn [timerFaceNumber timerTarget].
      rewrite B. split; [reflexivity |]. f_equal. unfold faceNumberOf. lia.
    + assert (E : rollDice T d w u = w)
        by (unfold rollDice; rewrite (proj1 Hf); reflexivity).
      rewrite E. split; [| split; [| split]]; try assumption.
      right. now exists t.
  - apply IH; [exact Hs |].
    destruct (useFrame_controller T d w delta u) as (Es & Et & Er & _).
    cbv zeta in Es, Et, Er. unfold consistent, idle, inFlight.
    rewrite Es, Et, Er. split; [| split; [| split]]; assumption.
  - apply IH; [exact Hs |].
    destruct Hmode as [[Hi Htq] | (t & Hf & Hn & Ht)].
    + destruct (elapse_idle d w dt Hi) as (A & B & C & _).
      cbv zeta in A, B, C. unfold consistent. rewrite B, C.
      split; [| split; [| split]]; try assumption. left. split; assumption.
    + destruct (elapse_cases d w t dt Hf)
        as [(A & B & C) | (A & B & C & D & E)].
      * unfold consistent. rewrite B, C.
        split; [| split; [| split]]; try assumption.
        right. now exists t.
      * unfold consistent. rewrite B, C, D, E.
        split; [| split; [| split]]; try assumption.
        -- left. split; [exact A |]. right. now rewrite Ht.
        -- apply Forall_app. split; [exact Hrep |].
           unfold reportOf.
           destruct (timeoutNotifies d && onRollComplete w);
             [| constructor].
           constructor; [| constructor]. cbn. rewrite Hn. exact Hres.
Qed.

(** X2: the states a mounted die can reach.  Whatever the clicks (with
    samples in [0, 1)), frames and timeouts: the shown result is a face
    number of the die; the stored initial quaternion is the one computed
    at mount; either no roll is in flight and the settle target, if any,
    is the one computed for the shown result, or exactly one timer is
    pending and it carries the shown result and its target; every number
    handed to [onRollComplete] is a face number. *)
Theorem reachable_controller_states (T : Three) (d : Die) (callback : bool)
    (es : list Event) :
  samplesOk es ->
  let w := run T d (mount T d callback) es in
  isFace d (result (state w))
  /\ initialQuatState (state w) = initialQuat T d
  /\ ((idle w
       /\ (targetQuat (state w) = None
           \/ targetQuat (state w)
              = Some (targetQuaternion T d (result (state w) - 1))))
      \/ exists t, inFlight w t
           /\ timerFaceNumber t = result (state w)
           /\ timerTarget t = targetQuaternion T d (result (state w) - 1))
  /\ Forall (fun r => isFace d (snd r)) (reported w).
Proof.
  intro Hs. apply (run_consistent T d es _ Hs), mount_consistent.
Qed.

Lemma reachable_controller_states_witness :
  isFace D8 (result (state (run three_classic D8 (mount three_classic D8 true)
                              [Click sampleRoll; Elapse 1800;
                               Click sampleRoll'; Elapse 100]))).
Proof.
  apply (reachable_controller_states three_classic D8 true
           [Click sampleRoll; Elapse 1800; Click sampleRoll'; Elapse 100]).
  cbn. unfold rollSamplesOk, inUnit. cbn. lra.
Defined.

Lemma run_keeps_initialQuat (T : Three) (d : Die) (es : list Event) :
  forall w, initialQuatState (state (run T d w es)) = initialQuatState (state w).
Proof.
  induction es as [| e es IH]; intro w; [reflexivity |].
  change (run T d w (e :: es)) with (run T d (step T d w e) es).
  rewrite IH. destruct e as [u | delta u | dt]; cbn [step].
  - unfold rollDice. destruct (rolling (state w)); reflexivity.
  - reflexivity.
  - unfold elapse.
    match goal with |- context [fold_left _ ?ts ?w0] =>
      destruct (timeouts_keep d ts w0) as (_ & B & _)
    end. exact B.
Qed.

(** X5: every roll that starts, however long the die has been in use,
    starts from the same pose: the reset effect puts both the physics
    position and the rendered position at the origin, clears the bounce
    flag, gives the velocity (3 dir.x, 4 dir.y, 3 dir.z) and turns the die
    so that its reference face (the highest number) looks at the camera. *)
Theorem roll_restarts_from_reference (T : Three) (d : Die) (callback : bool)
    (es : list Event) (u : RollSamples) :
  let w := run T d (mount T d callback) es in
  rolling (state w) = false ->
  let w1 := rollDice T d w u in
  pos (mesh w1) = vec3 0 0 0
  /\ position (mesh w1) = vec3 0 0 0
  /\ hasBounced (mesh w1) = false
  /\ velocity (mesh w1)
     = vec3 (vx (rollDirection (state w1)) * 3)
            (vy (rollDirection (state w1)) * 4)
            (vz (rollDirection (state w1)) * 3)
  /\ applyQuaternion (faceTableNormal d (referenceFace d)) (quaternion (mesh w1))
     = forward.
Proof.
  cbv zeta. intro Hr.
  pose proof (run_keeps_initialQuat T d es (mount T d callback)) as Hq.
  unfold rollDice. rewrite Hr. cbn [mesh resetEffect pos position hasBounced
    velocity quaternion state rollDirection initialQuatState].
  repeat split; try reflexivity.
  rewrite Hq. cbn [mount state initialQuatState]. apply initialQuat_aligned.
Qed.

Lemma roll_restarts_from_reference_witness :
  pos (mesh (rollDice three_classic D6
               (run three_classic D6 (mount three_classic D6 true)
                  [Click sampleRoll; Frame 0.5 sampleSpin; Elapse 1000])
               sampleRoll')) = vec3 0 0 0.
Proof.
  apply (roll_restarts_from_reference three_classic D6 true
           [Click sampleRoll; Frame 0.5 sampleSpin; Elapse 1000] sampleRoll').
  unfold run; cbn [fold_left step].
  refine (proj1 (proj1 (elapse_due D6 _ _ 1000 _ _))).
  - split; reflexivity.
  - cbn. unfold D6_js.ROLL_DURATION_MS. lra.
Defined.

(** X4: the launch.  With samples in [0, 1) the sampled vector is never
    zero, so the stored roll direction is a unit vector; its vertical
    component is above 0.64 and the horizontal ones are below 0.65 in
    size.  The die therefore always leaves upward, with vertical speed
    between 2.56 and 4 and each horizontal speed below 1.95. *)
Theorem launch_velocity_bounds (T : Three) (d : Die) (w : World)
    (u : RollSamples) :
  rolling (state w) = false -> rollSamplesOk u ->
  let w1 := rollDice T d w u in
  lengthSq (rollDirection (state w1)) = 1
  /\ 2.56 < vy (velocity (mesh w1)) <= 4
  /\ -1.95 < vx (velocity (mesh w1)) < 1.95
  /\ -1.95 < vz (velocity (mesh w1)) < 1.95.
Proof.
  intros Hr (_ & [X0 X1] & [Y0 Y1] & [Z0 Z1]). cbv zeta.
  unfold rollDice. rewrite Hr.
  cbn [state mesh rollDirection resetEffect velocity].
  set (a := (uX u - 0.5) * 2). set (b := uY u * 1.5 + 1.2).
  set (c := (uZ u - 0.5) * 2).
  assert (Ha : -1 <= a < 1) by (unfold a; lra).
  assert (Hb : 1.2 <= b < 2.7) by (unfold b; lra).
  assert (Hc : -1 <= c < 1) by (unfold c; lra).
  assert (Hne : lengthSq (vec3 a b c) <> 0).
  { unfold lengthSq, dot; cbn. nra. }
  pose proof (length_pos _ Hne) as Hl.
  pose proof (length_sq (vec3 a b c)) as Hsq.
  unfold lengthSq at 1, dot in Hsq. cbn in Hsq.
  split; [apply normalize_unit, Hne |].
  rewrite (normalize_nonzero _ Hne). cbn [vx vy vz].
  set (l := length (vec3 a b c)) in *.
  assert (Hil : 0 < / l) by (apply Rinv_0_lt_compat, Hl).
  assert (E : forall x, x / l * l = x) by (intro x; field; lra).
  assert (Hlb : b <= l) by nra.
  assert (Hl1 : 1.2 <= l) by lra.
  assert (Hy : 0.64 * l < b) by nra.
  assert (Hxa : a * a <= 0.41 * (l * l)) by nra.
  assert (Hxc : c * c <= 0.41 * (l * l)) by nra.
  assert (Hax : -0.65 * l < a < 0.65 * l) by nra.
  assert (Hcx : -0.65 * l < c < 0.65 * l) by nra.
  assert (Q : forall x k, k * l < x -> k < x / l).
  { intros x k H. apply Rmult_lt_reg_r with l; [exact Hl | rewrite E; exact H]. }
  assert (Q' : forall x k, x < k * l -> x / l < k).
  { intros x k H. apply Rmult_lt_reg_r with l; [exact Hl | rewrite E; exact H]. }
  assert (Q'' : b / l <= 1).
  { apply Rmult_le_reg_r with l; [exact Hl | rewrite E; lra]. }
  pose proof (Q b 0.64 Hy). 
  pose proof (Q a (-0.65) (proj1 Hax)). pose proof (Q' a 0.65 (proj2 Hax)).
  pose proof (Q c (-0.65) (proj1 Hcx)). pose proof (Q' c 0.65 (proj2 Hcx)).
  repeat split; lra.
Qed.

Lemma launch_velocity_bounds_witness :
  2.56 < vy (velocity (mesh (rollDice three_classic D12
                               (mount three_classic D12 true) sampleRoll'))).
Proof.
  apply (launch_velocity_bounds three_classic D12 (mount three_classic D12 true)
           sampleRoll').
  - reflexivity.
  - unfold rollSamplesOk, inUnit. cbn. lra.
Defined.

(** ** Sequences of tumbling and settling frames *)

Lemma GRAVITY_all (d : Die) : GRAVITY d = -9.8.
Proof. destruct d; reflexivity. Qed.

Lemma launch_vertical (T : Three) (d : Die) (w : World) (u : RollSamples) :
  rolling (state w) = false -> rollSamplesOk u ->
  2.56 < vy (velocity (mesh (rollDice T d w u))) <= 4.
Proof.
  intros Hr (_ & [X0 X1] & [Y0 Y1] & [Z0 Z1]).
  unfold rollDice. rewrite Hr.
  cbn [state mesh rollDirection resetEffect velocity].
  set (a := (uX u - 0.5) * 2). set (b := uY u * 1.5 + 1.2).
  set (c := (uZ u - 0.5) * 2).
  assert (Ha : -1 <= a < 1) by (unfold a; lra).
  assert (Hb : 1.2 <= b < 2.7) by (unfold b; lra).
  assert (Hc : -1 <= c < 1) by (unfold c; lra).
  assert (Hne : lengthSq (vec3 a b c) <> 0).
  { unfold lengthSq, dot; cbn. nra. }
  pose proof (length_pos _ Hne) as Hl.
  pose proof (length_sq (vec3 a b c)) as Hsq.
  unfold lengthSq at 1, dot in Hsq. cbn in Hsq.
  rewrite (normalize_nonzero _ Hne). cbn [vx vy vz].
  set (l := length (vec3 a b c)) in *.
  assert (E : b / l * l = b) by (field; lra).
  assert (Hlb : b <= l) by nra.
  assert (Hy : 0.64 * l < b) by nra.
  split.
  - assert (0.64 < b / l)
      by (apply Rmult_lt_reg_r with l; [exact Hl | rewrite E; exact Hy]).
    lra.
  - assert (b / l <= 1)
      by (apply Rmult_le_reg_r with l; [exact Hl | rewrite E; lra]).
    lra.
Qed.

Lemma floorContacts_none (d : Die) (frames : list (R * SpinSamples)) :
  forall (m : Mesh) (S0 v0 : R),
    hasBounced m = false ->
    vy (velocity m) = v0 - 5.88 * S0 ->
    v0 * S0 - 2.94 * (S0 * S0 + / 3 * S0) <= vy (pos m) ->
    0 <= S0 -> 2.56 <= v0 ->
    Forall (fun f => 0 <= fst f <= / 3) frames ->
    S0 + totalDelta frames <= 1 ->
    floorContacts d m frames = 0%nat
    /\ hasBounced (tumbleFrames d m frames) = false
    /\ -1.4 < vy (pos (tumbleFrames d m frames)).
Proof.
  induction frames as [| [delta u] frames IH];
    intros m S0 v0 Hb Hv Hp HS Hv0 Hf Htot.
  - cbn in *. repeat split; [exact Hb | nra].
  - inversion Hf as [| f fs [Hd0 Hd1] Hf' E]; subst. cbn [fst] in *.
    cbn [totalDelta fold_right fst] in Htot.
    fold (totalDelta frames) in Htot.
    assert (Ht0 : 0 <= totalDelta frames).
    { clear - Hf'. induction Hf' as [| f fs [H0 _] _ IH']; cbn; [lra |].
      fold (totalDelta fs). lra. }
    assert (Hp1 : v0 * (S0 + delta)
                  - 2.94 * ((S0 + delta) * (S0 + delta) + / 3 * (S0 + delta))
                  <= vy (pos m)
                     + (vy (velocity m) + GRAVITY d * delta * 0.6) * delta).
    { rewrite GRAVITY_all, Hv. nra. }
    assert (Hc : floorContact d m delta = false).
    { unfold floorContact. rewrite Hb. cbn [negb]. rewrite andb_true_r.
      apply Rltb_false. nra. }
    destruct (tumble_no_contact d m delta u Hc) as (Ep & Ev & Eb).
    cbn [floorContacts tumbleFrames fold_left fst snd]. rewrite Hc.
    apply (IH (tumble d m delta u) (S0 + delta) v0).
    + congruence.
    + rewrite Ev, GRAVITY_all, Hv. lra.
    + rewrite Ep. exact Hp1.
    + lra.
    + exact Hv0.
    + exact Hf'.
    + lra.
Qed.

(** X6: a D6 never reaches the floor.  [ROLL_DURATION_MS] is 1000 in
    D6.js and every launch leaves upward faster than 2.56, so whatever
    the samples and however the second of tumbling is cut into frames (of
    1/3 s at most), no frame sees the die below -1.4: the bounce branch
    never runs and [hasBounced] is still false when the timeout fires. *)
Theorem D6_never_reaches_floor (T : Three) (w : World) (u : RollSamples)
    (frames : list (R * SpinSamples)) :
  rolling (state w) = false -> rollSamplesOk u ->
  Forall (fun f => 0 <= fst f <= / 3) frames ->
  totalDelta frames <= ROLL_DURATION_MS D6 / 1000 ->
  let m := mesh (rollDice T D6 w u) in
  floorContacts D6 m frames = 0%nat
  /\ hasBounced (tumbleFrames D6 m frames) = false
  /\ -1.4 < vy (pos (tumbleFrames D6 m frames)).
Proof.
  intros Hr Hu Hf Htot. cbv zeta.
  destruct (launch_vertical T D6 w u Hr Hu) as [Hlo _].
  destruct (rollDice_resets_bounce T D6 w u Hr) as [Hb Hp].
  apply (floorContacts_none D6 frames _ 0
           (vy (velocity (mesh (rollDice T D6 w u))))).
  - exact Hb.
  - lra.
  - rewrite Hp. cbn. lra.
  - lra.
  - lra.
  - exact Hf.
  - cbn in Htot. unfold D6_js.ROLL_DURATION_MS in Htot. lra.
Qed.

Lemma D6_never_reaches_floor_witness :
  floorContacts D6 (mesh (rollDice three_classic D6 (mount three_classic D6 true)
                            sampleRoll'))
    [(0.25, sampleSpin); (0.25, sampleSpin); (0.3, sampleSpin)] = 0%nat.
Proof.
  apply (D6_never_reaches_floor three_classic (mount three_classic D6 true)
           sampleRoll' [(0.25, sampleSpin); (0.25, sampleSpin); (0.3, sampleSpin)]).
  - reflexivity.
  - unfold rollSamplesOk, inUnit. cbn. lra.
  - repeat constructor; cbn; lra.
  - cbn. unfold D6_js.ROLL_DURATION_MS. lra.
Defined.

Lemma floorContacts_once (d : Die) (frames : list (R * SpinSamples)) :
  forall (m : Mesh) (S0 v0 : R),
    hasBounced m = false ->
    vy (velocity m) = v0 - 5.88 * S0 ->
    -1.4 <= vy (pos m) <= v0 * S0 - 2.94 * (S0 * S0) ->
    v0 <= 4 ->
    1.65 <= S0 + totalDelta frames ->
    floorContacts d m frames = 1%nat
    /\ hasBounced (tumbleFrames d m frames) = true.
Proof.
  induction frames as [| [delta u] frames IH];
    intros m S0 v0 Hb Hv Hp Hv0 Htot.
  - cbn in Htot. exfalso. nra.
  - cbn [totalDelta fold_right fst] in Htot. fold (totalDelta frames) in Htot.
    cbn [floorContacts tumbleFrames fold_left fst snd].
    destruct (floorContact d m delta) eqn:Hc.
    + destruct (tumble_contact d m delta u Hc) as (_ & _ & Hb').
      rewrite (floorContacts_after_bounce d frames _ Hb').
      split; [reflexivity |].
      clear - Hb'. revert Hb'. generalize (tumble d m delta u).
      induction frames as [| [delta' u'] frames IH]; intros m' Hb';
        [exact Hb' |].
      cbn [fold_left fst snd]. apply IH.
      assert (Hc' : floorContact d m' delta' = false)
        by (unfold floorContact; rewrite Hb'; apply andb_false_r).
      destruct (tumble_no_contact d m' delta' u' Hc') as (_ & _ & E).
      congruence.
    + destruct (tumble_no_contact d m delta u Hc) as (Ep & Ev & Eb).
      assert (Hge : -1.4 <= vy (pos m)
                    + (vy (velocity m) + GRAVITY d * delta * 0.6) * delta).
      { unfold floorContact in Hc. rewrite Hb in Hc. cbn [negb] in Hc.
        rewrite andb_true_r in Hc. apply Rltb_false in Hc. exact Hc. }
      cbn [Nat.add].
      apply (IH (tumble d m delta u) (S0 + delta) v0).
      * congruence.
      * rewrite Ev, GRAVITY_all, Hv. lra.
      * rewrite Ep. split; [exact Hge |]. rewrite GRAVITY_all, Hv. nra.
      * exact Hv0.
      * lra.
Qed.

(** X7: the bounce of the other dice.  A launch is never faster than 4
    upward, so once the tumbling frames of a roll add up to 1.65 s --
    inside the 1.8 s that D4, D8, D10, D12 and D20 tumble -- the die has
    been below -1.4 in some frame: the bounce branch has run, and it has
    run exactly once, whatever the frame lengths. *)
Theorem long_roll_bounces_once (T : Three) (d : Die) (w : World)
    (u : RollSamples) (frames : list (R * SpinSamples)) :
  rolling (state w) = false -> rollSamplesOk u ->
  1.65 <= totalDelta frames ->
  let m := mesh (rollDice T d w u) in
  floorContacts d m frames = 1%nat
  /\ hasBounced (tumbleFrames d m frames) = true
  /\ (d <> D6 -> 1.65 < ROLL_DURATION_MS d / 1000).
Proof.
  intros Hr Hu Htot. cbv zeta.
  destruct (launch_vertical T d w u Hr Hu) as [_ Hhi].
  destruct (rollDice_resets_bounce T d w u Hr) as [Hb Hp].
  split; [| split].
  1, 2: apply (floorContacts_once d frames _ 0
                 (vy (velocity (mesh (rollDice T d w u)))));
    [exact Hb | lra | rewrite Hp; cbn; lra | exact Hhi | lra].
  intro Hd. destruct d; try contradiction; cbn;
    unfold D4_js.ROLL_DURATION_MS, D8_js.ROLL_DURATION_MS,
      D10_js.ROLL_DURATION_MS, D12_js.ROLL_DURATION_MS,
      D20_js.ROLL_DURATION_MS; lra.
Qed.

Lemma long_roll_bounces_once_witness :
  floorContacts D20 (mesh (rollDice three_classic D20
                             (mount three_classic D20 true) sampleRoll))
    [(0.9, sampleSpin); (0.8, sampleSpin)] = 1%nat.
Proof.
  apply (long_roll_bounces_once three_classic D20 (mount three_classic D20 true)
           sampleRoll [(0.9, sampleSpin); (0.8, sampleSpin)]).
  - reflexivity.
  - unfold rollSamplesOk, inUnit. cbn. lra.
  - cbn. lra.
Defined.

(** X8: across any number of tumbling frames, bounce or not, gravity and
    the floor act on the vertical axis only: the horizontal velocity is
    the launch velocity, and the die has drifted by that velocity times
    the sum of the frame lengths. *)
Theorem tumble_horizontal_drift (d : Die) (frames : list (R * SpinSamples))
    (m : Mesh) :
  let m' := tumbleFrames d m frames in
  vx (velocity m') = vx (velocity m)
  /\ vz (velocity m') = vz (velocity m)
  /\ vx (pos m') = vx (pos m) + vx (velocity m) * totalDelta frames
  /\ vz (pos m') = vz (pos m) + vz (velocity m) * totalDelta frames.
Proof.
  cbv zeta. revert m.
  induction frames as [| [delta u] frames IH]; intro m.
  - cbn. repeat split; lra.
  - cbn [tumbleFrames fold_left fst snd totalDelta fold_right].
    fold (totalDelta frames). fold (tumbleFrames d (tumble d m delta u) frames).
    destruct (IH (tumble d m delta u)) as (A & B & C & D).
    rewrite A, B, C, D. unfold tumble. cbn [velocity pos].
    destruct (Rltb _ _ && negb (hasBounced m)); cbn [vx vz addScaledVector];
      repeat split; lra.
Qed.

Lemma tumbleFrames_bounced (d : Die) (frames : list (R * SpinSamples)) :
  forall m, hasBounced m = true ->
    hasBounced (tumbleFrames d m frames) = true
    /\ vy (velocity (tumbleFrames d m frames))
       = vy (velocity m) + GRAVITY d * 0.6 * totalDelta frames
    /\ (Forall (fun f => 0 <= fst f) frames ->
        vy (pos (tumbleFrames d m frames))
        <= vy (pos m) + vy (velocity m) * totalDelta frames
           + GRAVITY d * 0.6 / 2 * (totalDelta frames * totalDelta frames)).
Proof.
  induction frames as [| [delta u] frames IH]; intros m Hb.
  - cbn. repeat split; [exact Hb | lra | intros _; lra].
  - cbn [tumbleFrames fold_left fst snd totalDelta fold_right].
    fold (totalDelta frames). fold (tumbleFrames d (tumble d m delta u) frames).
    assert (Hc : floorContact d m delta = false)
      by (unfold floorContact; rewrite Hb; apply andb_false_r).
    destruct (tumble_no_contact d m delta u Hc) as (Ep & Ev & Eb).
    destruct (IH (tumble d m delta u)) as (A & B & C); [congruence |].
    split; [exact A |]. split; [rewrite B, Ev; lra |].
    intro Hf. inversion Hf as [| f fs Hd Hf' E]; subst. cbn [fst] in Hd.
    specialize (C Hf'). rewrite Ep, Ev in C.
    assert (Ht0 : 0 <= totalDelta frames).
    { clear - Hf'. induction Hf' as [| f fs H0 _ IH']; cbn; [lra |].
      fold (totalDelta fs). lra. }
    rewrite GRAVITY_all in *. nra.
Qed.

(** X9: the floor acts once.  From the frame that sets [hasBounced] on,
    the branch that clamps the height never runs again: the vertical
    velocity is the velocity after the bounce plus [GRAVITY * 0.6] times
    the time since, and the height stays under the parabola through the
    bounce -- with nothing to stop the die at -1.4 when it comes down
    again. *)
Theorem floor_acts_once (d : Die) (frames : list (R * SpinSamples))
    (m : Mesh) :
  hasBounced m = true ->
  Forall (fun f => 0 <= fst f) frames ->
  let m' := tumbleFrames d m frames in
  let t := totalDelta frames in
  floorContacts d m frames = 0%nat
  /\ vy (velocity m') = vy (velocity m) + GRAVITY d * 0.6 * t
  /\ vy (pos m') <= vy (pos m) + vy (velocity m) * t - 2.94 * (t * t)
  /\ (vy (pos m) = -1.4 -> 0 < t -> vy (velocity m) < 2.94 * t ->
      vy (pos m') < -1.4).
Proof.
  intros Hb Hf. cbv zeta.
  destruct (tumbleFrames_bounced d frames m Hb) as (_ & B & C).
  specialize (C Hf). rewrite GRAVITY_all in C.
  assert (Ht0 : 0 <= totalDelta frames).
  { clear - Hf. induction Hf as [| f fs H0 _ IH']; cbn; [lra |].
    fold (totalDelta fs). lra. }
  split; [apply floorContacts_after_bounce, Hb |].
  split; [exact B |]. split; [lra |].
  intros Hp Ht Hv.
  assert (0 < (2.94 * totalDelta frames - vy (velocity m)) * totalDelta frames)
    by (apply Rmult_lt_0_compat; lra).
  lra.
Qed.

Lemma floor_acts_once_witness :
  let m := {| velocity := vec3 1 2 1; pos := vec3 0.5 (-1.4) 0.5;
              hasBounced := true; position := vec3 0.5 (-1.5) 0.5;
              rotation := euler 0 0 0; quaternion := identityQuaternion |} in
  floorContacts D20 m [(0.5, sampleSpin); (1, sampleSpin)] = 0%nat.
Proof.
  cbv zeta.
  apply (floor_acts_once D20 [(0.5, sampleSpin); (1, sampleSpin)]).
  - reflexivity.
  - repeat constructor; cbn; lra.
Defined.

(** X10: what is drawn in a tumbling frame.  [mesh.position] is copied
    from [pos] before the floor test, so the rendered position is the
    physics position in every frame but the one that bounces; in that
    frame the die is drawn below the floor (y < -1.4) while [pos] has been
    put back on it, the other two coordinates agreeing. *)
Theorem rendered_position_lags_bounce (d : Die) (m : Mesh) (delta : R)
    (u : SpinSamples) :
  let m' := tumble d m delta u in
  (floorContact d m delta = false <-> position m' = pos m')
  /\ (floorContact d m delta = true ->
      vy (position m') < -1.4 /\ vy (pos m') = -1.4
      /\ vx (position m') = vx (pos m') /\ vz (position m') = vz (pos m')).
Proof.
  cbv zeta.
  assert (Hc : floorContact d m delta = true ->
      vy (position (tumble d m delta u)) < -1.4
      /\ vy (pos (tumble d m delta u)) = -1.4
      /\ vx (position (tumble d m delta u)) = vx (pos (tumble d m delta u))
      /\ vz (position (tumble d m delta u)) = vz (pos (tumble d m delta u))).
  { intro H. pose proof H as H'. apply floorContact_iff in H' as [Hlt _].
    unfold floorContact in H. unfold tumble. cbn.
    rewrite H. cbn. repeat split. exact Hlt. }
  split; [| exact Hc]. split.
  - intro H. unfold floorContact in H. unfold tumble. cbn.
    rewrite H. reflexivity.
  - intro E. destruct (floorContact d m delta) eqn:H; [| reflexivity].
    destruct (Hc eq_refl) as (A & B & _). rewrite E in A. lra.
Qed.

Lemma settle_position (T : Three) (d : Die) (m : Mesh) (target : Quaternion)
    (delta : R) :
  position (settle T d m target delta)
  = multiplyScalar (position m) (1 - 3 * delta).
Proof.
  unfold settle, lerp, multiplyScalar. cbn. f_equal; ring.
Qed.

Lemma lengthSq_multiplyScalar (v : Vector3) (k : R) :
  lengthSq (multiplyScalar v k) = k * k * lengthSq v.
Proof. unfold lengthSq, dot, multiplyScalar. cbn. ring. Qed.

(** X11: settling.  Each settling frame scales the rendered position by
    [1 - 3 * delta] and leaves the physics refs alone, so after [n] frames
    of length [delta] the die is drawn at [(1 - 3 delta)^n] times where it
    was: it approaches the origin for frames of up to 2/3 s, never gets
    farther, and moves away from it when frames are longer. *)
Theorem settle_position_geometric (T : Three) (d : Die) (m : Mesh)
    (target : Quaternion) (delta : R) (n : nat) :
  let m' := settleFrames T d m target delta n in
  position m' = multiplyScalar (position m) ((1 - 3 * delta) ^ n)
  /\ pos m' = pos m /\ velocity m' = velocity m /\ hasBounced m' = hasBounced m
  /\ (0 <= delta <= 2 / 3 -> lengthSq (position m') <= lengthSq (position m))
  /\ (2 / 3 <= delta -> lengthSq (position m) <= lengthSq (position m')).
Proof.
  cbv zeta.
  assert (H : forall k m0,
    position (settleFrames T d m0 target delta k)
    = multiplyScalar (position m0) ((1 - 3 * delta) ^ k)
    /\ pos (settleFrames T d m0 target delta k) = pos m0
    /\ velocity (settleFrames T d m0 target delta k) = velocity m0
    /\ hasBounced (settleFrames T d m0 target delta k) = hasBounced m0).
  { induction k as [| k IH]; intro m0.
    - cbn. repeat split. unfold multiplyScalar. destruct (position m0).
      cbn. f_equal; ring.
    - cbn [settleFrames].
      destruct (IH (settle T d m0 target delta)) as (A & B & C & D).
      rewrite A, B, C, D, settle_position.
      repeat split. unfold multiplyScalar. cbn. f_equal; ring. }
  destruct (H n m) as (A & B & C & D).
  repeat split; try assumption.
  - intro Hd. rewrite A, lengthSq_multiplyScalar.
    pose proof (lengthSq_nonneg (position m)) as Hn.
    assert (Hk : Rabs ((1 - 3 * delta) ^ n) <= 1).
    { rewrite <- RPow_abs. apply Rle_trans with (1 ^ n); [| rewrite pow1; lra].
      apply pow_incr. split; [apply Rabs_pos |].
      apply Rabs_le. lra. }
    assert (Hsq : (1 - 3 * delta) ^ n * (1 - 3 * delta) ^ n <= 1).
    { rewrite <- (Rabs_pos_eq ((1 - 3 * delta) ^ n * (1 - 3 * delta) ^ n))
        by nra.
      rewrite Rabs_mult. pose proof (Rabs_pos ((1 - 3 * delta) ^ n)). nra. }
    nra.
  - intro Hd. rewrite A, lengthSq_multiplyScalar.
    pose proof (lengthSq_nonneg (position m)) as Hn.
    assert (Hk : 1 <= Rabs ((1 - 3 * delta) ^ n)).
    { rewrite <- RPow_abs. apply Rle_trans with (1 ^ n); [rewrite pow1; lra |].
      apply pow_incr. split; [lra |].
      rewrite <- Rabs_Ropp. rewrite Rabs_pos_eq; lra. }
    assert (Hsq : 1 <= (1 - 3 * delta) ^ n * (1 - 3 * delta) ^ n).
    { rewrite <- (Rabs_pos_eq ((1 - 3 * delta) ^ n * (1 - 3 * delta) ^ n))
        by nra.
      rewrite Rabs_mult. pose proof (Rabs_pos ((1 - 3 * delta) ^ n)). nra. }
    nra.
Qed.

Lemma setFromEuler_unit (e : Euler) : qlengthSq (setFromEuler e) = 1.
Proof.
  unfold qlengthSq, setFromEuler. cbn [qx qy qz qw].
  pose proof (sin2_cos2 (ex e / 2)) as H1.
  pose proof (sin2_cos2 (ey e / 2)) as H2.
  pose proof (sin2_cos2 (ez e / 2)) as H3.
  unfold Rsqr in *.
  set (s1 := sin (ex e / 2)) in *. set (c1 := cos (ex e / 2)) in *.
  set (s2 := sin (ey e / 2)) in *. set (c2 := cos (ey e / 2)) in *.
  set (s3 := sin (ez e / 2)) in *. set (c3 := cos (ez e / 2)) in *.
  transitivity ((s1 * s1 + c1 * c1) * (s2 * s2 + c2 * c2) * (s3 * s3 + c3 * c3));
    [ring |].
  rewrite H1, H2, H3. ring.
Qed.

Lemma qnormalize_unit (q : Quaternion) : qlengthSq (qnormalize q) = 1.
Proof.
  unfold qnormalize.
  destruct (Req_dec_T (qlength q) 0) as [E | N].
  - unfold qlengthSq, identityQuaternion. cbn. ring.
  - unfold qlengthSq. cbn [qx qy qz qw].
    assert (Hn : 0 <= qx q * qx q + qy q * qy q + qz q * qz q + qw q * qw q)
      by nra.
    pose proof (sqrt_sqrt _ Hn) as Hs. fold (qlength q) in Hs.
    field_simplify_eq; [| exact N]. nra.
Qed.

Lemma setFromUnitVectors_unit (eps : R) (a b : Vector3) :
  qlengthSq (setFromUnitVectors eps a b) = 1.
Proof.
  unfold setFromUnitVectors.
  destruct (Rlt_dec _ _); [destruct (Rlt_dec _ _) |]; apply qnormalize_unit.
Qed.

(** X12: every orientation the dice compute themselves is a unit
    quaternion: the initial one, the target of every face index (valid or
    not), and the orientation written in a tumbling frame, whatever the
    accumulated Euler angles. *)
Theorem computed_orientations_unit (T : Three) (d : Die) (faceIndex : Z)
    (m : Mesh) (delta : R) (u : SpinSamples) :
  qlengthSq (initialQuat T d) = 1
  /\ qlengthSq (targetQuaternion T d faceIndex) = 1
  /\ qlengthSq (quaternion (tumble d m delta u)) = 1.
Proof.
  split; [| split].
  - destruct d; cbn; try apply setFromUnitVectors_unit.
    unfold D6_js.initialQuat, D6_js.getFaceQuaternion. apply setFromEuler_unit.
  - destruct d; cbn; try apply setFromUnitVectors_unit.
    unfold D6_js.getFaceQuaternion. apply setFromEuler_unit.
  - unfold tumble. cbn [quaternion]. apply setFromEuler_unit.
Qed.

(** ** Every face of every table *)

Lemma cross_scaled (a b c : Vector3) (L : R) :
  0 < L ->
  crossVectors
    (subVectors (vec3 (vx c / L) (vy c / L) (vz c / L))
                (vec3 (vx b / L) (vy b / L) (vz b / L)))
    (subVectors (vec3 (vx a / L) (vy a / L) (vz a / L))
                (vec3 (vx b / L) (vy b / L) (vz b / L)))
  = multiplyScalar (crossVectors (subVectors c b) (subVectors a b))
      (/ L * / L).
Proof.
  intro HL. unfold crossVectors, subVectors, multiplyScalar. cbn [vx vy vz].
  f_equal; field; lra.
Qed.

Lemma flat_normal_ok (a b c : Vector3) (L : R) :
  0 < L ->
  let n := crossVectors (subVectors c b) (subVectors a b) in
  lengthSq n <> 0 ->
  0 <= vz n \/ vz n * vz n <= 0.99 * lengthSq n ->
  let n' := crossVectors
    (subVectors (vec3 (vx c / L) (vy c / L) (vz c / L))
                (vec3 (vx b / L) (vy b / L) (vz b / L)))
    (subVectors (vec3 (vx a / L) (vy a / L) (vz a / L))
                (vec3 (vx b / L) (vy b / L) (vz b / L))) in
  lengthSq n' <> 0
  /\ lengthSq (normalize n') = 1 /\ 0.000001 <= vz (normalize n') + 1.
Proof.
  intros HL n Hn Hz n'.
  assert (Hk : 0 < / L * / L).
  { apply Rmult_lt_0_compat; apply Rinv_0_lt_compat; exact HL. }
  assert (E : n' = multiplyScalar n (/ L * / L)) by (apply cross_scaled, HL).
  assert (Hn' : lengthSq n' <> 0).
  { rewrite E, lengthSq_multiplyScalar.
    pose proof (lengthSq_nonneg n).
    assert (0 < / L * / L * (/ L * / L)) by (apply Rmult_lt_0_compat; lra).
    assert (0 < lengthSq n) by lra.
    assert (0 < / L * / L * (/ L * / L) * lengthSq n)
      by (apply Rmult_lt_0_compat; lra).
    lra. }
  split; [exact Hn' |].
  rewrite E, normalize_scale by exact Hk.
  apply normal_ok; assumption.
Qed.

Lemma scaled_normal_outward (a b c p : Vector3) (L : R) :
  0 < L ->
  0 < dot (crossVectors (subVectors c b) (subVectors a b)) p ->
  0 < dot (normalize
             (crossVectors
                (subVectors (vec3 (vx c / L) (vy c / L) (vz c / L))
                            (vec3 (vx b / L) (vy b / L) (vz b / L)))
                (subVectors (vec3 (vx a / L) (vy a / L) (vz a / L))
                            (vec3 (vx b / L) (vy b / L) (vz b / L)))))
          (vec3 (vx p / L) (vy p / L) (vz p / L)).
Proof.
  intros HL Hd.
  assert (Hk : 0 < / L * / L).
  { apply Rmult_lt_0_compat; apply Rinv_0_lt_compat; exact HL. }
  rewrite cross_scaled, normalize_scale by assumption.
  set (n := crossVectors (subVectors c b) (subVectors a b)) in *.
  assert (Hn : lengthSq n <> 0).
  { intro E. apply lengthSq_zero in E. rewrite E in Hd.
    unfold dot in Hd. cbn [vx vy vz] in Hd. lra. }
  destruct (normalize_as_scale n Hn) as [-> Hl].
  assert (HiL : 0 < / L) by (apply Rinv_0_lt_compat, HL).
  pose proof (length_pos n Hn) as Hlen.
  replace (dot (multiplyScalar n (/ length n))
             (vec3 (vx p / L) (vy p / L) (vz p / L)))
    with (/ length n * / L * dot n p)
    by (unfold dot, multiplyScalar; cbn [vx vy vz]; field; lra).
  apply Rmult_lt_0_compat; [apply Rmult_lt_0_compat |]; assumption.
Qed.

Ltac face_cases tac :=
  repeat (match goal with
          | i : nat |- _ => destruct i as [| ?]; [tac |]
          end);
  exfalso; lia.

Ltac raw_normal_ok tac :=
  cbv zeta; unfold crossVectors, subVectors, lengthSq, dot; cbn [vx vy vz];
  tac.

Ltac polyhedron_face geo k L Lpos sphere tac :=
  let Hlen := fresh "Hlen" in
  let HF := fresh "HF" in
  assert (Hlen : (3 * k + 2 < List.length geo)%nat) by (cbn; lia);
  pose proof (faceNormal_flat geo k Hlen) as HF;
  cbv zeta in HF; cbn [Nat.mul Nat.add] in HF;
  revert HF; expose_entries; on_sphere L Lpos sphere; intro HF;
  match type of HF with
  | lengthSq (crossVectors
       (subVectors (vec3 (vx ?c / _) _ _) (vec3 (vx ?b / _) _ _))
       (subVectors (vec3 (vx ?a / _) _ _) _)) <> 0 -> _ =>
      let Hok := fresh "Hok" in
      let H1 := fresh in
      let H2 := fresh in
      assert (Hok := flat_normal_ok a b c L Lpos);
      cbv zeta in Hok;
      assert (H1 : lengthSq (crossVectors (subVectors c b) (subVectors a b))
                   <> 0)
        by (raw_normal_ok tac);
      assert (H2 : 0 <= vz (crossVectors (subVectors c b) (subVectors a b))
                   \/ vz (crossVectors (subVectors c b) (subVectors a b))
                      * vz (crossVectors (subVectors c b) (subVectors a b))
                      <= 0.99 * lengthSq (crossVectors (subVectors c b)
                                            (subVectors a b)))
        by (first [left; raw_normal_ok tac | right; raw_normal_ok tac]);
      let Hnz := fresh "Hnz" in
      let Hunit := fresh "Hunit" in
      let Hzb := fresh "Hzb" in
      destruct (Hok H1 H2) as (Hnz & Hunit & Hzb);
      rewrite (HF Hnz); split; [exact Hunit |]; split; [exact Hzb |];
      cbn [nth]; apply (scaled_normal_outward a b c a L Lpos);
      raw_normal_ok tac
  end.

Lemma D8_face_normals (i : nat) :
  (i < 8)%nat ->
  lengthSq (faceTableNormal D8 i) = 1
  /\ 0.000001 <= vz (faceTableNormal D8 i) + 1
  /\ 0 < dot (faceTableNormal D8 i) (nth (i * 3) D8_js.geometry origin).
Proof.
  intro Hi. unfold faceTableNormal, D8_js.geometry.
  face_cases ltac:(idtac; match goal with
                   | |- context [faceNormal _ ?k] =>
                       polyhedron_face (OctahedronGeometry 1) k 1 Rlt_0_1
                         ltac:(lra) ltac:(lra)
                   end).
Qed.

Lemma D4_face_normals (i : nat) :
  (i < 4)%nat ->
  lengthSq (faceTableNormal D4 i) = 1
  /\ 0.000001 <= vz (faceTableNormal D4 i) + 1
  /\ 0 < dot (faceTableNormal D4 i) (nth (i * 3) D4_js.geometry origin).
Proof.
  intro Hi. unfold faceTableNormal, D4_js.geometry.
  face_cases ltac:(idtac; match goal with
                   | |- context [faceNormal _ ?k] =>
                       polyhedron_face (TetrahedronGeometry 1) k (sqrt 3)
                         sqrt3_pos ltac:(rewrite sqrt3_sq; ring) ltac:(lra)
                   end).
Qed.

Lemma D20_face_normals (i : nat) :
  (i < 20)%nat ->
  lengthSq (faceTableNormal D20 i) = 1
  /\ 0.000001 <= vz (faceTableNormal D20 i) + 1
  /\ 0 < dot (faceTableNormal D20 i) (nth (i * 3) D20_js.geometry origin).
Proof.
  intro Hi. unfold faceTableNormal, D20_js.geometry.
  pose proof phi_bounds as Hphi. pose proof phi_sq as Hphi2.
  face_cases ltac:(idtac; match goal with
                   | |- context [faceNormal _ ?k] =>
                       polyhedron_face (IcosahedronGeometry 1) k icoL
                         icoL_pos ltac:(rewrite icoL_sq; ring) ltac:(nra)
                   end).
Qed.

Lemma wedge_horizontal (a0 a1 h0 h1 z s : R) :
  0 < s -> 0 <= (z - h0) * (z - h1) ->
  let c := crossVectors
             (subVectors (vec3 (- cos a1 / s) (- sin a1 / s) h1)
                         (vec3 (- cos a0 / s) (- sin a0 / s) h0))
             (subVectors (vec3 0 0 z) (vec3 (- cos a0 / s) (- sin a0 / s) h0)) in
  (h1 - h0) * (h1 - h0) * (/ s * / s) <= vx c * vx c + vy c * vy c.
Proof.
  intros Hs Hz c. subst c. unfold crossVectors, subVectors. cbn [vx vy vz].
  pose proof (sin2_cos2 a0) as E0. pose proof (sin2_cos2 a1) as E1.
  unfold Rsqr in E0, E1.
  set (s0 := sin a0) in *. set (c0 := cos a0) in *.
  set (s1 := sin a1) in *. set (c1 := cos a1) in *.
  set (i := / s).
  assert (Hi : 0 < i) by (apply Rinv_0_lt_compat, Hs).
  set (X := (s0 - s1) * (z - h0) - (h1 - h0) * s0).
  set (Y := (h1 - h0) * c0 - (c0 - c1) * (z - h0)).
  assert (EX : (- s1 / s - - s0 / s) * (z - h0) - (h1 - h0) * (0 - - s0 / s)
               = i * X) by (unfold X, i; field; lra).
  assert (EY : (h1 - h0) * (0 - - c0 / s) - (- c1 / s - - c0 / s) * (z - h0)
               = i * Y) by (unfold Y, i; field; lra).
  rewrite EX, EY.
  set (k := 1 - (c0 * c1 + s0 * s1)).
  assert (Hk : 0 <= k).
  { assert (E : 2 * k = (c0 - c1) * (c0 - c1) + (s0 - s1) * (s0 - s1))
      by (unfold k; nsatz).
    pose proof (Rle_0_sqr (c0 - c1)) as Q1.
    pose proof (Rle_0_sqr (s0 - s1)) as Q2. unfold Rsqr in Q1, Q2. lra. }
  assert (EXY : X * X + Y * Y
                = 2 * k * ((z - h0) * (z - h1)) + (h1 - h0) * (h1 - h0))
    by (unfold X, Y, k; nsatz).
  assert (Hge : (h1 - h0) * (h1 - h0) <= X * X + Y * Y).
  { rewrite EXY. assert (0 <= 2 * k * ((z - h0) * (z - h1)))
      by (apply Rmult_le_pos; lra). lra. }
  assert (Hii : 0 < i * i) by nra.
  nra.
Qed.

Lemma D10_face_normals (f : nat) :
  (f < 10)%nat ->
  lengthSq (faceTableNormal D10 f) = 1
  /\ 0.000001 <= vz (faceTableNormal D10 f) + 1.
Proof.
  intro Hf. unfold faceTableNormal.
  rewrite (D10_faceData_nth _ f Hf).
  split; [apply D10_normal_unit, Hf |].
  pose proof (D10_normal_unit f Hf) as Hunit. revert Hunit.
  unfold D10_js.faceOf, fromBufferAttribute. cbn [D10_js.normal].
  destruct (D10_entries f Hf) as (E0 & E1 & E2). rewrite E0, E1, E2.
  pose proof (D10_face_cross_z f Hf) as Hz.
  set (c := crossVectors _ _) in *. intro Hunit.
  assert (Hc : lengthSq c <> 0).
  { intro E. apply lengthSq_zero in E. rewrite E, normalize_zero in Hunit.
    unfold lengthSq, dot in Hunit. cbn in Hunit. lra. }
  pose proof sin_PI5_pos as S1. pose proof D10_s_bounds as [Hs1 Hs2].
  pose proof (SIN_bound (PI / 5)) as [_ S2].
  set (i := / D10_s).
  assert (Hi : i * D10_s = 1) by (unfold i; field; lra).
  assert (Hi0 : 0.99 < i < 1) by (split; nra).
  assert (Hii : 0 < i * i) by nra.
  apply normalize_z_bound; [exact Hc |].
  unfold apexSign in Hz. destruct (f <? 5)%nat eqn:Hlow.
  - left. rewrite Hz.
    apply Rmult_le_pos; [lra |]. apply Rlt_le, Rinv_0_lt_compat. nra.
  - right.
    assert (Hz' : vz c = - sin (PI / 5) * (i * i))
      by (rewrite Hz; unfold i; field; lra).
    assert (Hxy : (0.21 * i) * (0.21 * i) * (i * i)
                  <= vx c * vx c + vy c * vy c).
    { subst c. unfold equatorVertex, apexSign. rewrite Hlow.
      match goal with
      | |- _ <= vx (crossVectors (subVectors (vec3 _ _ ?h1) (vec3 _ _ ?h0)) _)
                * _ + _ =>
          pose proof (wedge_horizontal
                        (equatorAngle (firstEquator f))
                        (equatorAngle (secondEquator f)) h0 h1 (-1) D10_s)
            as HW
      end.
      cbv zeta in HW. fold i in HW.
      assert (Hodd : Nat.odd (firstEquator f) = negb (Nat.odd (secondEquator f))).
      { unfold firstEquator, secondEquator. rewrite Hlow.
        apply Nat.ltb_ge in Hlow.
        replace (2 * (f - 5) + 1)%nat with (S (2 * (f - 5))) by lia.
        rewrite Nat.odd_succ, Nat.even_mul, Nat.odd_mul. reflexivity. }
      rewrite Hodd in *.
      assert (H1 : 0.105 * 1 / D10_s = 0.105 * i) by (unfold i, Rdiv; ring).
      assert (H2 : 0.105 * -1 / D10_s = - (0.105 * i))
        by (unfold i, Rdiv; ring).
      destruct (Nat.odd (secondEquator f)); cbn [negb] in *;
        rewrite ?H1, ?H2 in *;
        (eapply Rle_trans; [| apply HW; [lra | nra]]); nra. }
    unfold lengthSq, dot. rewrite Hz' in *.
    assert (Hsin2 : sin (PI / 5) * sin (PI / 5) <= 1) by nra.
    assert (Hi4 : 0 < (i * i) * (i * i)) by nra.
    nra.
Qed.

Lemma wedge_dot (a0 a1 h0 h1 z s : R) :
  s <> 0 ->
  dot (crossVectors
         (subVectors (vec3 (- cos a1 / s) (- sin a1 / s) h1)
                     (vec3 (- cos a0 / s) (- sin a0 / s) h0))
         (subVectors (vec3 0 0 z) (vec3 (- cos a0 / s) (- sin a0 / s) h0)))
      (vec3 (- cos a0 / s) (- sin a0 / s) h0)
  = z * sin (a1 - a0) / (s * s).
Proof.
  intro Hs. unfold dot, crossVectors, subVectors. cbn [vx vy vz].
  rewrite sin_minus. field. exact Hs.
Qed.

Lemma dot_normalize_pos (c v : Vector3) :
  0 < dot c v -> 0 < dot (normalize c) v.
Proof.
  intro Hd.
  assert (Hn : lengthSq c <> 0).
  { intro E. apply lengthSq_zero in E. rewrite E in Hd.
    unfold dot in Hd. cbn [vx vy vz] in Hd. lra. }
  destruct (normalize_as_scale c Hn) as [-> Hl].
  replace (dot (multiplyScalar c (/ length c)) v) with (/ length c * dot c v)
    by (unfold dot, multiplyScalar; cbn [vx vy vz]; ring).
  apply Rmult_lt_0_compat; assumption.
Qed.

Lemma D10_face_outward (f : nat) :
  (f < 10)%nat ->
  0 < dot (faceTableNormal D10 f)
          (nth (f * 2 * 3) D10_js.createD10Geometry origin).
Proof.
  intro Hf. unfold faceTableNormal.
  rewrite (D10_faceData_nth _ f Hf).
  unfold D10_js.faceOf, fromBufferAttribute. cbn [D10_js.normal].
  destruct (D10_entries f Hf) as (E0 & E1 & E2). rewrite E0, E1, E2.
  apply dot_normalize_pos.
  unfold equatorVertex. pose proof D10_s_pos as Hs.
  rewrite wedge_dot by lra.
  rewrite (D10_angle_step f Hf).
  pose proof sin_PI5_pos as S1.
  assert (Hss : 0 < / (D10_s * D10_s)) by (apply Rinv_0_lt_compat; nra).
  destruct (apexSign_cases f) as [-> | ->].
  - rewrite Rmult_1_l. unfold Rdiv. rewrite Rmult_1_l.
    apply Rmult_lt_0_compat; assumption.
  - replace (-1 * (PI / 5)) with (- (PI / 5)) by ring. rewrite sin_neg.
    replace (-1 * - sin (PI / 5) / (D10_s * D10_s))
      with (sin (PI / 5) * / (D10_s * D10_s)) by (field; lra).
    apply Rmult_lt_0_compat; assumption.
Qed.

(** ** The number labels *)

(** The frame both [makeFaceLabel]s build from a unit normal [n] and a
    reference direction [u] not parallel to it. *)
Lemma frame_orthonormal (u n : Vector3) :
  lengthSq n = 1 -> lengthSq (crossVectors u n) <> 0 ->
  let x := normalize (crossVectors u n) in
  let y := normalize (crossVectors n x) in
  lengthSq x = 1 /\ lengthSq y = 1
  /\ dot x y = 0 /\ dot x n = 0 /\ dot y n = 0
  /\ crossVectors x y = n
  /\ y = crossVectors n x.
Proof.
  intros Hn Hc. cbv zeta.
  destruct (normalize_as_scale _ Hc) as [Ex Hk].
  pose proof (normalize_unit _ Hc) as Hx1. rewrite Ex in *.
  set (k := / length (crossVectors u n)) in *. clearbody k.
  assert (Hy1 : lengthSq (crossVectors n (multiplyScalar (crossVectors u n) k))
                = 1).
  { destruct u as [ux uy uz], n as [nx ny nz].
    unfold lengthSq, dot, crossVectors, multiplyScalar in *.
    cbn [vx vy vz] in *. nsatz. }
  rewrite (normalize_of_unit _ Hy1).
  split; [exact Hx1 |]. split; [exact Hy1 |].
  destruct u as [ux uy uz], n as [nx ny nz].
  unfold lengthSq, dot, crossVectors, multiplyScalar in *.
  cbn [vx vy vz] in *.
  repeat split; try nsatz.
  f_equal; nsatz.
Qed.

Lemma lengthSq_cross (a b : Vector3) :
  lengthSq (crossVectors a b)
  = lengthSq a * lengthSq b - dot a b * dot a b.
Proof. unfold lengthSq, dot, crossVectors. cbn [vx vy vz]. ring. Qed.

Lemma upright_frame (n : Vector3) :
  lengthSq n = 1 ->
  0.0001 <= lengthSq (crossVectors (vec3 0 1 0) n) ->
  let x := normalize (crossVectors (vec3 0 1 0) n) in
  vy x = 0 /\ 0 < vy (crossVectors n x).
Proof.
  intros Hn Hge. cbv zeta.
  assert (Hc : lengthSq (crossVectors (vec3 0 1 0) n) <> 0) by lra.
  destruct (normalize_as_scale _ Hc) as [-> Hk].
  set (k := / length (crossVectors (vec3 0 1 0) n)) in *.
  rewrite lengthSq_cross, Hn in Hge.
  destruct n as [nx ny nz].
  unfold lengthSq, dot, crossVectors, multiplyScalar in *.
  cbn [vx vy vz] in *.
  split; [ring |].
  match goal with
  | |- 0 < ?e => replace e with (k * (nx * nx + nz * nz)) by ring
  end.
  apply Rmult_lt_0_compat; nra.
Qed.

(** X15: the frame of a D12 label.  For every non-zero face normal the
    axes [right], [up] and [n] handed to [makeBasis] are orthonormal and
    right-handed, also when the normal is (nearly) vertical and the world
    forward axis replaces the world up axis; the label sits 0.001 above
    the face center, shifted by the two offsets along [right] and [up].
    Outside the vertical case [right] is horizontal and [up] points
    upward. *)
Theorem D12_label_frame (center normal : Vector3) (number : Z)
    (offsetX offsetY scale : R) :
  lengthSq normal <> 0 ->
  let l := D12_labels.makeFaceLabel center normal number offsetX offsetY scale in
  let r := D12_labels.right l in
  let u := D12_labels.up l in
  let n := D12_labels.n l in
  n = normalize normal
  /\ lengthSq r = 1 /\ lengthSq u = 1 /\ lengthSq n = 1
  /\ dot r u = 0 /\ dot r n = 0 /\ dot u n = 0
  /\ crossVectors r u = n
  /\ D12_labels.position l
     = add (add center (multiplyScalar n 0.001))
           (add (multiplyScalar r offsetX) (multiplyScalar u offsetY))
  /\ (0.0001 <= lengthSq (crossVectors (vec3 0 1 0) n) ->
      vy r = 0 /\ 0 < vy u).
Proof.
  intros Hnz. cbv zeta.
  unfold D12_labels.makeFaceLabel.
  cbn [D12_labels.right D12_labels.up D12_labels.n D12_labels.position].
  pose proof (normalize_unit normal Hnz) as Hn.
  set (n := normalize normal) in *.
  set (r0 := if Rlt_dec (lengthSq (crossVectors (vec3 0 1 0) n)) 0.0001
             then crossVectors (vec3 0 0 1) n
             else crossVectors (vec3 0 1 0) n).
  assert (Hr0 : exists ref, r0 = crossVectors ref n /\ lengthSq r0 <> 0
                 /\ (0.0001 <= lengthSq (crossVectors (vec3 0 1 0) n) ->
                     ref = vec3 0 1 0)).
  { unfold r0. destruct (Rlt_dec _ _) as [Hlt | Hge].
    - exists (vec3 0 0 1). split; [reflexivity |]. split; [| intro; lra].
      rewrite lengthSq_cross in *. rewrite Hn in *.
      unfold lengthSq, dot in *. cbn [vx vy vz] in *. nra.
    - exists (vec3 0 1 0). split; [reflexivity |]. split; [lra | reflexivity]. }
  destruct Hr0 as (ref & Er0 & Hr0 & Href).
  rewrite Er0 in Hr0 |- *.
  destruct (frame_orthonormal ref n Hn Hr0) as (A & B & C & D & E & F & G).
  cbv zeta in *.
  split; [reflexivity |].
  split; [exact A |]. split; [exact B |]. split; [exact Hn |].
  split; [exact C |]. split; [exact D |]. split; [exact E |].
  split; [exact F |]. split; [reflexivity |].
  intro Hge. rewrite (Href Hge) in *. rewrite G.
  apply (upright_frame n Hn Hge).
Qed.

Lemma D12_label_frame_witness :
  crossVectors
    (D12_labels.right (D12_labels.makeFaceLabel (vec3 0 0.8 0) (vec3 0 2 0) 7
                         0.175 0.2 0.55))
    (D12_labels.up (D12_labels.makeFaceLabel (vec3 0 0.8 0) (vec3 0 2 0) 7
                      0.175 0.2 0.55))
  = D12_labels.n (D12_labels.makeFaceLabel (vec3 0 0.8 0) (vec3 0 2 0) 7
                    0.175 0.2 0.55).
Proof.
  apply (D12_label_frame (vec3 0 0.8 0) (vec3 0 2 0) 7 0.175 0.2 0.55).
  unfold lengthSq, dot. cbn. lra.
Defined.

Lemma normalize_collinear (v : Vector3) :
  exists k, 0 <= k /\ normalize v = multiplyScalar v k.
Proof.
  destruct (Req_dec_T (lengthSq v) 0) as [E | E].
  - exists 0. split; [lra |]. apply lengthSq_zero in E. subst v.
    rewrite normalize_zero. unfold multiplyScalar. cbn. f_equal; ring.
  - destruct (normalize_as_scale v E) as [Ev Hk].
    exists (/ length v). split; [lra | exact Ev].
Qed.

Lemma triangle_plane (v0 v1 v2 v : Vector3) :
  In v [v0; v1; v2] ->
  dot (subVectors v (divideScalar (add (add (add origin v0) v1) v2) 3))
    (normalize (crossVectors (subVectors v1 v0) (subVectors v2 v0)))
  = 0.
Proof.
  intro Hv.
  destruct (normalize_collinear
              (crossVectors (subVectors v1 v0) (subVectors v2 v0)))
    as (k & _ & ->).
  destruct v0 as [x0 y0 z0], v1 as [x1 y1 z1], v2 as [x2 y2 z2].
  destruct Hv as [<- | [<- | [<- | []]]];
    unfold dot, subVectors, crossVectors, divideScalar, multiplyScalar,
      add, origin; cbn [vx vy vz]; field.
Qed.

Lemma D10_topDir_corner (pos : list Vector3) (face : nat) :
  let F := D10_js.faceOf pos face in
  exists v, In v [nth (face * 2 * 3) pos origin;
                  nth (face * 2 * 3 + 1) pos origin;
                  nth (face * 2 * 3 + 2) pos origin]
            /\ D10_js.topDir F = subVectors v (D10_js.center F).
Proof.
  cbv zeta. unfold D10_js.faceOf, fromBufferAttribute.
  cbn [D10_js.center D10_js.topDir].
  eexists. split; [| reflexivity].
  rewrite nearest_firstNearest by discriminate.
  apply firstNearest_In. discriminate.
Qed.

Lemma D10_topDir_orthogonal (pos : list Vector3) (face : nat) :
  dot (D10_js.topDir (D10_js.faceOf pos face))
      (D10_js.normal (D10_js.faceOf pos face)) = 0.
Proof.
  destruct (D10_topDir_corner pos face) as (v & Hv & E). cbv zeta in E.
  rewrite E. unfold D10_js.faceOf, fromBufferAttribute.
  cbn [D10_js.center D10_js.normal]. apply triangle_plane, Hv.
Qed.

(** X16: what [faceData] stores lies in the plane of the triangle it
    reads, on any position buffer.  In D10.js [topDir] runs from the
    center to one of the three corners of the first triangle of the pair
    and is orthogonal to the stored normal, as is the offset of the
    center from each corner; the same holds for the center and the normal
    of a D12 face.  The labels therefore sit at a fixed height above the
    plane of that triangle. *)
Theorem face_entry_in_plane (pos : list Vector3) (face : nat) :
  let F := D10_js.faceOf pos face in
  let G := D12_js.faceOf pos face in
  (exists v, In v (firstTriangle pos 2 face)
             /\ D10_js.topDir F = subVectors v (D10_js.center F))
  /\ dot (D10_js.topDir F) (D10_js.normal F) = 0
  /\ (forall v, In v (firstTriangle pos 2 face) ->
        dot (subVectors v (D10_js.center F)) (D10_js.normal F) = 0)
  /\ (forall v, In v (firstTriangle pos 3 face) ->
        dot (subVectors v (D12_js.center G)) (D12_js.normal G) = 0).
Proof.
  cbv zeta. unfold firstTriangle.
  replace (3 * 2 * face)%nat with (face * 2 * 3)%nat by lia.
  replace (3 * 3 * face)%nat with (face * 3 * 3)%nat by lia.
  split; [apply D10_topDir_corner |].
  split; [apply D10_topDir_orthogonal |].
  split; intros v Hv; unfold D10_js.faceOf, D12_js.faceOf, fromBufferAttribute;
    cbn [D10_js.center D10_js.normal D12_js.center D12_js.normal];
    apply triangle_plane, Hv.
Qed.

(** X17: the label frames of the ten faces of the D10.  On the geometry
    the component builds, the three axes of every label are orthonormal
    and right-handed, the z-axis is the face normal, and the up-axis is
    exactly the normalized [topDir]: it points from the face center to the
    apex of the face (upward on the five top faces, downward on the five
    bottom ones).  The number plane sits 0.005 above the anchor plane. *)
Theorem D10_label_axes (f : nat) :
  (f < 10)%nat ->
  let F := D10_js.faceOf D10_js.createD10Geometry f in
  let label := D10_js.makeFaceLabel (D10_js.center F) (D10_js.normal F)
                 (Z.of_nat f + 1) (D10_js.topDir F) in
  let x := D10_js.xAxis label in
  let y := D10_js.yAxis label in
  let z := D10_js.zAxis label in
  z = D10_js.normal F
  /\ y = normalize (D10_js.topDir F)
  /\ D10_js.topDir F = subVectors (vec3 0 0 (apexSign f)) (D10_js.center F)
  /\ lengthSq x = 1 /\ lengthSq y = 1 /\ lengthSq z = 1
  /\ dot x y = 0 /\ dot x z = 0 /\ dot y z = 0
  /\ crossVectors x y = z
  /\ 0 < apexSign f * vz y
  /\ subVectors (D10_js.numPlanePosition label) (D10_js.planePosition label)
     = multiplyScalar z 0.005.
Proof.
  intro Hf. cbv zeta.
  pose proof (D10_normal_unit f Hf) as Hn.
  pose proof (D10_center_z f Hf) as Hcz.
  assert (Htop : D10_js.topDir (D10_js.faceOf D10_js.createD10Geometry f)
                 = subVectors (vec3 0 0 (apexSign f))
                     (D10_js.center (D10_js.faceOf D10_js.createD10Geometry f))).
  { unfold D10_js.faceOf at 1. cbn [D10_js.topDir].
    rewrite nearest_firstNearest by discriminate.
    change (divideScalar _ 3)
      with (D10_js.center (D10_js.faceOf D10_js.createD10Geometry f)).
    rewrite (D10_pole f Hf).
    destruct (D10_entries f Hf) as (_ & _ & E2).
    unfold fromBufferAttribute.
    replace (f * 2 * 3 + 2)%nat with (f * 2 * 3 + 2)%nat by reflexivity.
    rewrite E2.
    rewrite firstNearest_target by (right; right; left; reflexivity).
    reflexivity. }
  pose proof (D10_topDir_orthogonal D10_js.createD10Geometry f) as Hperp.
  set (F := D10_js.faceOf D10_js.createD10Geometry f) in *.
  set (n := D10_js.normal F) in *.
  set (t := D10_js.topDir F) in *.
  clearbody n t. clearbody F.
  assert (Htz : vz t = 2 / 3 * apexSign f).
  { rewrite Htop. unfold subVectors. cbn [vz]. rewrite Hcz. field. }
  assert (Ht : lengthSq t <> 0).
  { destruct (apexSign_cases f) as [E | E]; rewrite E in Htz;
      unfold lengthSq, dot; nra. }
  pose proof (normalize_unit t Ht) as Hu.
  destruct (normalize_as_scale t Ht) as [Eu Hk].
  assert (Hun : dot (normalize t) n = 0).
  { rewrite Eu. unfold dot, multiplyScalar in *. cbn [vx vy vz]. nra. }
  assert (Hc : lengthSq (crossVectors (normalize t) n) <> 0).
  { rewrite lengthSq_cross, Hu, Hn, Hun. lra. }
  assert (Hc1 : lengthSq (crossVectors (normalize t) n) = 1).
  { rewrite lengthSq_cross, Hu, Hn, Hun. lra. }
  destruct (frame_orthonormal (normalize t) n Hn Hc)
    as (A & B & C & D & E & G & H).
  cbv zeta in *.
  unfold D10_js.makeFaceLabel.
  cbn [D10_js.xAxis D10_js.yAxis D10_js.zAxis D10_js.planePosition
       D10_js.numPlanePosition].
  rewrite (normalize_of_unit n Hn).
  assert (Ey : normalize (crossVectors n (normalize (crossVectors (normalize t) n)))
               = normalize t).
  { rewrite H, (normalize_of_unit _ Hc1), (triple_cross (normalize t) n Hn).
    unfold projectOnPlane. rewrite Hun.
    unfold subVectors, multiplyScalar. destruct (normalize t). cbn.
    f_equal; ring. }
  split; [reflexivity |]. split; [exact Ey |]. split; [exact Htop |].
  split; [exact A |]. split; [exact B |]. split; [exact Hn |].
  split; [exact C |]. split; [exact D |]. split; [exact E |].
  split; [exact G |].
  split.
  - rewrite Ey, Eu. unfold multiplyScalar. cbn [vz]. rewrite Htz.
    destruct (apexSign_cases f) as [-> | ->]; nra.
  - unfold subVectors, add, multiplyScalar. cbn [vx vy vz]. f_equal; lra.
Qed.

Lemma D10_label_axes_witness :
  D10_js.yAxis
    (D10_js.makeFaceLabel
       (D10_js.center (D10_js.faceOf D10_js.createD10Geometry 7))
       (D10_js.normal (D10_js.faceOf D10_js.createD10Geometry 7))
       (Z.of_nat 7 + 1)
       (D10_js.topDir (D10_js.faceOf D10_js.createD10Geometry 7)))
  = normalize (D10_js.topDir (D10_js.faceOf D10_js.createD10Geometry 7)).
Proof.
  apply (D10_label_axes 7). lia.
Defined.

(** ** The rolled face ends up facing the camera *)

Lemma die_eq_D6 (d : Die) : d = D6 \/ d <> D6.
Proof. destruct d; (left; reflexivity) || (right; discriminate). Qed.

Lemma face_normals_ok (d : Die) (i : nat) :
  d <> D6 -> d <> D12 -> (Z.of_nat i < faceCount d)%Z ->
  lengthSq (faceTableNormal d i) = 1
  /\ 0.000001 <= vz (faceTableNormal d i) + 1.
Proof.
  intros H6 H12 Hi. destruct d; try contradiction; cbn in Hi.
  - destruct (D4_face_normals i) as (A & B & _); [lia | now split].
  - destruct (D8_face_normals i) as (A & B & _); [lia | now split].
  - apply D10_face_normals. lia.
  - destruct (D20_face_normals i) as (A & B & _); [lia | now split].
Qed.

Lemma target_aligned (T : Three) (d : Die) (i : nat) :
  d <> D12 -> (Z.of_nat i < faceCount d)%Z ->
  applyQuaternion (faceTableNormal d i) (targetQuaternion T d (Z.of_nat i))
  = forward.
Proof.
  intros H12 Hi.
  destruct (die_eq_D6 d) as [-> | H6].
  - cbn [targetQuaternion faceTableNormal]. cbn in Hi.
    pose proof (D6_getFaceQuaternion_aligned (Z.of_nat i + 1)) as H.
    replace (Z.to_nat (Z.of_nat i + 1 - 1)) with i in H by lia.
    apply H. lia.
  - rewrite (target_reads_own_table T d i H6 H12).
    apply aligned_reference, face_normals_ok; assumption.
Qed.

(** X13: the target of a roll.  On every die but the D12, whatever the
    samples, the quaternion that [rollDice] hands to its timeout turns
    the outward normal of the face that carries the rolled number --
    the face of the die's own table -- onto the camera axis (0, 0, 1). *)
Theorem rolled_target_faces_camera (T : Three) (d : Die) (w : World)
    (u : RollSamples) :
  d <> D12 -> rolling (state w) = false -> rollSamplesOk u ->
  let w1 := rollDice T d w u in
  let shown := faceTableNormal d (Z.to_nat (result (state w1) - 1)) in
  exists t, timers w1 = timers w ++ [t]
    /\ timerFaceNumber t = result (state w1)
    /\ applyQuaternion shown (timerTarget t) = forward.
Proof.
  intros H12 Hr (Hu & _). cbv zeta.
  pose proof (faceNumberOf_range d (uFace u) Hu) as Hk.
  unfold faceNumberOf in Hk.
  unfold rollDice. rewrite Hr. cbn [timers state result].
  eexists. split; [reflexivity |]. cbn [timerFaceNumber timerTarget].
  split; [reflexivity |].
  set (k := Zfloor (uFace u * IZR (faceCount d))) in *.
  replace (k + 1 - 1)%Z with k by lia.
  rewrite <- (Z2Nat.id k) at 2 by lia.
  apply target_aligned; [exact H12 | lia].
Qed.

Lemma rolled_target_faces_camera_witness :
  exists t,
    timers (rollDice three_classic D20 (mount three_classic D20 true) sampleRoll)
    = timers (mount three_classic D20 true) ++ [t]
    /\ timerFaceNumber t
       = result (state (rollDice three_classic D20
                          (mount three_classic D20 true) sampleRoll))
    /\ applyQuaternion
         (faceTableNormal D20
            (Z.to_nat (result (state (rollDice three_classic D20
                                        (mount three_classic D20 true)
                                        sampleRoll)) - 1)))
         (timerTarget t) = forward.
Proof.
  apply (rolled_target_faces_camera three_classic D20
           (mount three_classic D20 true) sampleRoll).
  - discriminate.
  - reflexivity.
  - unfold rollSamplesOk, inUnit. cbn. lra.
Defined.

(** X14: where a die comes to rest.  On every die but the D12, in any
    state reached from mount in which no roll is in flight and a target
    is set, the target turns the face carrying the shown result to the
    camera; and with a [slerp] that returns its argument at [t = 1], one
    settling frame of 1/6 s or more puts the die in exactly that
    orientation. *)
Theorem settled_die_shows_result (T : Three) (d : Die) (callback : bool)
    (es : list Event) (q : Quaternion) (delta : R) (u : SpinSamples) :
  d <> D12 -> samplesOk es ->
  (forall a b, slerp T a b 1 = b) ->
  let w := run T d (mount T d callback) es in
  rolling (state w) = false -> targetQuat (state w) = Some q ->
  / 6 <= delta ->
  let shown := faceTableNormal d (Z.to_nat (result (state w) - 1)) in
  applyQuaternion shown q = forward
  /\ quaternion (mesh (useFrame T d w delta u)) = q
  /\ applyQuaternion shown (quaternion (mesh (useFrame T d w delta u)))
     = forward.
Proof.
  intros H12 Hs Hslerp. cbv zeta. intros Hr Hq Hd.
  destruct (run_consistent T d es _ Hs (mount_consistent T d callback))
    as (Hres & _ & Hmode & _).
  set (w := run T d (mount T d callback) es) in *.
  assert (Eq : q = targetQuaternion T d (result (state w) - 1)).
  { destruct Hmode as [[_ [Hn | Ht]] | (t & [Hf _] & _)]; congruence. }
  assert (Hal : applyQuaternion
                  (faceTableNormal d (Z.to_nat (result (state w) - 1))) q
                = forward).
  { rewrite Eq. destruct Hres as [H1 HN].
    rewrite <- (Z2Nat.id (result (state w) - 1)) at 2 by lia.
    apply target_aligned; [exact H12 | lia]. }
  assert (Hm : quaternion (mesh (useFrame T d w delta u)) = q).
  { unfold useFrame. rewrite Hr, Hq. cbn [mesh settle quaternion].
    assert (Et : slerpT d delta = 1).
    { destruct d; try contradiction; cbn; apply Rmin_left; lra. }
    rewrite Et. apply Hslerp. }
  split; [exact Hal |]. split; [exact Hm |]. rewrite Hm. exact Hal.
Qed.

Lemma settled_die_shows_result_witness :
  quaternion (mesh (useFrame three_classic D6 settledD6 0.25 sampleSpin))
  = D6_js.getFaceQuaternion 4.
Proof.
  apply (settled_die_shows_result three_classic D6 true
           [Click sampleRoll; Elapse 1000] (D6_js.getFaceQuaternion 4)
           0.25 sampleSpin).
  - discriminate.
  - cbn. unfold rollSamplesOk, inUnit. cbn. lra.
  - intros a b. cbn. unfold slerp_classic.
    destruct (Req_dec_T 1 0) as [E | _]; [lra |].
    destruct (Req_dec_T 1 1) as [_ | N]; [reflexivity | lra].
  - apply settledD6_state.
  - apply settledD6_state.
  - lra.
Defined.

(** ** Which number a triangle shows *)

Lemma groupOf_from (n a k : nat) :
  (a * 3 <= k < (a + n) * 3)%nat ->
  find (fun g => (start g <=? k)%nat && (k <? start g + count g)%nat)
       (map (fun i : nat => {| start := i * 3; count := 3; materialIndex := i |})
            (seq a n))
  = Some {| start := k / 3 * 3; count := 3; materialIndex := k / 3 |}.
Proof.
  revert a. induction n as [| n IH]; intros a Hk; [lia |].
  cbn [seq map find start count].
  destruct (Nat.ltb_spec k (a * 3 + 3)) as [Hlt | Hge].
  - assert (Hle : (a * 3 <=? k)%nat = true) by (apply Nat.leb_le; lia).
    rewrite Hle. cbn [andb].
    assert (E : (k / 3 = a)%nat).
    { symmetry. apply (Nat.div_unique k 3 a (k - a * 3)); lia. }
    rewrite E. reflexivity.
  - rewrite andb_false_r. apply IH. lia.
Qed.

Lemma materials_nth (d : Die) (i : nat) :
  (Z.of_nat i < faceCount d)%Z ->
  nth_error (materials d) i = Some (Z.of_nat i + 1)%Z.
Proof.
  intro Hi. unfold materials.
  rewrite nth_error_map, nth_error_seq.
  destruct (Nat.ltb_spec i (Z.to_nat (faceCount d))) as [_ | H]; [| lia].
  reflexivity.
Qed.

Lemma uvs_length (n : nat) : List.length (uvs n) = (6 * n)%nat.
Proof.
  unfold uvs.
  assert (H : forall a,
            List.length (flat_map (fun _ : nat => [0.5; 1.0; 0.0; 0.0; 1.0; 0.0])
                           (seq a n)) = (6 * n)%nat).
  { induction n as [| n IH]; intro a; [reflexivity |].
    cbn [seq flat_map]. rewrite length_app, IH. cbn [List.length]. lia. }
  apply H.
Qed.

(** X18: the geometry setup of D4.js, D8.js and D20.  The position buffer
    holds three entries per face of the die; the loop over [triCount]
    puts every entry [k] in exactly one material group, the one of
    triangle [k / 3], so that with the materials array of the component
    triangle [i] is drawn with the texture of number [i + 1]; and the uv
    array holds two floats per entry. *)
Theorem triangle_shows_number (d : Die) (geometry : list Vector3) (k : nat) :
  In (d, geometry)
     [(D4, D4_js.geometry); (D8, D8_js.geometry); (D20, D20_js.geometry)] ->
  (k < List.length geometry)%nat ->
  triCount geometry = Z.to_nat (faceCount d)
  /\ groupOf (groups (triCount geometry)) k
     = Some {| start := k / 3 * 3; count := 3; materialIndex := k / 3 |}
  /\ numberDrawnAt d (groups (triCount geometry)) k
     = Some (Z.of_nat (k / 3) + 1)%Z
  /\ List.length (uvs (triCount geometry)) = (2 * List.length geometry)%nat.
Proof.
  intros Hd Hk.
  assert (Hlen : List.length geometry = (3 * Z.to_nat (faceCount d))%nat).
  { destruct Hd as [E | [E | [E | []]]]; inversion E; subst; reflexivity. }
  assert (Htri : triCount geometry = Z.to_nat (faceCount d)).
  { unfold triCount. rewrite Hlen, Nat.mul_comm. apply Nat.div_mul. lia. }
  assert (Hg : groupOf (groups (triCount geometry)) k
               = Some {| start := k / 3 * 3; count := 3;
                         materialIndex := k / 3 |}).
  { unfold groupOf, groups. apply groupOf_from. rewrite Htri. lia. }
  split; [exact Htri |]. split; [exact Hg |]. split.
  - unfold numberDrawnAt. rewrite Hg. cbn [materialIndex].
    apply materials_nth.
    assert (k / 3 < Z.to_nat (faceCount d))%nat
      by (apply Nat.Div0.div_lt_upper_bound; lia).
    lia.
  - rewrite uvs_length, Htri, Hlen. lia.
Qed.

Lemma triangle_shows_number_witness :
  numberDrawnAt D20 (groups (triCount D20_js.geometry)) 58 = Some 20%Z.
Proof.
  apply (triangle_shows_number D20 D20_js.geometry 58).
  - right. right. left. reflexivity.
  - cbn. lia.
Defined.

(** ** The face tables point outward *)

Lemma scaled_normal_unit (a b c p : Vector3) (L : R) :
  0 < L ->
  0 < dot (crossVectors (subVectors c b) (subVectors a b)) p ->
  lengthSq (normalize
              (crossVectors
                 (subVectors (vec3 (vx c / L) (vy c / L) (vz c / L))
                             (vec3 (vx b / L) (vy b / L) (vz b / L)))
                 (subVectors (vec3 (vx a / L) (vy a / L) (vz a / L))
                             (vec3 (vx b / L) (vy b / L) (vz b / L))))) = 1.
Proof.
  intros HL Hd.
  assert (Hk : 0 < / L * / L).
  { apply Rmult_lt_0_compat; apply Rinv_0_lt_compat; exact HL. }
  rewrite cross_scaled, normalize_scale by assumption.
  apply normalize_unit. intro E. apply lengthSq_zero in E. rewrite E in Hd.
  unfold dot in Hd. cbn [vx vy vz] in Hd. lra.
Qed.

Lemma dot_pos_nonzero (n p : Vector3) : 0 < dot n p -> lengthSq n <> 0.
Proof.
  intros Hd E. apply lengthSq_zero in E. rewrite E in Hd.
  unfold dot in Hd. cbn [vx vy vz] in Hd. lra.
Qed.

Lemma scaled_normal_y (a b c : Vector3) (L : R) :
  0 < L ->
  let n := crossVectors (subVectors c b) (subVectors a b) in
  lengthSq n <> 0 ->
  vy n * vy n <= 0.99 * lengthSq n ->
  let n' := normalize
              (crossVectors
                 (subVectors (vec3 (vx c / L) (vy c / L) (vz c / L))
                             (vec3 (vx b / L) (vy b / L) (vz b / L)))
                 (subVectors (vec3 (vx a / L) (vy a / L) (vz a / L))
                             (vec3 (vx b / L) (vy b / L) (vz b / L)))) in
  vy n' * vy n' <= 0.99.
Proof.
  intros HL n Hn Hy n'. subst n'.
  assert (Hk : 0 < / L * / L).
  { apply Rmult_lt_0_compat; apply Rinv_0_lt_compat; exact HL. }
  rewrite cross_scaled, normalize_scale by assumption. fold n.
  pose proof (normalize_unit n Hn) as Hu.
  destruct (normalize_as_scale n Hn) as [E Hl]. rewrite E in *.
  set (k := / length n) in *.
  rewrite lengthSq_multiplyScalar in Hu.
  unfold multiplyScalar. cbn [vy].
  assert (Hkk : 0 < k * k) by nra.
  replace (vy n * k * (vy n * k)) with (k * k * (vy n * vy n)) by ring.
  assert (k * k * (vy n * vy n) <= k * k * (0.99 * lengthSq n))
    by (apply Rmult_le_compat_l; lra).
  nra.
Qed.

Lemma phi_cube : phi * phi * phi = 2 * phi + 1.
Proof. pose proof phi_sq. nra. Qed.

Lemma phi_fourth : phi * phi * phi * phi = 3 * phi + 2.
Proof. pose proof phi_sq. pose proof phi_cube. nra. Qed.

Ltac dodecahedron_face :=
  unfold D12_js.faceData; cbn [seq map nth];
  unfold D12_js.faceOf, fromBufferAttribute;
  cbn [D12_js.normal Nat.mul Nat.add];
  unfold D12_js.createD12Geometry; expose_entries;
  on_sphere (sqrt 3) sqrt3_pos dodeca_len;
  match goal with
  | |- context [normalize (crossVectors
         (subVectors (vec3 (vx ?c / _) _ _) (vec3 (vx ?b / _) _ _))
         (subVectors (vec3 (vx ?a / _) _ _) _))] =>
      let Hd := fresh "Hd" in
      assert (Hd : 0 < dot (crossVectors (subVectors c b) (subVectors a b)) b)
        by (unfold crossVectors, subVectors, dot; cbn [vx vy vz];
            rewrite ?phi_inv; nra);
      split; [apply (scaled_normal_unit a b c b (sqrt 3) sqrt3_pos Hd) |];
      split; [apply (scaled_normal_outward a b c b (sqrt 3) sqrt3_pos Hd) |];
      apply (scaled_normal_y a b c (sqrt 3) sqrt3_pos);
      [ apply (dot_pos_nonzero _ _ Hd)
      | unfold crossVectors, subVectors, lengthSq, dot; cbn [vx vy vz];
        rewrite ?phi_inv; nra ]
  end.

Lemma D12_face_normals (i : nat) :
  (i < 12)%nat ->
  lengthSq (faceTableNormal D12 i) = 1
  /\ 0 < dot (faceTableNormal D12 i)
             (nth (i * 3 * 3) D12_js.createD12Geometry origin)
  /\ vy (faceTableNormal D12 i) * vy (faceTableNormal D12 i) <= 0.99.
Proof.
  intro Hi. unfold faceTableNormal.
  pose proof phi_bounds as Hphi. pose proof phi_sq as Hphi2.
  pose proof phi_cube as Hphi3. pose proof phi_fourth as Hphi4.
  face_cases ltac:(idtac; dodecahedron_face).
Qed.

(** X19: every entry of every face table is a unit vector that points
    out of the die: its inner product with a point of the face it
    belongs to is positive.  Turning such a normal to the camera axis
    shows the face from its front side. *)
Theorem face_table_outward (d : Die) (i : nat) :
  (Z.of_nat i < faceCount d)%Z ->
  lengthSq (faceTableNormal d i) = 1
  /\ 0 < dot (faceTableNormal d i) (faceCorner d i).
Proof.
  intro Hi. destruct d; cbn in Hi; unfold faceCorner.
  - destruct (D4_face_normals i) as (A & _ & C); [lia | now split].
  - cbn [faceTableNormal].
    do 6 (destruct i as [| i];
          [unfold lengthSq, dot, multiplyScalar; cbn; split; lra |]).
    lia.
  - destruct (D8_face_normals i) as (A & _ & C); [lia | now split].
  - split; [apply D10_face_normals; lia | apply D10_face_outward; lia].
  - destruct (D12_face_normals i) as (A & B & _); [lia | now split].
  - destruct (D20_face_normals i) as (A & _ & C); [lia | now split].
Qed.

Lemma face_table_outward_witness :
  lengthSq (faceTableNormal D12 4) = 1
  /\ 0 < dot (faceTableNormal D12 4) (faceCorner D12 4).
Proof.
  apply (face_table_outward D12 4). cbn. lia.
Defined.

(** ** What the parent is told *)

Lemma run_last_report (T : Three) (d : Die) (es : list Event) :
  timeoutNotifies d = true ->
  forall w, onRollComplete w = true ->
    (idle w /\ (reported w = [] \/ lastReported w (result (state w)))
     \/ exists t, inFlight w t /\ timerFaceNumber t = result (state w)) ->
    let w' := run T d w es in
    idle w' /\ (reported w' = [] \/ lastReported w' (result (state w')))
    \/ exists t, inFlight w' t /\ timerFaceNumber t = result (state w').
Proof.
  intro Hd. induction es as [| e es IH]; intros w Hc Hw; [exact Hw |].
  cbv zeta.
  change (run T d w (e :: es)) with (run T d (step T d w e) es).
  destruct e as [u | delta u | dt]; cbn [step].
  - apply IH.
    + unfold rollDice. destruct (rolling (state w)); exact Hc.
    + destruct Hw as [[Hi _] | (t & Hf & Ht)].
      * destruct (rollDice_starts T d w u Hi) as (A & B & _).
        cbv zeta in A, B. right. eexists. split; [exact A |].
        cbn [timerFaceNumber]. now rewrite B.
      * assert (E : rollDice T d w u = w)
          by (unfold rollDice; rewrite (proj1 Hf); reflexivity).
        rewrite E. right. now exists t.
  - apply IH; [exact Hc |].
    destruct (useFrame_controller T d w delta u) as (Es & Et & Er & _).
    cbv zeta in Es, Et, Er. unfold idle, inFlight, lastReported.
    rewrite Es, Et, Er. exact Hw.
  - apply IH.
    + unfold elapse.
      match goal with |- onRollComplete (fold_left _ ?ts ?w0) = _ =>
        destruct (timeouts_keep d ts w0) as (_ & _ & _ & _ & _ & _ & G & _)
      end. rewrite G. exact Hc.
    + destruct Hw as [[Hi Hrep] | (t & Hf & Ht)].
      * destruct (elapse_idle d w dt Hi) as (A & B & C & _).
        cbv zeta in A, B, C. left. split; [exact A |].
        unfold lastReported. rewrite B, C. exact Hrep.
      * destruct (elapse_cases d w t dt Hf)
          as [(A & B & C) | (A & B & C & D & E)].
        -- right. exists t. split; [exact A |]. now rewrite B.
        -- left. split; [exact A |]. right.
           unfold lastReported. rewrite E, C. unfold reportOf.
           rewrite Hd, Hc. cbn [andb]. rewrite Ht.
           exists (now w + dt), (reported w). reflexivity.
Qed.

(** X20: the number shown is the number reported.  On the five dice
    whose timeout notifies, mounted with a callback: whenever no roll is
    in flight and at least one roll has been started, [onRollComplete]
    has been called, and its last call carried the result the component
    now shows. *)
Theorem shown_result_is_last_report (T : Three) (d : Die) (es : list Event) :
  timeoutNotifies d = true ->
  let w := run T d (mount T d true) es in
  rolling (state w) = false -> (0 < resetSignal (state w))%nat ->
  lastReported w (result (state w))
  /\ List.length (reported w) = resetSignal (state w).
Proof.
  intros Hd. cbv zeta. intros Hr Hs.
  destruct (run_accounted T d es Hd (mount T d true) eq_refl eq_refl)
    as [_ Hacc].
  pose proof (run_last_report T d es Hd (mount T d true) eq_refl) as Hm.
  cbv zeta in Hm.
  destruct Hm as [[Hi Hrep] | (t & [Hf _] & _)].
  - left. split; [apply mount_idle | left; reflexivity].
  - destruct Hi as [_ Ht]. rewrite Ht in Hacc. cbn [List.length] in Hacc.
    split; [| lia].
    destruct Hrep as [E | H]; [| exact H].
    rewrite E in Hacc. cbn in Hacc. lia.
  - congruence.
Qed.

Lemma shown_result_is_last_report_witness :
  lastReported settledD6 (result (state settledD6)).
Proof.
  apply (shown_result_is_last_report three_classic D6
           [Click sampleRoll; Elapse 1000]).
  - reflexivity.
  - apply settledD6_state.
  - unfold run; cbn [fold_left step].
    match goal with |- context [elapse D6 ?w0 1000] =>
      pose proof (timeouts_keep D6
        (filter (fun t : Timer => Rleb (due t) (now w0 + 1000)) (timers w0))
        {| now := now w0 + 1000; onRollComplete := onRollComplete w0;
           state := state w0; mesh := mesh w0;
           timers := filter (fun t => negb (Rleb (due t) (now w0 + 1000)))
                       (timers w0);
           reported := reported w0 |}) as (_ & _ & C & _)
    end.
    unfold elapse. rewrite C. cbn. lia.
Defined.

(** ** The spin *)




(** X22: the Euler table of D6.js.  [orientations[faceNumber] ||
    orientations[1]] falls back to the entry of face 1 exactly for the
    numbers outside 1..6, and no roll takes that branch: the number
    [rollDice] draws from a sample in [0, 1) always has its own entry,
    as has the 6 of the initial orientation. *)
Theorem D6_orientation_fallback_unused (n : Z) (u : R) :
  ((n < 1 \/ 6 < n)%Z -> D6_js.getFaceQuaternion n = D6_js.getFaceQuaternion 1)
  /\ ((1 <= n <= 6)%Z -> D6_js.orientations n <> None)
  /\ (inUnit u -> D6_js.orientations (faceNumberOf D6 u) <> None)
  /\ D6_js.orientations (initialResult D6) <> None.
Proof.
  assert (Hin : forall k, (1 <= k <= 6)%Z -> D6_js.orientations k <> None).
  { intros k Hk.
    assert (C : k = 1%Z \/ k = 2%Z \/ k = 3%Z \/ k = 4%Z \/ k = 5%Z \/ k = 6%Z)
      by lia.
    destruct C as [-> | [-> | [-> | [-> | [-> | ->]]]]]; discriminate. }
  split; [| split; [exact (Hin n) | split]].
  - intro Hn. unfold D6_js.getFaceQuaternion.
    assert (E : D6_js.orientations n = None).
    { unfold D6_js.orientations.
      destruct n as [| p | p]; try reflexivity.
      do 3 (destruct p as [p | p |]; try reflexivity; try lia). }
    rewrite E. reflexivity.
  - intro Hu. apply Hin. apply (faceNumberOf_range D6 u Hu).
  - discriminate.
Qed.

Lemma D12_numberMeshes_nth (pos : list Vector3) (i : nat) :
  (i < 12)%nat ->
  nth_error (D12_labels.numberMeshes pos) i
  = Some (let F := nth i (D12_js.faceData pos) D12_js.defaultFace in
          D12_labels.makeFaceLabel (D12_js.center F) (D12_js.normal F)
            (Z.of_nat i + 1) D12_labels.defaultOffsetX
            D12_labels.defaultOffsetY D12_labels.defaultScale).
Proof.
  intro Hi.
  do 12 (destruct i as [| i]; [reflexivity |]). lia.
Qed.

(** X23: the twelve labels of the D12.  Label [i] carries the number
    [i + 1] and its z-axis is the outward normal of entry [i] of the face
    table.  No face of the dodecahedron is close enough to vertical for
    the world-forward fallback: every label's [right] axis is the
    normalized [worldUp x n], which is horizontal, and every [up] axis
    has a positive world-up component. *)
Theorem D12_labels_upright (i : nat) :
  (i < 12)%nat ->
  exists l,
    nth_error (D12_labels.numberMeshes D12_js.createD12Geometry) i = Some l
    /\ D12_labels.number l = (Z.of_nat i + 1)%Z
    /\ D12_labels.n l = faceTableNormal D12 i
    /\ D12_labels.right l
       = normalize (crossVectors (vec3 0 1 0) (faceTableNormal D12 i))
    /\ crossVectors (D12_labels.right l) (D12_labels.up l) = D12_labels.n l
    /\ vy (D12_labels.right l) = 0
    /\ 0 < vy (D12_labels.up l).
Proof.
  intro Hi. eexists. split; [apply (D12_numberMeshes_nth _ i Hi) |].
  cbv zeta.
  destruct (D12_face_normals i Hi) as (Hunit & _ & Hy).
  unfold faceTableNormal in *.
  set (F := nth i (D12_js.faceData D12_js.createD12Geometry) D12_js.defaultFace)
    in *.
  set (nrm := D12_js.normal F) in *. clearbody nrm. 
  assert (Hge : 0.0001 <= lengthSq (crossVectors (vec3 0 1 0) nrm)).
  { rewrite lengthSq_cross, Hunit. unfold lengthSq, dot. cbn [vx vy vz]. nra. }
  assert (Hc : lengthSq (crossVectors (vec3 0 1 0) nrm) <> 0) by lra.
  destruct (frame_orthonormal (vec3 0 1 0) nrm Hunit Hc)
    as (_ & _ & _ & _ & _ & Hx & Hy').
  destruct (upright_frame nrm Hunit Hge) as [Hr Hu]. cbv zeta in *.
  unfold D12_labels.makeFaceLabel.
  cbn [D12_labels.right D12_labels.up D12_labels.n D12_labels.number].
  rewrite (normalize_of_unit nrm Hunit).
  destruct (Rlt_dec _ _) as [Hlt | _]; [lra |].
  split; [reflexivity |]. split; [reflexivity |]. split; [reflexivity |].
  split; [exact Hx |]. split; [exact Hr |]. rewrite Hy'. exact Hu.
Qed.

Lemma D12_labels_upright_witness :
  exists l,
    nth_error (D12_labels.numberMeshes D12_js.createD12Geometry) 5 = Some l
    /\ D12_labels.number l = (Z.of_nat 5 + 1)%Z
    /\ D12_labels.n l = faceTableNormal D12 5
    /\ D12_labels.right l
       = normalize (crossVectors (vec3 0 1 0) (faceTableNormal D12 5))
    /\ crossVectors (D12_labels.right l) (D12_labels.up l) = D12_labels.n l
    /\ vy (D12_labels.right l) = 0
    /\ 0 < vy (D12_labels.up l).
Proof.
  apply (D12_labels_upright 5). lia.
Defined.
